(** * randomgen: basic RNG containers and the legacy distribution sampler

    A shallow embedding of
      - [randomgen/mt19937.pyx], [randomgen/threefry32.pyx] and
        [randomgen/xoshiro256starstar.pyx] (the Cython containers that own a
        C state block and expose [seed], [jump], [advance] and the [state]
        property), and
      - [randomgen/src/legacy/distributions-boxmuller.c] (the legacy
        samplers built on an augmented basic RNG).

    The Cython methods mutate a C struct and may raise a Python exception
    half way through; they are embedded in a state-and-exception monad in
    which the state reached at the point of the [raise] is kept.  The C
    samplers are embedded over IEEE binary64 (Rocq's primitive floats), with
    the rejection loops bounded by a fuel argument. *)

From Stdlib Require Import ZArith List String Bool Lia.
From Stdlib Require Import Floats.
Import ListNotations.

Set Implicit Arguments.

(* ================================================================== *)
(** * Part I: the embedding *)
(* ================================================================== *)

(** ** Python values, exceptions and the method monad *)

Module Py.

(** The exceptions the modelled methods can raise. *)
Inductive exn : Type :=
| TypeError | ValueError | IndexError | KeyError | OverflowError
| RuntimeError.

#[local] Set Warnings "-register-all".

(** The Python objects that can appear in a state snapshot.  A
    [PyList] stands for a list or a one-dimensional ndarray of integers;
    a [PyDict] keeps its items in insertion order. *)
Inductive pyval : Type :=
| PyNone
| PyInt (z : Z)
| PyStr (s : string)
| PyTuple (items : list pyval)
| PyList (items : list pyval)
| PyDict (entries : list (string * pyval)).

(** A method body over a C state block [St]: it returns a value or raises,
    and in both cases leaves a state behind. *)
Definition M (St A : Type) : Type := St -> (exn + A) * St.

Definition ret {St A} (a : A) : M St A := fun st => (inr a, st).

Definition raise {St A} (e : exn) : M St A := fun st => (inl e, st).

Definition bind {St A B} (m : M St A) (k : A -> M St B) : M St B :=
  fun st =>
    match m st with
    | (inr a, st') => k a st'
    | (inl e, st') => (inl e, st')
    end.

(** A pure computation that may raise. *)
Definition lift {St A} (r : exn + A) : M St A := fun st => (r, st).

Definition modify {St} (f : St -> St) : M St unit := fun st => (inr tt, f st).

Definition gets {St A} (f : St -> A) : M St A := fun st => (inr (f st), st).

Definition exn_eqb (a b : exn) : bool :=
  match a, b with
  | TypeError, TypeError | ValueError, ValueError | IndexError, IndexError
  | KeyError, KeyError | OverflowError, OverflowError
  | RuntimeError, RuntimeError => true
  | _, _ => false
  end.

(** [try: body  except e: handler]: the handler starts from the state the
    body left when it raised. *)
Definition try_except {St A} (body : M St A) (e : exn) (handler : M St A)
  : M St A :=
  fun st =>
    match body st with
    | (inl e', st') => if exn_eqb e' e then handler st' else (inl e', st')
    | r => r
    end.

Fixpoint for_each {St A} (l : list A) (body : A -> M St unit) : M St unit :=
  match l with
  | [] => ret tt
  | x :: r => bind (body x) (fun _ => for_each r body)
  end.

(** [for i in range(n): body] *)
Definition for_range {St} (n : nat) (body : nat -> M St unit) : M St unit :=
  for_each (seq 0 n) body.

(** [m] run [k] times in a row (stopping at the first exception). *)
Fixpoint repeat_m {St} (k : nat) (m : M St unit) : M St unit :=
  match k with
  | O => ret tt
  | S k' => bind m (fun _ => repeat_m k' m)
  end.

(** Write to a C array at an index inside its bounds. *)
Fixpoint upd {A} (i : nat) (v : A) (l : list A) : list A :=
  match l, i with
  | [], _ => []
  | _ :: r, O => v :: r
  | x :: r, S j => x :: upd j v r
  end.

(** A C array of four words, [T v[4]]. *)
Record arr4 : Type := Arr4 { w0 : Z; w1 : Z; w2 : Z; w3 : Z }.

(** [v[i] = w] for [i] in [0 .. 3]. *)
Definition set4 (i : nat) (w : Z) (a : arr4) : arr4 :=
  match i with
  | 0%nat => Arr4 w (w1 a) (w2 a) (w3 a)
  | 1%nat => Arr4 (w0 a) w (w2 a) (w3 a)
  | 2%nat => Arr4 (w0 a) (w1 a) w (w3 a)
  | 3%nat => Arr4 (w0 a) (w1 a) (w2 a) w
  | _ => a
  end.

Definition list4 (a : arr4) : list Z := [w0 a; w1 a; w2 a; w3 a].

Definition all4 (P : Z -> Prop) (a : arr4) : Prop :=
  P (w0 a) /\ P (w1 a) /\ P (w2 a) /\ P (w3 a).

(** *** Subscripting and conversions *)

Definition is_dict (v : pyval) : bool :=
  match v with PyDict _ => true | _ => false end.

Definition is_tuple (v : pyval) : bool :=
  match v with PyTuple _ => true | _ => false end.

(** [v == s] for a string literal [s]. *)
Definition eq_str (v : pyval) (s : string) : bool :=
  match v with PyStr s' => String.eqb s' s | _ => false end.

Fixpoint assoc (k : string) (d : list (string * pyval)) : option pyval :=
  match d with
  | [] => None
  | (k', v) :: r => if String.eqb k' k then Some v else assoc k r
  end.

(** [d.get(k, default)] on a dict. *)
Definition dict_get (v : pyval) (k : string) (default : pyval) : pyval :=
  match v with
  | PyDict d => match assoc k d with Some x => x | None => default end
  | _ => default
  end.

(** [v[k]] with a string key. *)
Definition getitem_str (v : pyval) (k : string) : exn + pyval :=
  match v with
  | PyDict d => match assoc k d with Some x => inr x | None => inl KeyError end
  | _ => inl TypeError
  end.

(** [v[i]] with a non-negative integer index. *)
Definition getitem (v : pyval) (i : nat) : exn + pyval :=
  match v with
  | PyTuple l | PyList l =>
      match nth_error l i with Some x => inr x | None => inl IndexError end
  | PyStr s =>
      match String.get i s with
      | Some c => inr (PyStr (String c EmptyString))
      | None => inl IndexError
      end
  | PyDict _ => inl KeyError
  | _ => inl TypeError
  end.

(** Conversion of a Python object to a C integer of the given range, as
    Cython performs it on assignment and on a [<T>] cast of an object. *)
Definition to_c_int (lo hi : Z) (v : pyval) : exn + Z :=
  match v with
  | PyInt z => if (lo <=? z)%Z && (z <? hi)%Z then inr z else inl OverflowError
  | _ => inl TypeError
  end.

Definition to_uint32 := to_c_int 0 (2 ^ 32).
Definition to_uint64 := to_c_int 0 (2 ^ 64).
Definition to_int := to_c_int (- 2 ^ 31) (2 ^ 31).
Definition to_npy_intp := to_c_int (- 2 ^ 63) (2 ^ 63).

(** The integer dtypes of NumPy. *)
Inductive dtype : Type :=
| int8 | int16 | int32 | int64
| uint8 | uint16 | uint32 | uint64.

(** The values an element of the dtype can hold: [lo <= x < hi]. *)
Definition dtype_range (d : dtype) : Z * Z :=
  match d with
  | int8 => (- 2 ^ 7, 2 ^ 7)%Z
  | int16 => (- 2 ^ 15, 2 ^ 15)%Z
  | int32 => (- 2 ^ 31, 2 ^ 31)%Z
  | int64 => (- 2 ^ 63, 2 ^ 63)%Z
  | uint8 => (0, 2 ^ 8)%Z
  | uint16 => (0, 2 ^ 16)%Z
  | uint32 => (0, 2 ^ 32)%Z
  | uint64 => (0, 2 ^ 64)%Z
  end.

(** [np.can_cast(d, np.int64, casting='safe')]: every integer dtype but
    uint64 is contained in int64. *)
Definition can_cast_safe_int64 (d : dtype) : bool :=
  match d with uint64 => false | _ => true end.

(** An [ndarray] of an integer dtype: its shape and its elements in C
    order. *)
Record ndarray : Type := {
  nd_dtype : dtype;
  nd_shape : list nat;
  nd_data : list Z
}.

Definition nd_size (a : ndarray) : nat := fold_right Nat.mul 1%nat (nd_shape a).

(** The arrays NumPy can build: as many elements as the shape says, each
    within the dtype. *)
Definition nd_wf (a : ndarray) : Prop :=
  List.length (nd_data a) = nd_size a
  /\ Forall (fun x => fst (dtype_range (nd_dtype a)) <= x
                      < snd (dtype_range (nd_dtype a)))%Z (nd_data a).

(** [a.squeeze()]: the axes of length one are removed; an array of one
    element becomes 0-d. *)
Definition nd_squeeze (a : ndarray) : ndarray :=
  {| nd_dtype := nd_dtype a;
     nd_shape := filter (fun n => negb (n =? 1)%nat) (nd_shape a);
     nd_data := nd_data a |}.

(** [np.PyArray_DIM(a, 0)].  On a 0-d array the macro reads past the
    dimensions; the value 0 stands for it here. *)
Definition PyArray_DIM0 (a : ndarray) : Z := Z.of_nat (hd 0%nat (nd_shape a)).

(** The seed argument of the containers: [None], a Python integer, a flat
    sequence of Python integers, or an [ndarray] of an integer dtype. *)
Inductive seed_t : Type :=
| SeedNone
| SeedInt (z : Z)
| SeedArray (l : list Z)
| SeedNdarray (a : ndarray).

(** [seed.squeeze() if hasattr(seed, 'squeeze') else seed]: of the seeds
    above only the [ndarray] has the method. *)
Definition squeeze (s : seed_t) : seed_t :=
  match s with
  | SeedNdarray a => SeedNdarray (nd_squeeze a)
  | _ => s
  end.

(** [operator.index(seed)]: a Python integer and a 0-d array of an integer
    dtype have an [__index__]; a sequence and an array of one dimension or
    more raise [TypeError]. *)
Definition operator_index (s : seed_t) : exn + Z :=
  match s with
  | SeedInt z => inr z
  | SeedNdarray a =>
      match nd_shape a, nd_data a with
      | [], x :: _ => inr x
      | _, _ => inl TypeError
      end
  | _ => inl TypeError
  end.

Definition fits_int64 (z : Z) : bool := ((- 2 ^ 63 <=? z) && (z <? 2 ^ 63))%Z.

(** [np.asarray(seed).astype(np.int64, casting='safe')].  NumPy gives a
    sequence of Python integers the dtype int64 when every element fits
    it; with an element beyond int64 the dtype is uint64, float64 or
    object, an empty sequence is float64 and [None] is object, and none
    of these casts to int64 under the 'safe' rule: [astype] raises
    [TypeError].  An [ndarray] is taken as it is, and the cast is decided
    by its dtype, whatever its elements. *)
Definition asarray_int64_safe (s : seed_t) : exn + ndarray :=
  match s with
  | SeedNone => inl TypeError
  | SeedInt z =>
      if fits_int64 z
      then inr {| nd_dtype := int64; nd_shape := []; nd_data := [z] |}
      else inl TypeError
  | SeedArray l =>
      match l with
      | [] => inl TypeError
      | _ =>
          if forallb fits_int64 l
          then inr {| nd_dtype := int64; nd_shape := [List.length l];
                      nd_data := l |}
          else inl TypeError
      end
  | SeedNdarray a =>
      if can_cast_safe_int64 (nd_dtype a)
      then inr {| nd_dtype := int64; nd_shape := nd_shape a;
                  nd_data := nd_data a |}
      else inl TypeError
  end.

(** [a.view(np.uint32)] of an array of 64-bit words (little endian). *)
Definition view_uint32 (a : list Z) : list Z :=
  flat_map (fun w => [Z.land w (Z.ones 32); Z.shiftr w 32]) a.

(** [a.view(np.uint64)] of an array of 32-bit words; NumPy refuses an odd
    number of words. *)
Fixpoint view_uint64 (a : list Z) : exn + list Z :=
  match a with
  | [] => inr []
  | lo :: hi :: r =>
      match view_uint64 r with
      | inr t => inr (Z.lor lo (Z.shiftl hi 32) :: t)
      | inl e => inl e
      end
  | [_] => inl ValueError
  end.

(** [a[i]] on an array of integers. *)
Definition array_get (a : list Z) (i : nat) : exn + Z :=
  match nth_error a i with Some x => inr x | None => inl IndexError end.

(** The external collaborators of [randomgen.entropy]. *)
Class Entropy : Type := {
  (** [random_entropy(n)] and [random_entropy(n, 'fallback')]: [n] 32-bit
      words, or [RuntimeError]. *)
  random_entropy : nat -> bool -> exn + list Z;
  (** [seed_by_array(seed, n)]: [n] 64-bit words, or an exception. *)
  seed_by_array : seed_t -> nat -> exn + list Z
}.

(** The first [n] results of a draw function on a state block. *)
Fixpoint draws {St Out} (next : St -> Out * St) (n : nat) (st : St)
  : list Out :=
  match n with
  | O => []
  | S n' => let (x, st') := next st in x :: draws next n' st'
  end.

End Py.

Declare Scope py_scope.
Delimit Scope py_scope with py.
Notation "x <- m ;; k" := (Py.bind m (fun x => k))
  (at level 61, m at next level, right associativity) : py_scope.
Notation "m ;; k" := (Py.bind m (fun _ => k))
  (at level 61, right associativity) : py_scope.

Import Py.
Local Open Scope Z_scope.
Local Open Scope py_scope.

(** ** [mt19937.pyx] *)

Module MT19937.

(** [struct s_mt19937_state { uint32_t key[624]; int pos; }] *)
Record mt19937_state : Type := {
  key : list Z;
  pos : Z
}.

Definition set_key (i : nat) (w : Z) (st : mt19937_state) : mt19937_state :=
  {| key := upd i w (key st); pos := pos st |}.

Definition set_pos (p : Z) (st : mt19937_state) : mt19937_state :=
  {| key := key st; pos := p |}.

(** The C functions declared in the [cdef extern from
    "src/mt19937/mt19937.h"] block; their bodies are not part of the
    Cython sources. *)
Class mt19937_init : Type := {
  (** [void mt19937_seed(mt19937_state *state, uint32_t seed)] *)
  mt19937_seed : mt19937_state -> Z -> mt19937_state;
  (** [void mt19937_init_by_array(mt19937_state *state,
                                  uint32_t *init_key, int key_length)] *)
  mt19937_init_by_array : mt19937_state -> list Z -> Z -> mt19937_state
}.

Class mt19937_jumper : Type := {
  (** [void mt19937_jump(mt19937_state *state)] *)
  mt19937_jump : mt19937_state -> mt19937_state
}.

(** The values a state block can hold: 624 words of 32 bits and an [int]. *)
Definition wf (st : mt19937_state) : Prop :=
  List.length (key st) = 624%nat
  /\ Forall (fun w => 0 <= w < 2 ^ 32) (key st)
  /\ - 2 ^ 31 <= pos st < 2 ^ 31.

(** [self.__class__.__name__] *)
Definition class_name : string := "MT19937".

Definition seed_out_of_range (x : Z) : bool := (x >? 2 ^ 32 - 1) || (x <? 0).

Section Methods.
Context {E : Entropy} {C : mt19937_init} {J : mt19937_jumper}.

(** [def seed(self, seed=None)].  The name [seed] is bound again inside
    the [try]: the handler of [TypeError] works on the squeezed array. *)
Definition seed (seed : seed_t) : M mt19937_state unit :=
  let squeezed :=
    match seed with
    | SeedNone => seed
    | _ => squeeze seed   (* if hasattr(seed, 'squeeze') *)
    end in
  try_except
    (match seed with
     | SeedNone =>
         seed <- try_except (lift (random_entropy 1 false)) RuntimeError
                            (lift (random_entropy 1 true)) ;;
         s0 <- lift (array_get seed 0) ;;
         modify (fun st => mt19937_seed st s0)
     | _ =>
         idx <- lift (operator_index squeezed) ;;
         if seed_out_of_range idx then raise ValueError
         else modify (fun st => mt19937_seed st idx)
     end)
    TypeError
    (obj <- lift (asarray_int64_safe squeezed) ;;
     if existsb seed_out_of_range (nd_data obj) then raise ValueError
     else
       (* [obj.astype(np.uint32, casting='unsafe')] wraps modulo 2^32 *)
       let words := map (fun x => x mod 2 ^ 32) (nd_data obj) in
       modify (fun st => mt19937_init_by_array st words (PyArray_DIM0 obj))).

(** [def jump(self)] *)
Definition jump : M mt19937_state unit :=
  modify mt19937_jump.

(** A call of [jump] with positional arguments [args]: [jump] declares no
    parameter besides [self], so any argument is a [TypeError]. *)
Definition jump_call (args : list pyval) : M mt19937_state unit :=
  match args with
  | [] => jump
  | _ => raise TypeError
  end.

(** The [state] property: the getter. *)
Definition state (st : mt19937_state) : pyval :=
  PyDict [("brng"%string, PyStr class_name);
          ("state"%string,
            PyDict [("key"%string, PyList (map PyInt (key st)));
                    ("pos"%string, PyInt (pos st))])].

(** The conversion of a legacy tuple at the head of the setter. *)
Definition legacy_tuple (value : pyval) : M mt19937_state pyval :=
  match value with
  | PyTuple items =>
      v0 <- lift (getitem value 0) ;;
      if negb (eq_str v0 "MT19937")
         || negb (Nat.eqb (List.length items) 3 || Nat.eqb (List.length items) 5)
      then raise ValueError
      else
        v1 <- lift (getitem value 1) ;;
        v2 <- lift (getitem value 2) ;;
        ret (PyDict [("brng"%string, PyStr "MT19937");
                     ("state"%string,
                       PyDict [("key"%string, v1); ("pos"%string, v2)])])
  | _ => ret value
  end.

(** The part of the setter that follows the tuple conversion. *)
Definition set_state_dict (value : pyval) : M mt19937_state unit :=
  if negb (is_dict value) then raise TypeError
  else
    let brng := dict_get value "brng" (PyStr "") in
    if negb (eq_str brng class_name) then raise ValueError
    else
      s <- lift (getitem_str value "state") ;;
      key <- lift (getitem_str s "key") ;;
      for_range 624 (fun i =>
        k <- lift (getitem key i) ;;
        w <- lift (to_uint32 k) ;;
        modify (set_key i w)) ;;
      s <- lift (getitem_str value "state") ;;
      p <- lift (getitem_str s "pos") ;;
      p <- lift (to_int p) ;;
      modify (set_pos p).

(** The [state] property: the setter. *)
Definition set_state (value : pyval) : M mt19937_state unit :=
  value <- legacy_tuple value ;;
  set_state_dict value.

End Methods.

End MT19937.

(** ** Seed marshalling ([int_to_array]) *)

Module Marshal.

(** Modelled from the spec: [int_to_array(value, name, bits, uint_size)] of
    [randomgen/common.pyx], which is not among the sources.  The spec (3,
    wire form, and 4.6): a non-negative integer [v] of at most [total_bits]
    bits becomes [total_bits / word_bits] little-endian words,
    [word[i] = (v >> (word_bits * i)) & (2^word_bits - 1)], and a value
    that does not fit fails with a range error. *)
Definition int_to_array (v : Z) (name : string) (total_bits word_bits : Z)
  : exn + list Z :=
  if (v <? 0) || (2 ^ total_bits <=? v) then inl ValueError
  else
    inr (map (fun i => Z.land (Z.shiftr v (word_bits * Z.of_nat i))
                              (Z.ones word_bits))
             (seq 0 (Z.to_nat (total_bits / word_bits)))).

(** The inverse direction of the wire form: the integer a little-endian
    word array stands for. *)
Fixpoint array_to_int (word_bits : Z) (a : list Z) : Z :=
  match a with
  | [] => 0
  | w :: r => w + 2 ^ word_bits * array_to_int word_bits r
  end.

(** The four 32-bit words of a 128-bit integer, as a C array. *)
Definition words4 (x : Z) : arr4 :=
  Arr4 (Z.land (Z.shiftr x (32 * 0)) (Z.ones 32))
       (Z.land (Z.shiftr x (32 * 1)) (Z.ones 32))
       (Z.land (Z.shiftr x (32 * 2)) (Z.ones 32))
       (Z.land (Z.shiftr x (32 * 3)) (Z.ones 32)).

End Marshal.

Import Marshal.

(** ** [threefry32.pyx] *)

Module ThreeFry32.

(** [DEF THREEFRY_BUFFER_SIZE=4] *)
Definition THREEFRY_BUFFER_SIZE : nat := 4.

(** [struct s_threefry32_state]: the counter and the key are four 32-bit
    words each. *)
Record threefry32_state : Type := {
  ctr : arr4;
  key : arr4;
  buffer_pos : Z;
  buffer : arr4
}.

Definition set_ctr (i : nat) (w : Z) (st : threefry32_state) :=
  {| ctr := set4 i w (ctr st); key := key st;
     buffer_pos := buffer_pos st; buffer := buffer st |}.

Definition set_key (i : nat) (w : Z) (st : threefry32_state) :=
  {| ctr := ctr st; key := set4 i w (key st);
     buffer_pos := buffer_pos st; buffer := buffer st |}.

Definition set_buffer_pos (p : Z) (st : threefry32_state) :=
  {| ctr := ctr st; key := key st; buffer_pos := p; buffer := buffer st |}.

Definition set_buffer (i : nat) (w : Z) (st : threefry32_state) :=
  {| ctr := ctr st; key := key st;
     buffer_pos := buffer_pos st; buffer := set4 i w (buffer st) |}.

(** The C function of [src/threefry32/threefry32.h] the methods call. *)
Class threefry32_h : Type := {
  (** [void threefry32_advance(uint32_t *step, threefry32_state *state)] *)
  threefry32_advance : list Z -> threefry32_state -> threefry32_state
}.

(** Modelled from the spec: the body of [threefry32_advance], which is not
    among the sources.  The spec (4.2): advance "adds delta to the counter
    as a 128-bit little-endian value"; the sum wraps at 2^128 (scenario 4:
    the counter wraps to all-zero). *)
Definition threefry32_advance_spec (step : list Z) (st : threefry32_state)
  : threefry32_state :=
  let sum :=
    (array_to_int 32 (list4 (ctr st)) + array_to_int 32 step) mod 2 ^ 128 in
  {| ctr := words4 sum;
     key := key st; buffer_pos := buffer_pos st; buffer := buffer st |}.

Definition spec_threefry32 : threefry32_h :=
  {| threefry32_advance := threefry32_advance_spec |}.

(** The values a state block can hold: 32-bit words and an [int]. *)
Definition wf (st : threefry32_state) : Prop :=
  all4 (fun w => 0 <= w < 2 ^ 32) (ctr st)
  /\ all4 (fun w => 0 <= w < 2 ^ 32) (key st)
  /\ all4 (fun w => 0 <= w < 2 ^ 32) (buffer st)
  /\ - 2 ^ 31 <= buffer_pos st < 2 ^ 31.

(** The buffer holds nothing to serve: the next draw computes a block. *)
Definition cache_empty (st : threefry32_state) : Prop :=
  buffer_pos st = 4 /\ buffer st = Arr4 0 0 0 0.

Definition class_name : string := "ThreeFry32".

Definition is_none (s : seed_t) : bool :=
  match s with SeedNone => true | _ => false end.

Section Methods.
Context {E : Entropy} {C : threefry32_h}.

(** [cdef _reset_state_variables(self)] *)
Definition _reset_state_variables : M threefry32_state unit :=
  modify (set_buffer_pos (Z.of_nat THREEFRY_BUFFER_SIZE)) ;;
  for_range THREEFRY_BUFFER_SIZE (fun i => modify (set_buffer i 0)).

(** [def seed(self, seed=None, counter=None, key=None)]; [counter] and [key]
    are taken in their integer form. *)
Definition seed (seed : seed_t) (counter key : option Z)
  : M threefry32_state unit :=
  if negb (is_none seed) && (match key with Some _ => true | None => false end)
  then raise ValueError
  else
    (match key with
     | None =>
         state <- (match seed with
                   | SeedNone =>
                       try_except (lift (random_entropy 4 false)) RuntimeError
                                  (lift (random_entropy 4 true))
                   | _ =>
                       state <- lift (seed_by_array seed 2) ;;
                       ret (view_uint32 state)
                   end) ;;
         for_range 4 (fun i =>
           w <- lift (array_get state i) ;;
           w <- lift (to_uint32 (PyInt w)) ;;
           modify (set_key i w))
     | Some key =>
         key <- lift (int_to_array key "key" 128 32) ;;
         for_range 4 (fun i =>
           w <- lift (array_get key i) ;;
           w <- lift (to_uint32 (PyInt w)) ;;
           modify (set_key i w))
     end) ;;
    let counter := match counter with None => 0 | Some c => c end in
    counter <- lift (int_to_array counter "counter" 128 32) ;;
    for_range 4 (fun i =>
      w <- lift (array_get counter i) ;;
      w <- lift (to_uint32 (PyInt w)) ;;
      modify (set_ctr i w)) ;;
    _reset_state_variables.

(** The [state] property: the getter. *)
Definition state (st : threefry32_state) : pyval :=
  PyDict [("brng"%string, PyStr class_name);
          ("state"%string,
            PyDict [("counter"%string, PyList (map PyInt (list4 (ctr st))));
                    ("key"%string, PyList (map PyInt (list4 (key st))))]);
          ("buffer"%string, PyList (map PyInt (list4 (buffer st))));
          ("buffer_pos"%string, PyInt (buffer_pos st))].

(** The [state] property: the setter. *)
Definition set_state (value : pyval) : M threefry32_state unit :=
  if negb (is_dict value) then raise TypeError
  else
    let brng := dict_get value "brng" (PyStr "") in
    if negb (eq_str brng class_name) then raise ValueError
    else
      for_range 4 (fun i =>
        s <- lift (getitem_str value "state") ;;
        c <- lift (getitem_str s "counter") ;;
        c <- lift (getitem c i) ;;
        c <- lift (to_uint32 c) ;;
        modify (set_ctr i c) ;;
        s <- lift (getitem_str value "state") ;;
        k <- lift (getitem_str s "key") ;;
        k <- lift (getitem k i) ;;
        k <- lift (to_uint32 k) ;;
        modify (set_key i k)) ;;
      for_range THREEFRY_BUFFER_SIZE (fun i =>
        b <- lift (getitem_str value "buffer") ;;
        b <- lift (getitem b i) ;;
        b <- lift (to_uint32 b) ;;
        modify (set_buffer i b)) ;;
      p <- lift (getitem_str value "buffer_pos") ;;
      p <- lift (to_int p) ;;
      modify (set_buffer_pos p).

(** [def advance(self, delta)] *)
Definition advance (delta : Z) : M threefry32_state unit :=
  delta_a <- lift (int_to_array delta "step" 128 32) ;;
  modify (threefry32_advance delta_a) ;;
  _reset_state_variables.

(** [def jump(self, np.npy_intp iter=1)]; the product is a Python integer of
    arbitrary precision. *)
Definition jump (iter : Z) : M threefry32_state unit :=
  advance (iter * 2 ^ 64).

(** A call of [jump] with positional arguments [args]: the optional
    argument is converted to [npy_intp]. *)
Definition jump_call (args : list pyval) : M threefry32_state unit :=
  match args with
  | [] => jump 1
  | [v] => iter <- lift (to_npy_intp v) ;; jump iter
  | _ => raise TypeError
  end.

End Methods.

End ThreeFry32.

(** ** [xoshiro256starstar.pyx] *)

Module Xoshiro256StarStar.

(** [struct s_xoshiro256starstar_state { uint64_t s[4]; int has_uint32;
    uint32_t uinteger; }] *)
Record xoshiro256starstar_state : Type := {
  s : arr4;
  has_uint32 : Z;
  uinteger : Z
}.

Definition set_s (i : nat) (w : Z) (st : xoshiro256starstar_state) :=
  {| s := set4 i w (s st); has_uint32 := has_uint32 st;
     uinteger := uinteger st |}.

Definition set_has_uint32 (v : Z) (st : xoshiro256starstar_state) :=
  {| s := s st; has_uint32 := v; uinteger := uinteger st |}.

Definition set_uinteger (v : Z) (st : xoshiro256starstar_state) :=
  {| s := s st; has_uint32 := has_uint32 st; uinteger := v |}.

(** The C function of [src/xoshiro256starstar/xoshiro256starstar.h] behind
    [jump]. *)
Class xoshiro256starstar_h : Type := {
  (** [void xoshiro256starstar_jump(xoshiro256starstar_state *state)] *)
  xoshiro256starstar_jump :
    xoshiro256starstar_state -> xoshiro256starstar_state
}.

(** The values a state block can hold: 64-bit words, an [int] and a
    32-bit word. *)
Definition wf (st : xoshiro256starstar_state) : Prop :=
  all4 (fun w => 0 <= w < 2 ^ 64) (s st)
  /\ - 2 ^ 31 <= has_uint32 st < 2 ^ 31
  /\ 0 <= uinteger st < 2 ^ 32.

(** No half of a 64-bit word is kept for the next 32-bit draw. *)
Definition cache_empty (st : xoshiro256starstar_state) : Prop :=
  has_uint32 st = 0 /\ uinteger st = 0.

(** What the Cython container relies on when it calls the C jump: the
    function rewrites the four words [s] from the four words [s], and
    touches neither [has_uint32] nor [uinteger] (the container clears both
    itself, after the loop). *)
Definition jump_acts_on_s (C : xoshiro256starstar_h) : Prop :=
  exists f : arr4 -> arr4,
    forall st,
      xoshiro256starstar_jump st
      = {| s := f (s st); has_uint32 := has_uint32 st;
           uinteger := uinteger st |}.

Definition class_name : string := "Xoshiro256StarStar".

Section Methods.
Context {E : Entropy} {C : xoshiro256starstar_h}.

(** [cdef _reset_state_variables(self)] *)
Definition _reset_state_variables : M xoshiro256starstar_state unit :=
  modify (set_has_uint32 0) ;;
  modify (set_uinteger 0).

(** [def seed(self, seed=None)] *)
Definition seed (seed : seed_t) : M xoshiro256starstar_state unit :=
  state <- (match seed with
            | SeedNone =>
                state <- try_except (lift (random_entropy 8 false)) RuntimeError
                                    (lift (random_entropy 8 true)) ;;
                lift (view_uint64 state)
            | _ => lift (seed_by_array seed 4)
            end) ;;
  w <- lift (array_get state 0) ;; w <- lift (to_uint64 (PyInt w)) ;;
  modify (set_s 0 w) ;;
  w <- lift (array_get state 1) ;; w <- lift (to_uint64 (PyInt w)) ;;
  modify (set_s 1 w) ;;
  w <- lift (array_get state 2) ;; w <- lift (to_uint64 (PyInt w)) ;;
  modify (set_s 2 w) ;;
  w <- lift (array_get state 3) ;; w <- lift (to_uint64 (PyInt w)) ;;
  modify (set_s 3 w) ;;
  _reset_state_variables.

(** [def jump(self, np.npy_intp iter=1)]: [range(iter)] is empty for
    [iter <= 0]. *)
Definition jump (iter : Z) : M xoshiro256starstar_state unit :=
  for_range (Z.to_nat iter) (fun _ => modify xoshiro256starstar_jump) ;;
  _reset_state_variables.

Definition jump_call (args : list pyval) : M xoshiro256starstar_state unit :=
  match args with
  | [] => jump 1
  | [v] => iter <- lift (to_npy_intp v) ;; jump iter
  | _ => raise TypeError
  end.

(** The [state] property: the getter. *)
Definition state (st : xoshiro256starstar_state) : pyval :=
  PyDict [("brng"%string, PyStr class_name);
          ("s"%string, PyList (map PyInt (list4 (s st))));
          ("has_uint32"%string, PyInt (has_uint32 st));
          ("uinteger"%string, PyInt (uinteger st))].

(** The [state] property: the setter. *)
Definition set_state (value : pyval) : M xoshiro256starstar_state unit :=
  if negb (is_dict value) then raise TypeError
  else
    let brng := dict_get value "brng" (PyStr "") in
    if negb (eq_str brng class_name) then raise ValueError
    else
      (* the four assignments [s[i] = <uint64_t>value['s'][i]], in order *)
      for_each [0; 1; 2; 3]%nat (fun i =>
        a <- lift (getitem_str value "s") ;;
        w <- lift (getitem a i) ;;
        w <- lift (to_uint64 w) ;;
        modify (set_s i w)) ;;
      h <- lift (getitem_str value "has_uint32") ;;
      h <- lift (to_int h) ;;
      modify (set_has_uint32 h) ;;
      u <- lift (getitem_str value "uinteger") ;;
      u <- lift (to_uint32 u) ;;
      modify (set_uinteger u).

End Methods.

End Xoshiro256StarStar.

(** ** [src/legacy/distributions-boxmuller.c] *)

Module Legacy.

Local Open Scope float_scope.
#[local] Set Warnings "-inexact-float".

(** [brng_t]: the opaque state block and the [next_double] slot of the
    handle; [random_poisson] is the only function of [distributions.c]
    the legacy samplers call on the bare handle. *)
Class brng_t : Type := {
  brng_state : Type;
  (** the slot [next_double], of type [double f(void *st)] *)
  next_double : brng_state -> float * brng_state;
  (** [long random_poisson(brng_t *brng_state, double lam)] *)
  random_poisson : brng_state -> float -> Z * brng_state
}.

(** The functions of the C mathematical library that are not IEEE 754
    basic operations. *)
Class libm : Type := {
  log : float -> float;
  pow : float -> float -> float
}.

(** [(double) n] for a [long n]: the nearest binary64 value. *)
Definition long_to_double (n : Z) : float :=
  SF2Prim (binary_normalize prec emax n 0 false).

(** The result of an operation on [long] whose mathematical value is [z],
    for a [long] of 64 bits (LP64).  The C standard leaves an overflow
    undefined; the compiled code keeps the low 64 bits in two's
    complement, which is what this computes. *)
Definition wrap_long (z : Z) : Z := ((z + 2 ^ 63) mod 2 ^ 64 - 2 ^ 63)%Z.

Section Samplers.
Context {B : brng_t} {L : libm}.

(** [aug_brng_t]: the handle plus the cached second deviate. *)
Record aug_brng_t : Type := {
  basicrng : brng_state;
  has_gauss : bool;
  gauss : float
}.

Definition set_basicrng (b : brng_state) (aug : aug_brng_t) : aug_brng_t :=
  {| basicrng := b; has_gauss := has_gauss aug; gauss := gauss aug |}.

(** A sampler with a rejection loop: [None] when the fuel runs out. *)
Definition sampler (A : Type) : Type := option (A * aug_brng_t).

(** [static NPY_INLINE double legacy_double(aug_brng_t *aug_state)] *)
Definition legacy_double (aug : aug_brng_t) : float * aug_brng_t :=
  let (u, b) := next_double (basicrng aug) in (u, set_basicrng b aug).

(** The [do ... while (r2 >= 1.0 || r2 == 0.0)] loop of [legacy_gauss]; it
    yields the accepted [x1], [x2] and [r2]. *)
Fixpoint gauss_polar (fuel : nat) (aug : aug_brng_t)
  : sampler (float * float * float) :=
  match fuel with
  | O => None
  | S fuel' =>
      let (u1, a1) := legacy_double aug in
      let x1 := 2.0 * u1 - 1.0 in
      let (u2, a2) := legacy_double a1 in
      let x2 := 2.0 * u2 - 1.0 in
      let r2 := x1 * x1 + x2 * x2 in
      if (1.0 <=? r2) || (r2 =? 0.0) then gauss_polar fuel' a2
      else Some ((x1, x2, r2), a2)
  end.

(** [double legacy_gauss(aug_brng_t *aug_state)] *)
Definition legacy_gauss (fuel : nat) (aug : aug_brng_t) : sampler float :=
  if has_gauss aug then
    let temp := gauss aug in
    Some (temp, {| basicrng := basicrng aug; has_gauss := false; gauss := 0.0 |})
  else
    match gauss_polar fuel aug with
    | None => None
    | Some ((x1, x2, r2), a) =>
        let f := sqrt (-2.0 * log r2 / r2) in
        Some (f * x2,
              {| basicrng := basicrng a; has_gauss := true; gauss := f * x1 |})
    end.

(** [double legacy_standard_exponential(aug_brng_t *aug_state)] *)
Definition legacy_standard_exponential (aug : aug_brng_t)
  : float * aug_brng_t :=
  let (u, a) := legacy_double aug in (- log (1.0 - u), a).

(** The [for (;;)] loop of the [shape < 1.0] branch. *)
Fixpoint gamma_small (n : nat) (aug : aug_brng_t) (shape : float)
  : sampler float :=
  match n with
  | O => None
  | S n' =>
      let (U, a1) := legacy_double aug in
      let (V, a2) := legacy_standard_exponential a1 in
      if U <=? 1.0 - shape then
        let X := pow U (1.0 / shape) in
        if X <=? V then Some (X, a2) else gamma_small n' a2 shape
      else
        let Y := - log ((1.0 - U) / shape) in
        let X := pow (1.0 - shape + shape * Y) (1.0 / shape) in
        if X <=? V + Y then Some (X, a2) else gamma_small n' a2 shape
  end.

(** The inner [do { X = legacy_gauss(..); V = 1.0 + c * X; } while
    (V <= 0.0)] of the last branch; it yields [X] and [V]. *)
Fixpoint gamma_gauss (fuel n : nat) (aug : aug_brng_t) (c : float)
  : sampler (float * float) :=
  match n with
  | O => None
  | S n' =>
      match legacy_gauss fuel aug with
      | None => None
      | Some (X, a1) =>
          let V := 1.0 + c * X in
          if V <=? 0.0 then gamma_gauss fuel n' a1 c else Some ((X, V), a1)
      end
  end.

(** The outer [for (;;)] loop of the last branch. *)
Fixpoint gamma_large (fuel n : nat) (aug : aug_brng_t) (b c : float)
  : sampler float :=
  match n with
  | O => None
  | S n' =>
      match gamma_gauss fuel fuel aug c with
      | None => None
      | Some ((X, V), a1) =>
          let V := V * V * V in
          let (U, a2) := legacy_double a1 in
          if U <? 1.0 - 0.0331 * (X * X) * (X * X) then Some (b * V, a2)
          else if log U <? 0.5 * X * X + b * (1.0 - V + log V)
               then Some (b * V, a2)
               else gamma_large fuel n' a2 b c
      end
  end.

(** [double legacy_standard_gamma(aug_brng_t *aug_state, double shape)] *)
Definition legacy_standard_gamma (fuel : nat) (aug : aug_brng_t)
  (shape : float) : sampler float :=
  if shape =? 1.0 then Some (legacy_standard_exponential aug)
  else if shape =? 0.0 then Some (0.0, aug)
  else if shape <? 1.0 then gamma_small fuel aug shape
  else
    let b := shape - 1.0 / 3.0 in
    let c := 1.0 / sqrt (9.0 * b) in
    gamma_large fuel fuel aug b c.

(** [double legacy_chisquare(aug_brng_t *aug_state, double df)] *)
Definition legacy_chisquare (fuel : nat) (aug : aug_brng_t) (df : float)
  : sampler float :=
  match legacy_standard_gamma fuel aug (df / 2.0) with
  | None => None
  | Some (g, a) => Some (2.0 * g, a)
  end.

(** [double legacy_noncentral_chisquare(aug_brng_t *aug_state, double df,
    double nonc)]; [2 * i] is computed on [long] before it is converted
    and added to [df]. *)
Definition legacy_noncentral_chisquare (fuel : nat) (aug : aug_brng_t)
  (df nonc : float) : sampler float :=
  if nonc =? 0.0 then legacy_chisquare fuel aug df
  else if 1.0 <? df then
    match legacy_chisquare fuel aug (df - 1.0) with
    | None => None
    | Some (Chi2, a1) =>
        match legacy_gauss fuel a1 with
        | None => None
        | Some (g, a2) =>
            let n := g + sqrt nonc in
            Some (Chi2 + n * n, a2)
        end
    end
  else
    let (i, b) := random_poisson (basicrng aug) (nonc / 2.0) in
    match legacy_chisquare fuel (set_basicrng b aug)
                           (df + long_to_double (wrap_long (2 * i))) with
    | None => None
    | Some (out, a2) =>
        (* Insert nan guard here to avoid changing the stream *)
        if is_nan nonc then Some (nan, a2) else Some (out, a2)
    end.

(** *** The uniform stream behind a handle *)

(** The state block after [n] calls of [next_double]. *)
Fixpoint after_draws (n : nat) (b : brng_state) : brng_state :=
  match n with
  | O => b
  | S n' => after_draws n' (snd (next_double b))
  end.

(** The value of the [n]-th call of [next_double] from now (counting from
    zero). *)
Definition draw (n : nat) (b : brng_state) : float :=
  fst (next_double (after_draws n b)).

(** *** The loops, one iteration at a time *)

(** The [i]-th candidate pair of the polar method on the stream of [b]:
    [x1] comes from draw [2 i], [x2] from draw [2 i + 1]. *)
Definition polar_x1 (b : brng_state) (i : nat) : float :=
  2.0 * draw (2 * i) b - 1.0.

Definition polar_x2 (b : brng_state) (i : nat) : float :=
  2.0 * draw (2 * i + 1) b - 1.0.

Definition polar_r2 (b : brng_state) (i : nat) : float :=
  polar_x1 b i * polar_x1 b i + polar_x2 b i * polar_x2 b i.

(** The loop condition [r2 >= 1.0 || r2 == 0.0]. *)
Definition polar_rejected (r2 : float) : bool := (1.0 <=? r2) || (r2 =? 0.0).

(** The uniform and the exponential of the [i]-th trial of the [shape < 1]
    loop: draws [2 i] and [2 i + 1] of the stream. *)
Definition small_U (b : brng_state) (i : nat) : float := draw (2 * i) b.

Definition small_V (b : brng_state) (i : nat) : float :=
  - log (1.0 - draw (2 * i + 1) b).

(** The two acceptance tests of a [shape < 1] trial: the value returned,
    or [None] when the trial is rejected. *)
Definition gamma_small_trial (shape U V : float) : option float :=
  if U <=? 1.0 - shape then
    let X := pow U (1.0 / shape) in
    if X <=? V then Some X else None
  else
    let Y := - log ((1.0 - U) / shape) in
    let X := pow (1.0 - shape + shape * Y) (1.0 / shape) in
    if X <=? V + Y then Some X else None.

(** One outer trial of the last branch: the gauss loop, then one uniform,
    then the squeeze and the logarithm test; [Some x] when it returns [x],
    [None] when it is rejected. *)
Definition gamma_large_trial (fuel : nat) (aug : aug_brng_t) (b c : float)
  : sampler (option float) :=
  match gamma_gauss fuel fuel aug c with
  | None => None
  | Some ((X, V), a1) =>
      let V := V * V * V in
      let (U, a2) := legacy_double a1 in
      if U <? 1.0 - 0.0331 * (X * X) * (X * X) then Some (Some (b * V), a2)
      else if log U <? 0.5 * X * X + b * (1.0 - V + log V)
           then Some (Some (b * V), a2)
           else Some (None, a2)
  end.

(** The state at the start of outer trial [n], when the [n] trials before
    it were all rejected. *)
Fixpoint gamma_large_rejected (fuel n : nat) (aug : aug_brng_t) (b c : float)
  : option aug_brng_t :=
  match n with
  | O => Some aug
  | S n' =>
      match gamma_large_trial fuel aug b c with
      | Some (None, a2) => gamma_large_rejected fuel n' a2 b c
      | _ => None
      end
  end.

(** *** The last branch of [legacy_standard_gamma] on the gauss values *)

(** The state after [k] calls of [legacy_gauss]. *)
Fixpoint after_gauss (fuel k : nat) (aug : aug_brng_t) : option aug_brng_t :=
  match k with
  | O => Some aug
  | S k' =>
      match legacy_gauss fuel aug with
      | None => None
      | Some (_, a1) => after_gauss fuel k' a1
      end
  end.

(** The [k]-th call of [legacy_gauss] from now (counting from zero): its
    value and the state it leaves. *)
Definition gauss_call (fuel k : nat) (aug : aug_brng_t) : sampler float :=
  match after_gauss fuel k aug with
  | None => None
  | Some a => legacy_gauss fuel a
  end.

(** The loop condition [V <= 0.0], with [V = 1.0 + c * X], on the gauss
    value [X]. *)
Definition gauss_retried (c X : float) : bool := 1.0 + c * X <=? 0.0.

(** The first [k] calls of [legacy_gauss] from [aug] all give a value on
    which the inner loop goes round again. *)
Definition gauss_all_retried (fuel : nat) (c : float) (k : nat)
  (aug : aug_brng_t) : bool :=
  forallb (fun i => match gauss_call fuel i aug with
                    | Some (X, _) => gauss_retried c X
                    | None => false
                    end)
          (seq 0 k).

(** The squeeze test and the logarithm test of an outer trial, on the gauss
    value [X], the cube [V] and the uniform [U]. *)
Definition gamma_large_accepts (b X V U : float) : bool :=
  (U <? 1.0 - 0.0331 * (X * X) * (X * X))
  || (log U <? 0.5 * X * X + b * (1.0 - V + log V)).

(** An outer trial whose inner loop goes round [k] times before it keeps a
    gauss value [X]: the calls [0 .. k - 1] of [legacy_gauss] are retried,
    call [k] is not, [V] is the cube of [1.0 + c * X] and [U] the uniform
    drawn after the gauss calls.  [Some (b * V)] when the trial returns,
    [None] when it is rejected; the state is the one the gauss calls leave,
    cache included, advanced by that one uniform. *)
Definition gamma_large_trial_at (fuel k : nat) (aug : aug_brng_t)
  (b c : float) : sampler (option float) :=
  if gauss_all_retried fuel c k aug then
    match gauss_call fuel k aug with
    | None => None
    | Some (X, a1) =>
        if gauss_retried c X then None
        else
          let V := 1.0 + c * X in
          let V := V * V * V in
          let U := draw 0 (basicrng a1) in
          let a2 := set_basicrng (after_draws 1 (basicrng a1)) a1 in
          Some (if gamma_large_accepts b X V U then Some (b * V) else None,
                a2)
    end
  else None.

(** The state at the start of the outer trial that follows rejected outer
    trials whose inner loops went round [ks] times. *)
Fixpoint gamma_large_rejected_at (fuel : nat) (ks : list nat)
  (aug : aug_brng_t) (b c : float) : option aug_brng_t :=
  match ks with
  | [] => Some aug
  | k :: r =>
      match gamma_large_trial_at fuel k aug b c with
      | Some (None, a2) => gamma_large_rejected_at fuel r a2 b c
      | _ => None
      end
  end.

End Samplers.

End Legacy.

(** ** Reference collaborators

    Concrete versions of the collaborators the containers take as
    parameters.  The theorems of Part II hold for every collaborator; the
    ones below serve to run the methods on concrete inputs. *)

Module Reference.

Definition u32 (x : Z) : Z := x mod 2 ^ 32.
Definition u64 (x : Z) : Z := x mod 2 ^ 64.

(** Modelled from the spec: SplitMix64 (4.5), "z += 0x9E3779B97F4A7C15; mix
    with two xorshift-multiplies; final xorshift-right", with the
    multipliers of the published generator.  It returns the output and the
    advanced state. *)
Definition splitmix64_next (state : Z) : Z * Z :=
  let state := u64 (state + 0x9E3779B97F4A7C15) in
  let z := state in
  let z := u64 (Z.lxor z (Z.shiftr z 30) * 0xBF58476D1CE4E5B9) in
  let z := u64 (Z.lxor z (Z.shiftr z 27) * 0x94D049BB133111EB) in
  (Z.lxor z (Z.shiftr z 31), state).

(** The expansion loop of [seed_by_array], as the class docstrings of the
    containers describe it: the SplitMix64 state starts at 0 and is XORed
    with the i-th seed word, while there is one, before it produces the
    i-th word of the initial state. *)
Fixpoint expand (n : nat) (state : Z) (seed : list Z) : list Z :=
  match n with
  | O => []
  | S n' =>
      let state := match seed with w :: _ => Z.lxor state w | [] => state end in
      let (out, state) := splitmix64_next state in
      out :: expand n' state (tl seed)
  end.

Definition out_of_uint64 (x : Z) : bool := (x >? 2 ^ 64 - 1) || (x <? 0).

Definition ref_seed_by_array (seed : seed_t) (n : nat) : exn + list Z :=
  match seed with
  | SeedNone => inl TypeError
  | SeedInt z =>
      if out_of_uint64 z then inl ValueError else inr (expand n 0 [z])
  | SeedArray l =>
      if existsb out_of_uint64 l then inl ValueError else inr (expand n 0 l)
  | SeedNdarray a =>
      if existsb out_of_uint64 (nd_data a) then inl ValueError
      else inr (expand n 0 (nd_data a))
  end.

(** An entropy source that replays the 32-bit words of a tape and has no
    fallback. *)
Definition tape_entropy (tape : list Z) : Entropy :=
  {| random_entropy := fun n fallback =>
       if fallback then inl RuntimeError
       else if (n <=? List.length tape)%nat then inr (firstn n tape)
            else inl RuntimeError;
     seed_by_array := ref_seed_by_array |}.

(** An operating system without entropy: every request fails. *)
Definition no_entropy : Entropy := tape_entropy [].

(** *** MT19937 initialisation *)

(** Modelled from the spec: [mt19937_seed] (4.2), Knuth's initialisation
    [s[i] = 1812433253 * (s[i-1] ^ (s[i-1] >> 30)) + i (mod 2^32)], with
    the position left at 624 so that the next draw twists. *)
Fixpoint knuth_fill (n : nat) (i : Z) (prev : Z) : list Z :=
  match n with
  | O => []
  | S n' =>
      let w := u32 (1812433253 * Z.lxor prev (Z.shiftr prev 30) + i) in
      w :: knuth_fill n' (i + 1) w
  end.

Definition init_genrand (seed : Z) : MT19937.mt19937_state :=
  let s0 := u32 seed in
  {| MT19937.key := s0 :: knuth_fill 623 1 s0; MT19937.pos := 624 |}.

(** Modelled from the spec: [mt19937_init_by_array] (4.2), "standard
    init_by_array procedure" of the reference MT19937: two mixing passes
    over the table filled from 19650218. *)
Fixpoint init_pass1 (k : nat) (i j : nat) (init_key : list Z) (mt : list Z)
  : nat * list Z :=
  match k with
  | O => (i, mt)
  | S k' =>
      let prev := nth (i - 1) mt 0 in
      let w := u32 (Z.lxor (nth i mt 0)
                           (Z.lxor prev (Z.shiftr prev 30) * 1664525)
                    + nth j init_key 0 + Z.of_nat j) in
      let mt := upd i w mt in
      let i := S i in
      let j := S j in
      let mt := if (624 <=? i)%nat then upd 0 (nth 623 mt 0) mt else mt in
      let i := if (624 <=? i)%nat then 1%nat else i in
      let j := if (List.length init_key <=? j)%nat then 0%nat else j in
      init_pass1 k' i j init_key mt
  end.

Fixpoint init_pass2 (k : nat) (i : nat) (mt : list Z) : list Z :=
  match k with
  | O => mt
  | S k' =>
      let prev := nth (i - 1) mt 0 in
      let w := u32 (Z.lxor (nth i mt 0)
                           (Z.lxor prev (Z.shiftr prev 30) * 1566083941)
                    - Z.of_nat i) in
      let mt := upd i w mt in
      let i := S i in
      let mt := if (624 <=? i)%nat then upd 0 (nth 623 mt 0) mt else mt in
      let i := if (624 <=? i)%nat then 1%nat else i in
      init_pass2 k' i mt
  end.

Definition init_by_array (init_key : list Z) : MT19937.mt19937_state :=
  let mt := MT19937.key (init_genrand 19650218) in
  let k := Nat.max 624 (List.length init_key) in
  let (i, mt) := init_pass1 k 1 0 init_key mt in
  let mt := init_pass2 623 i mt in
  {| MT19937.key := upd 0 0x80000000 mt; MT19937.pos := 624 |}.

Definition ref_mt19937_init : MT19937.mt19937_init :=
  {| MT19937.mt19937_seed := fun _ seed => init_genrand seed;
     MT19937.mt19937_init_by_array := fun _ init_key key_length =>
       init_by_array (firstn (Z.to_nat key_length) init_key) |}.

(** *** xoshiro256** *)

Definition rotl (x k : Z) : Z :=
  Z.lor (u64 (Z.shiftl x k)) (Z.shiftr x (64 - k)).

(** The state transition of the published xoshiro256** on the four words
    [s0 .. s3]. *)
Definition xoshiro_next (st : Z * Z * Z * Z) : Z * Z * Z * Z :=
  let '(s0, s1, s2, s3) := st in
  let t := u64 (Z.shiftl s1 17) in
  let s2 := Z.lxor s2 s0 in
  let s3 := Z.lxor s3 s1 in
  let s1 := Z.lxor s1 s2 in
  let s0 := Z.lxor s0 s3 in
  let s2 := Z.lxor s2 t in
  let s3 := rotl s3 45 in
  (s0, s1, s2, s3).

(** Modelled from the spec: [xoshiro256starstar_jump] (4.2), "jump()
    advances by 2^128 via the published polynomial": for each bit of the
    four jump words, from the lowest, the current state is XORed into the
    accumulator when the bit is set, and the generator steps once. *)
Definition JUMP : list Z :=
  [0x180ec6d33cfd0aba; 0xd5a61266f0c9392c;
   0xa9582618e03fc9aa; 0x39abdc4529b1661c].

Fixpoint jump_bits (n : nat) (b : Z) (word : Z)
  (acc st : Z * Z * Z * Z) : (Z * Z * Z * Z) * (Z * Z * Z * Z) :=
  match n with
  | O => (acc, st)
  | S n' =>
      let acc :=
        if Z.testbit word b then
          let '(a0, a1, a2, a3) := acc in
          let '(s0, s1, s2, s3) := st in
          (Z.lxor a0 s0, Z.lxor a1 s1, Z.lxor a2 s2, Z.lxor a3 s3)
        else acc in
      jump_bits n' (b + 1) word acc (xoshiro_next st)
  end.

Definition jump_words (st : Z * Z * Z * Z) : Z * Z * Z * Z :=
  fst (fold_left (fun '(acc, st) word => jump_bits 64 0 word acc st)
                 JUMP ((0, 0, 0, 0), st)).

Definition ref_xoshiro_jump (st : Xoshiro256StarStar.xoshiro256starstar_state)
  : Xoshiro256StarStar.xoshiro256starstar_state :=
  let a := Xoshiro256StarStar.s st in
  let '(s0, s1, s2, s3) := jump_words (w0 a, w1 a, w2 a, w3 a) in
  {| Xoshiro256StarStar.s := Arr4 s0 s1 s2 s3;
     Xoshiro256StarStar.has_uint32 := Xoshiro256StarStar.has_uint32 st;
     Xoshiro256StarStar.uinteger := Xoshiro256StarStar.uinteger st |}.

Definition ref_xoshiro : Xoshiro256StarStar.xoshiro256starstar_h :=
  {| Xoshiro256StarStar.xoshiro256starstar_jump := ref_xoshiro_jump |}.

End Reference.

(** ** Sample handles *)

(** An MT19937 handle: the table of [seed = 5489]. *)
Definition mt_5489 : MT19937.mt19937_state := Reference.init_genrand 5489.

(** A handle in the middle of a block: two of the four buffered words are
    still to be served. *)
Definition threefry_mid_block : ThreeFry32.threefry32_state :=
  {| ThreeFry32.ctr := Arr4 9 0 0 0;
     ThreeFry32.key := Arr4 1 2 3 4;
     ThreeFry32.buffer_pos := 2;
     ThreeFry32.buffer := Arr4 11 12 13 14 |}.

(** A ThreeFry32 handle as [seed] leaves it. *)
Definition threefry_fresh : ThreeFry32.threefry32_state :=
  {| ThreeFry32.ctr := Arr4 0 0 0 0;
     ThreeFry32.key := Arr4 0 0 0 0;
     ThreeFry32.buffer_pos := 4;
     ThreeFry32.buffer := Arr4 0 0 0 0 |}.

(** A xoshiro256** handle that has served the low half of a 64-bit word
    and keeps the high half, 0xABCD, for the next 32-bit draw. *)
Definition xoshiro_half_served : Xoshiro256StarStar.xoshiro256starstar_state :=
  {| Xoshiro256StarStar.s := Arr4 1 2 3 4;
     Xoshiro256StarStar.has_uint32 := 1;
     Xoshiro256StarStar.uinteger := 0xABCD |}.

Definition xoshiro_fresh : Xoshiro256StarStar.xoshiro256starstar_state :=
  {| Xoshiro256StarStar.s := Arr4 5 6 7 8;
     Xoshiro256StarStar.has_uint32 := 0;
     Xoshiro256StarStar.uinteger := 0 |}.

(** The test for a 32-bit word. *)
Definition is_u32 (w : Z) : bool := (0 <=? w) && (w <? 2 ^ 32).

(** ** A handle and a mathematical library to run the samplers on *)

Module LegacyReference.

Local Open Scope float_scope.

(** A handle that replays a tape of uniforms, and yields 0.25 once the
    tape is exhausted.  Its [random_poisson] draws one uniform and returns
    0: what the multiplication method does when no product exceeds
    [exp(-lam)]. *)
Definition tape_brng : Legacy.brng_t :=
  {| Legacy.brng_state := list float;
     Legacy.next_double := fun tape =>
       match tape with
       | u :: rest => (u, rest)
       | [] => (0.25, [])
       end;
     Legacy.random_poisson := fun tape _ => (0%Z, tl tape) |}.

(** An augmented state on a tape. *)
Definition on_tape (tape : list float) (has_gauss : bool) (gauss : float)
  : Legacy.aug_brng_t (B := tape_brng) :=
  Legacy.Build_aug_brng_t (B := tape_brng) tape has_gauss gauss.

(** Truncated series standing for [log] and [pow]; they are not the C
    library, only total functions of the same types. *)
Fixpoint atanh_series (n : nat) (z2 term k acc : float) : float :=
  match n with
  | O => acc
  | S n' => atanh_series n' z2 (term * z2) (k + 2.0) (acc + term / k)
  end.

Definition series_log (x : float) : float :=
  let z := (x - 1.0) / (x + 1.0) in
  2.0 * atanh_series 30 (z * z) z 1.0 0.0.

Fixpoint exp_series (n : nat) (x term k acc : float) : float :=
  match n with
  | O => acc
  | S n' => exp_series n' x (term * x / k) (k + 1.0) (acc + term)
  end.

Definition series_exp (x : float) : float := exp_series 40 x 1.0 1.0 0.0.

Definition series_libm : Legacy.libm :=
  {| Legacy.log := series_log;
     Legacy.pow := fun x y => series_exp (y * series_log x) |}.

End LegacyReference.

(** ** The other samplers of [src/legacy/distributions-boxmuller.c] *)

Module LegacyDistributions.

Import Legacy.
Local Open Scope float_scope.

(** [exp] of the C mathematical library. *)
Class libm_exp : Type := {
  exp : float -> float
}.

Section Samplers.
Context {B : brng_t} {L : libm} {X : libm_exp}.

(** [double legacy_gamma(aug_brng_t *aug_state, double shape, double scale)] *)
Definition legacy_gamma (fuel : nat) (aug : aug_brng_t) (shape scale : float)
  : sampler float :=
  match legacy_standard_gamma fuel aug shape with
  | None => None
  | Some (g, a) => Some (scale * g, a)
  end.

(** [double legacy_pareto(aug_brng_t *aug_state, double a)] *)
Definition legacy_pareto (aug : aug_brng_t) (a : float)
  : float * aug_brng_t :=
  let (e, a1) := legacy_standard_exponential aug in
  (exp (e / a) - 1.0, a1).

(** [double legacy_weibull(aug_brng_t *aug_state, double a)] *)
Definition legacy_weibull (aug : aug_brng_t) (a : float)
  : float * aug_brng_t :=
  if a =? 0.0 then (0.0, aug)
  else
    let (e, a1) := legacy_standard_exponential aug in
    (pow e (1.0 / a), a1).

(** [double legacy_power(aug_brng_t *aug_state, double a)] *)
Definition legacy_power (aug : aug_brng_t) (a : float)
  : float * aug_brng_t :=
  let (e, a1) := legacy_standard_exponential aug in
  (pow (1.0 - exp (- e)) (1.0 / a), a1).

(** [double legacy_exponential(aug_brng_t *aug_state, double scale)] *)
Definition legacy_exponential (aug : aug_brng_t) (scale : float)
  : float * aug_brng_t :=
  let (e, a1) := legacy_standard_exponential aug in
  (scale * e, a1).

(** [double legacy_noncentral_f(aug_brng_t *aug_state, double dfnum,
    double dfden, double nonc)] *)
Definition legacy_noncentral_f (fuel : nat) (aug : aug_brng_t)
  (dfnum dfden nonc : float) : sampler float :=
  match legacy_noncentral_chisquare fuel aug dfnum nonc with
  | None => None
  | Some (x, a1) =>
      let t := x * dfden in
      match legacy_chisquare fuel a1 dfden with
      | None => None
      | Some (c, a2) => Some (t / (c * dfnum), a2)
      end
  end.

(** [double legacy_wald(aug_brng_t *aug_state, double mean, double scale)] *)
Definition legacy_wald (fuel : nat) (aug : aug_brng_t) (mean scale : float)
  : sampler float :=
  let mu_2l := mean / (2.0 * scale) in
  match legacy_gauss fuel aug with
  | None => None
  | Some (Y, a1) =>
      let Y := mean * Y * Y in
      let X := mean + mu_2l * (Y - sqrt (4.0 * scale * Y + Y * Y)) in
      let (U, a2) := legacy_double a1 in
      if U <=? mean / (mean + X) then Some (X, a2)
      else Some (mean * mean / X, a2)
  end.

(** [double legacy_normal(aug_brng_t *aug_state, double loc, double scale)] *)
Definition legacy_normal (fuel : nat) (aug : aug_brng_t) (loc scale : float)
  : sampler float :=
  match legacy_gauss fuel aug with
  | None => None
  | Some (g, a) => Some (loc + scale * g, a)
  end.

(** [double legacy_lognormal(aug_brng_t *aug_state, double mean,
    double sigma)] *)
Definition legacy_lognormal (fuel : nat) (aug : aug_brng_t)
  (mean sigma : float) : sampler float :=
  match legacy_normal fuel aug mean sigma with
  | None => None
  | Some (x, a) => Some (exp x, a)
  end.

(** [double legacy_standard_t(aug_brng_t *aug_state, double df)] *)
Definition legacy_standard_t (fuel : nat) (aug : aug_brng_t) (df : float)
  : sampler float :=
  match legacy_gauss fuel aug with
  | None => None
  | Some (num, a1) =>
      match legacy_standard_gamma fuel a1 (df / 2.0) with
      | None => None
      | Some (denom, a2) => Some (sqrt (df / 2.0) * num / sqrt denom, a2)
      end
  end.

(** [int64_t legacy_negative_binomial(aug_brng_t *aug_state, double n,
    double p)] *)
Definition legacy_negative_binomial (fuel : nat) (aug : aug_brng_t)
  (n p : float) : sampler Z :=
  match legacy_gamma fuel aug n ((1.0 - p) / p) with
  | None => None
  | Some (Y, a1) =>
      let (k, b) := random_poisson (basicrng a1) Y in
      Some (k, set_basicrng b a1)
  end.

(** [double legacy_standard_cauchy(aug_brng_t *aug_state)]: the C
    expression is [legacy_gauss(aug_state) / legacy_gauss(aug_state)], and
    C leaves the order in which the two operands are evaluated to the
    compiler; [left_first] says which call runs first. *)
Definition legacy_standard_cauchy (left_first : bool) (fuel : nat)
  (aug : aug_brng_t) : sampler float :=
  match legacy_gauss fuel aug with
  | None => None
  | Some (g1, a1) =>
      match legacy_gauss fuel a1 with
      | None => None
      | Some (g2, a2) =>
          Some ((if left_first then g1 / g2 else g2 / g1), a2)
      end
  end.

(** The [while (1)] loop of Johnk's algorithm in [legacy_beta]. *)
Fixpoint beta_johnk (n : nat) (aug : aug_brng_t) (a b : float)
  : sampler float :=
  match n with
  | O => None
  | S n' =>
      let (U, a1) := legacy_double aug in
      let (V, a2) := legacy_double a1 in
      let X := pow U (1.0 / a) in
      let Y := pow V (1.0 / b) in
      if X + Y <=? 1.0 then
        if 0.0 <? X + Y then Some (X / (X + Y), a2)
        else
          let logX := log U / a in
          let logY := log V / b in
          let logM := if logY <? logX then logX else logY in
          let logX := logX - logM in
          let logY := logY - logM in
          Some (exp (logX - log (exp logX + exp logY)), a2)
      else beta_johnk n' a2 a b
  end.

(** [double legacy_beta(aug_brng_t *aug_state, double a, double b)] *)
Definition legacy_beta (fuel : nat) (aug : aug_brng_t) (a b : float)
  : sampler float :=
  if (a <=? 1.0) && (b <=? 1.0) then beta_johnk fuel aug a b
  else
    match legacy_standard_gamma fuel aug a with
    | None => None
    | Some (Ga, a1) =>
        match legacy_standard_gamma fuel a1 b with
        | None => None
        | Some (Gb, a2) => Some (Ga / (Ga + Gb), a2)
        end
    end.

(** [double legacy_f(aug_brng_t *aug_state, double dfnum, double dfden)]:
    the two chi-square calls are the operands of one division, so their
    order is the compiler's; [left_first] says which runs first. *)
Definition legacy_f (left_first : bool) (fuel : nat) (aug : aug_brng_t)
  (dfnum dfden : float) : sampler float :=
  if left_first then
    match legacy_chisquare fuel aug dfnum with
    | None => None
    | Some (cn, a1) =>
        match legacy_chisquare fuel a1 dfden with
        | None => None
        | Some (cd, a2) => Some ((cn * dfden) / (cd * dfnum), a2)
        end
    end
  else
    match legacy_chisquare fuel aug dfden with
    | None => None
    | Some (cd, a1) =>
        match legacy_chisquare fuel a1 dfnum with
        | None => None
        | Some (cn, a2) => Some ((cn * dfden) / (cd * dfnum), a2)
        end
    end.

(** *** One trial of Johnk's loop *)

(** The value of a trial on the uniforms [U] and [V], or [None] when
    [X + Y > 1] and the loop goes on. *)
Definition johnk_trial (a b U V : float) : option float :=
  let X := pow U (1.0 / a) in
  let Y := pow V (1.0 / b) in
  if X + Y <=? 1.0 then
    if 0.0 <? X + Y then Some (X / (X + Y))
    else
      let logX := log U / a in
      let logY := log V / b in
      let logM := if logY <? logX then logX else logY in
      Some (exp (logX - logM - log (exp (logX - logM) + exp (logY - logM))))
  else None.

End Samplers.

End LegacyDistributions.

(** ** More collaborators to run the code on *)

Module Reference2.

(** An operating system whose entropy source is down: the first request
    raises [RuntimeError], the ['fallback'] request replays a tape. *)
Definition fallback_entropy (tape : list Z) : Entropy :=
  {| random_entropy := fun n fallback =>
       if fallback then
         if (n <=? List.length tape)%nat then inr (firstn n tape)
         else inl RuntimeError
       else inl RuntimeError;
     seed_by_array := Reference.ref_seed_by_array |}.

(** The truncated exponential series as [exp]. *)
Definition series_libm_exp : LegacyDistributions.libm_exp :=
  {| LegacyDistributions.exp := LegacyReference.series_exp |}.

End Reference2.

(** ** The array form of a counter or key, as documented *)

Module Wire.

(** The relation the docstring of [ThreeFry32.seed] states between the
    integer and the array form of a counter or key:
    [array[i] = (value // 2**(32*i)) % 2**32]. *)
Definition docstring_words (value : Z) : arr4 :=
  Arr4 ((value / 2 ^ (32 * 0)) mod 2 ^ 32)
       ((value / 2 ^ (32 * 1)) mod 2 ^ 32)
       ((value / 2 ^ (32 * 2)) mod 2 ^ 32)
       ((value / 2 ^ (32 * 3)) mod 2 ^ 32).

(** A 64-bit word seen as two 32-bit words, and back: the low half comes
    first. *)
Definition low32 (w : Z) : Z := w mod 2 ^ 32.
Definition high32 (w : Z) : Z := w / 2 ^ 32.
Definition join64 (lo hi : Z) : Z := lo + 2 ^ 32 * hi.

End Wire.

(* ================================================================== *)
(** * Part II: properties *)
(* ================================================================== *)

(** ** The method monad *)

Section MonadFacts.
Context {St : Type}.

Lemma bind_ret_l {A B} (a : A) (k : A -> M St B) (st : St) :
  bind (ret a) k st = k a st.
Proof. reflexivity. Qed.

Lemma bind_raise {A B} (e : exn) (k : A -> M St B) (st : St) :
  bind (raise e) k st = (inl e, st).
Proof. reflexivity. Qed.

Lemma bind_modify {B} (f : St -> St) (k : unit -> M St B) (st : St) :
  bind (modify f) k st = k tt (f st).
Proof. reflexivity. Qed.

Lemma bind_lift_inr {A B} (a : A) (k : A -> M St B) (st : St) :
  bind (lift (inr a)) k st = k a st.
Proof. reflexivity. Qed.

Lemma bind_lift_inl {A B} (e : exn) (k : A -> M St B) (st : St) :
  bind (lift (inl e)) k st = (inl e, st).
Proof. reflexivity. Qed.

Lemma bind_assoc {A B D} (m : M St A) (k : A -> M St B) (h : B -> M St D)
  (st : St) :
  bind (bind m k) h st = bind m (fun a => bind (k a) h) st.
Proof.
  unfold bind. destruct (m st) as [[e | a] st']; reflexivity.
Qed.

Lemma bind_ext {A B} (m : M St A) (k k' : A -> M St B) (st : St) :
  (forall a st', k a st' = k' a st') -> bind m k st = bind m k' st.
Proof.
  intros H. unfold bind. destruct (m st) as [[e | a] st']; [reflexivity | apply H].
Qed.

(** A loop whose every iteration succeeds is the fold of its state
    transformers. *)
Lemma for_each_modify {A} (l : list A) (f : A -> St -> St) (st : St) :
  for_each l (fun x => modify (f x)) st
  = (inr tt, fold_left (fun acc x => f x acc) l st).
Proof.
  revert st. induction l as [| x r IH]; intro st; simpl.
  - reflexivity.
  - rewrite bind_modify. apply IH.
Qed.

Lemma for_each_app {A} (l1 l2 : list A) (body : A -> M St unit) (st : St) :
  for_each (l1 ++ l2) body st
  = bind (for_each l1 body) (fun _ => for_each l2 body) st.
Proof.
  revert st. induction l1 as [| x r IH]; intro st; simpl.
  - reflexivity.
  - rewrite bind_assoc. apply bind_ext. intros _ st'. apply IH.
Qed.

Lemma repeat_m_succ_r (k : nat) (m : M St unit) (st : St) :
  repeat_m (S k) m st = bind (repeat_m k m) (fun _ => m) st.
Proof.
  revert st. induction k as [| k IH]; intro st.
  - simpl. unfold bind, ret. destruct (m st) as [[e | []] st']; reflexivity.
  - change (repeat_m (S (S k)) m st)
      with (bind m (fun _ => repeat_m (S k) m) st).
    change (repeat_m (S k) m) with (bind m (fun _ => repeat_m k m)) at 2.
    rewrite bind_assoc. apply bind_ext. intros _ st'. apply IH.
Qed.

End MonadFacts.

(** ** C arrays *)

Lemma upd_length {A} (i : nat) (v : A) (l : list A) :
  List.length (upd i v l) = List.length l.
Proof.
  revert i. induction l as [| x r IH]; intros [| j]; simpl; auto.
Qed.

(** Copying the first [n] cells of [src] into [dst], cell by cell. *)
Lemma upd_copy_prefix {A} (src dst : list A) (n : nat) (x : A) :
  List.length src = List.length dst ->
  nth_error src n = Some x ->
  upd n x (firstn n src ++ skipn n dst) = firstn (S n) src ++ skipn (S n) dst.
Proof.
  revert dst n. induction src as [| a src IH]; intros dst n Hlen Hn.
  - destruct n; discriminate.
  - destruct dst as [| d dst]; [discriminate |].
    destruct n as [| n]; simpl in *.
    + injection Hn as ->. reflexivity.
    + f_equal. apply IH; [lia | assumption].
Qed.

(** ** Integer conversions *)

Lemma to_c_int_in_range (lo hi z : Z) :
  lo <= z < hi -> to_c_int lo hi (PyInt z) = inr z.
Proof.
  intros [Hlo Hhi]. unfold to_c_int.
  apply Z.leb_le in Hlo. apply Z.ltb_lt in Hhi.
  rewrite Hlo, Hhi. reflexivity.
Qed.

Lemma to_c_int_out_of_range (lo hi z : Z) :
  z < lo \/ hi <= z -> to_c_int lo hi (PyInt z) = inl OverflowError.
Proof.
  intros H. unfold to_c_int.
  destruct (Z.leb_spec lo z), (Z.ltb_spec z hi); simpl; try reflexivity; lia.
Qed.

(** ** MT19937: seeding (claim C7) *)

Lemma seed_out_of_range_iff (x : Z) :
  MT19937.seed_out_of_range x = true <-> x > 2 ^ 32 - 1 \/ x < 0.
Proof.
  unfold MT19937.seed_out_of_range.
  rewrite orb_true_iff, Z.gtb_ltb, !Z.ltb_lt. lia.
Qed.

Lemma existsb_seed_out_of_range (l : list Z) :
  Exists (fun x => x > 2 ^ 32 - 1 \/ x < 0) l ->
  existsb MT19937.seed_out_of_range l = true.
Proof.
  intros H. apply existsb_exists. apply Exists_exists in H.
  destruct H as (x & Hin & Hx). exists x. split; [assumption |].
  now apply seed_out_of_range_iff.
Qed.

Lemma forallb_fits_int64 (l : list Z) :
  forallb fits_int64 l = true <-> Forall (fun x => - 2 ^ 63 <= x < 2 ^ 63) l.
Proof.
  rewrite forallb_forall, Forall_forall. unfold fits_int64.
  split; intros H x Hx; specialize (H x Hx).
  - apply andb_true_iff in H. rewrite Z.leb_le, Z.ltb_lt in H. exact H.
  - apply andb_true_iff. rewrite Z.leb_le, Z.ltb_lt. exact H.
Qed.

Lemma asarray_int64_safe_array (l : list Z) :
  l <> [] -> Forall (fun x => - 2 ^ 63 <= x < 2 ^ 63) l ->
  asarray_int64_safe (SeedArray l)
  = inr {| nd_dtype := int64; nd_shape := [List.length l]; nd_data := l |}.
Proof.
  intros Hne Hall. apply forallb_fits_int64 in Hall.
  destruct l as [| x r]; [congruence |].
  unfold asarray_int64_safe. rewrite Hall. reflexivity.
Qed.

Lemma asarray_int64_safe_beyond (l : list Z) :
  Exists (fun x => x < - 2 ^ 63 \/ 2 ^ 63 <= x) l ->
  asarray_int64_safe (SeedArray l) = inl TypeError.
Proof.
  intros Hex. destruct l as [| x r]; [reflexivity |].
  unfold asarray_int64_safe.
  destruct (forallb fits_int64 (x :: r)) eqn:Hall; [| reflexivity].
  apply forallb_fits_int64 in Hall. apply Exists_exists in Hex.
  destruct Hex as (y & Hin & Hy).
  rewrite Forall_forall in Hall. specialize (Hall y Hin). lia.
Qed.

(** An array of one element, whatever its shape, is 0-d once squeezed; any
    other array keeps an axis. *)
Lemma nd_squeeze_one_element (a : ndarray) :
  nd_size a = 1%nat -> nd_shape (nd_squeeze a) = [].
Proof.
  unfold nd_size, nd_squeeze. cbn [nd_shape].
  induction (nd_shape a) as [| n r IH]; [reflexivity |].
  cbn [fold_right filter]. intros H.
  apply Nat.eq_mul_1 in H. destruct H as (-> & Hr).
  cbn [Nat.eqb negb]. exact (IH Hr).
Qed.

Lemma nd_squeeze_keeps_axis (a : ndarray) :
  nd_size a <> 1%nat -> nd_shape (nd_squeeze a) <> [].
Proof.
  unfold nd_size, nd_squeeze. cbn [nd_shape].
  induction (nd_shape a) as [| n r IH].
  { intros H. exfalso. apply H. reflexivity. }
  cbn [fold_right filter]. intros H.
  destruct (Nat.eqb_spec n 1) as [-> | Hn]; cbn [negb]; [| discriminate].
  apply IH. rewrite Nat.mul_1_l in H. exact H.
Qed.

Lemma nd_wf_one_element (a : ndarray) :
  nd_wf a -> nd_size a = 1%nat -> exists x, nd_data a = [x].
Proof.
  intros (Hlen & _) Hsize. rewrite Hsize in Hlen.
  destruct (nd_data a) as [| x [| y r]]; try discriminate Hlen.
  exists x. reflexivity.
Qed.

Section MT19937_Seed.
Context {E : Entropy} {C : MT19937.mt19937_init}.

Lemma MT19937_seed_scalar (z : Z) (st : MT19937.mt19937_state) :
  MT19937.seed (SeedInt z) st
  = if MT19937.seed_out_of_range z then (inl ValueError, st)
    else (inr tt, MT19937.mt19937_seed st z).
Proof.
  unfold MT19937.seed, try_except, bind, lift, operator_index, squeeze.
  destruct (MT19937.seed_out_of_range z); reflexivity.
Qed.

Lemma MT19937_seed_array (l : list Z) (st : MT19937.mt19937_state) :
  MT19937.seed (SeedArray l) st
  = match asarray_int64_safe (SeedArray l) with
    | inl e => (inl e, st)
    | inr obj =>
        if existsb MT19937.seed_out_of_range (nd_data obj)
        then (inl ValueError, st)
        else
          let words := map (fun x => x mod 2 ^ 32) (nd_data obj) in
          (inr tt, MT19937.mt19937_init_by_array st words (PyArray_DIM0 obj))
    end.
Proof.
  unfold MT19937.seed, try_except, bind, lift, operator_index, squeeze.
  cbn [exn_eqb].
  destruct (asarray_int64_safe (SeedArray l)) as [e | obj]; [reflexivity |].
  destruct (existsb MT19937.seed_out_of_range (nd_data obj)); reflexivity.
Qed.

(** An array that squeezes to 0-d has an index and takes the scalar
    path. *)
Lemma MT19937_seed_ndarray_scalar (a : ndarray) (x : Z) (rest : list Z)
  (st : MT19937.mt19937_state) :
  nd_shape (nd_squeeze a) = [] -> nd_data a = x :: rest ->
  MT19937.seed (SeedNdarray a) st
  = if MT19937.seed_out_of_range x then (inl ValueError, st)
    else (inr tt, MT19937.mt19937_seed st x).
Proof.
  intros Hshape Hdata.
  unfold MT19937.seed, try_except, bind, lift, operator_index, squeeze.
  rewrite Hshape. cbn [nd_squeeze nd_data]. rewrite Hdata.
  destruct (MT19937.seed_out_of_range x); reflexivity.
Qed.

(** An array that keeps an axis has no index and takes the array path. *)
Lemma MT19937_seed_ndarray_array (a : ndarray) (st : MT19937.mt19937_state) :
  nd_shape (nd_squeeze a) <> [] ->
  MT19937.seed (SeedNdarray a) st
  = if can_cast_safe_int64 (nd_dtype a) then
      if existsb MT19937.seed_out_of_range (nd_data a)
      then (inl ValueError, st)
      else
        (inr tt,
         MT19937.mt19937_init_by_array st
           (map (fun x => x mod 2 ^ 32) (nd_data a))
           (PyArray_DIM0 (nd_squeeze a)))
    else (inl TypeError, st).
Proof.
  intros Hshape.
  unfold MT19937.seed, try_except, bind, lift, operator_index, squeeze,
    asarray_int64_safe.
  unfold PyArray_DIM0.
  destruct (nd_shape (nd_squeeze a)) as [| n r] eqn:Hs; [congruence |].
  cbn [exn_eqb]. change (nd_dtype (nd_squeeze a)) with (nd_dtype a).
  change (nd_data (nd_squeeze a)) with (nd_data a).
  destruct (can_cast_safe_int64 (nd_dtype a)); [| reflexivity].
  cbn [nd_data nd_shape].
  destruct (existsb MT19937.seed_out_of_range (nd_data a)); reflexivity.
Qed.

(** Every exception of [seed] leaves the state block as it was: the C
    initialisation is the last statement of each path. *)
Lemma MT19937_seed_raises_unchanged (seed : seed_t) (e : exn)
  (st st' : MT19937.mt19937_state) :
  MT19937.seed seed st = (inl e, st') -> st' = st.
Proof.
  destruct seed as [| z | l | a].
  - unfold MT19937.seed, try_except, bind, lift, raise, modify.
    cbn [asarray_int64_safe].
    destruct (random_entropy 1 false) as [[] | w]; cbn [exn_eqb];
      try (intros H; injection H as _ <-; reflexivity);
      try (destruct (array_get w 0) as [[] | s0]; cbn [exn_eqb];
           intros H; try discriminate H; injection H as _ <-; reflexivity).
    destruct (random_entropy 1 true) as [[] | w]; cbn [exn_eqb];
      try (intros H; injection H as _ <-; reflexivity);
      try (destruct (array_get w 0) as [[] | s0]; cbn [exn_eqb];
           intros H; try discriminate H; injection H as _ <-; reflexivity).
  - rewrite MT19937_seed_scalar.
    destruct (MT19937.seed_out_of_range z); intros H;
      [injection H as _ <-; reflexivity | discriminate H].
  - rewrite MT19937_seed_array.
    destruct (asarray_int64_safe (SeedArray l)) as [e' | obj].
    + intros H. injection H as _ <-. reflexivity.
    + destruct (existsb MT19937.seed_out_of_range (nd_data obj)); intros H;
        [injection H as _ <-; reflexivity | discriminate H].
  - unfold MT19937.seed, try_except, bind, lift, raise, modify, squeeze.
    destruct (operator_index (SeedNdarray (nd_squeeze a))) as [[] | idx];
      cbn [exn_eqb];
      try (intros H; injection H as _ <-; reflexivity).
    + destruct (asarray_int64_safe (SeedNdarray (nd_squeeze a)))
        as [e' | obj].
      * intros H. injection H as _ <-. reflexivity.
      * destruct (existsb MT19937.seed_out_of_range (nd_data obj));
          intros H; [injection H as _ <-; reflexivity | discriminate H].
    + destruct (MT19937.seed_out_of_range idx); intros H;
        [injection H as _ <-; reflexivity | discriminate H].
Qed.

(** C7.  What [MT19937.seed] does with a seed out of range.  It raises
    [ValueError] for a scalar seed above 2^32 - 1 or negative (a Python
    integer, or an array of one element, which the squeeze turns into a
    scalar whatever its dtype), for a sequence that holds such an element
    while all of its elements fit a signed 64-bit integer, and for an array
    of another size that holds such an element and whose dtype is not
    uint64.  A sequence with an element beyond int64, and every uint64
    array of a size other than one, fail the safe cast to int64 with
    [TypeError] before the range is looked at.  Whatever [seed] raises, the
    key and the position are those of before the call. *)
Theorem MT19937_seed_rejects_before_mutation (st : MT19937.mt19937_state) :
  (forall z, z > 2 ^ 32 - 1 \/ z < 0 ->
     MT19937.seed (SeedInt z) st = (inl ValueError, st))
  /\ (forall a, nd_wf a -> nd_size a = 1%nat ->
        Exists (fun x => x > 2 ^ 32 - 1 \/ x < 0) (nd_data a) ->
        MT19937.seed (SeedNdarray a) st = (inl ValueError, st))
  /\ (forall l, l <> [] ->
        Forall (fun x => - 2 ^ 63 <= x < 2 ^ 63) l ->
        Exists (fun x => x > 2 ^ 32 - 1 \/ x < 0) l ->
        MT19937.seed (SeedArray l) st = (inl ValueError, st))
  /\ (forall a, nd_size a <> 1%nat -> nd_dtype a <> uint64 ->
        Exists (fun x => x > 2 ^ 32 - 1 \/ x < 0) (nd_data a) ->
        MT19937.seed (SeedNdarray a) st = (inl ValueError, st))
  /\ (forall l, Exists (fun x => x < - 2 ^ 63 \/ 2 ^ 63 <= x) l ->
        MT19937.seed (SeedArray l) st = (inl TypeError, st))
  /\ (forall a, nd_size a <> 1%nat -> nd_dtype a = uint64 ->
        MT19937.seed (SeedNdarray a) st = (inl TypeError, st))
  /\ (forall seed e st', MT19937.seed seed st = (inl e, st') -> st' = st).
Proof.
  refine (conj _ (conj _ (conj _ (conj _ (conj _ (conj _ _)))))).
  - intros z Hz. rewrite MT19937_seed_scalar.
    apply seed_out_of_range_iff in Hz. rewrite Hz. reflexivity.
  - intros a Hwf Hsize Hex.
    destruct (nd_wf_one_element Hwf Hsize) as (x & Hx).
    rewrite (MT19937_seed_ndarray_scalar (x := x) (rest := []) a st
               (nd_squeeze_one_element a Hsize) Hx).
    rewrite Hx in Hex. apply Exists_cons in Hex.
    destruct Hex as [Hout | Hnil]; [| inversion Hnil].
    apply seed_out_of_range_iff in Hout. rewrite Hout. reflexivity.
  - intros l Hne Hall Hex. rewrite MT19937_seed_array.
    rewrite (asarray_int64_safe_array Hne Hall). cbn [nd_data].
    rewrite (existsb_seed_out_of_range Hex). reflexivity.
  - intros a Hsize Hdt Hex.
    rewrite (MT19937_seed_ndarray_array a st (nd_squeeze_keeps_axis a Hsize)).
    rewrite (existsb_seed_out_of_range Hex).
    destruct (nd_dtype a); try reflexivity. congruence.
  - intros l Hex. rewrite MT19937_seed_array.
    rewrite (asarray_int64_safe_beyond Hex). reflexivity.
  - intros a Hsize Hdt.
    rewrite (MT19937_seed_ndarray_array a st (nd_squeeze_keeps_axis a Hsize)).
    rewrite Hdt. reflexivity.
  - intros seed e st'. apply MT19937_seed_raises_unchanged.
Qed.

End MT19937_Seed.

(** C7, concrete runs on the handle seeded with 5489: the scalar 2^32, the
    uint64 array [[2^63]] of shape (1, 1), the sequence [[1; -1]] and the
    int64 array [[1; -1]] raise [ValueError]; the sequence [[7; 2^64]] and
    the uint64 array [[1; 2^33]] raise [TypeError]; the handle is as it
    was. *)
Lemma MT19937_seed_rejects_witness :
  let seed :=
    MT19937.seed (E := Reference.no_entropy)
                 (C := Reference.ref_mt19937_init) in
  let nd d s l := SeedNdarray {| nd_dtype := d; nd_shape := s; nd_data := l |} in
  seed (SeedInt (2 ^ 32)) mt_5489 = (inl ValueError, mt_5489)
  /\ seed (nd uint64 [1; 1]%nat [2 ^ 63]) mt_5489 = (inl ValueError, mt_5489)
  /\ seed (SeedArray [1; -1]) mt_5489 = (inl ValueError, mt_5489)
  /\ seed (nd int64 [2]%nat [1; -1]) mt_5489 = (inl ValueError, mt_5489)
  /\ seed (SeedArray [7; 2 ^ 64]) mt_5489 = (inl TypeError, mt_5489)
  /\ seed (nd uint64 [2]%nat [1; 2 ^ 33]) mt_5489 = (inl TypeError, mt_5489).
Proof.
  cbv zeta.
  destruct (MT19937_seed_rejects_before_mutation
              (E := Reference.no_entropy) (C := Reference.ref_mt19937_init)
              mt_5489)
    as (Hscalar & Hone & Hlist & Hnd & Hwide & Hu64 & _).
  refine (conj _ (conj _ (conj _ (conj _ (conj _ _))))).
  - apply Hscalar. left. reflexivity.
  - apply Hone.
    + split; [reflexivity |]. repeat constructor; cbn; discriminate.
    + reflexivity.
    + apply Exists_cons_hd. left. reflexivity.
  - apply Hlist.
    + discriminate.
    + repeat constructor; discriminate.
    + apply Exists_cons_tl, Exists_cons_hd. right. reflexivity.
  - apply Hnd.
    + discriminate.
    + discriminate.
    + apply Exists_cons_tl, Exists_cons_hd. right. reflexivity.
  - apply Hwide. apply Exists_cons_tl, Exists_cons_hd. right. discriminate.
  - apply Hu64; [discriminate | reflexivity].
Defined.

(** C7, the failing input: the sequence [[2^63]] holds an element above
    2^32 - 1, and the call raises [TypeError], not [ValueError]. *)
Lemma MT19937_seed_array_beyond_int64 :
  MT19937.seed (E := Reference.no_entropy) (C := Reference.ref_mt19937_init)
    (SeedArray [2 ^ 63]) mt_5489 = (inl TypeError, mt_5489)
  /\ MT19937.seed (E := Reference.no_entropy) (C := Reference.ref_mt19937_init)
       (SeedArray [2 ^ 63]) mt_5489 <> (inl ValueError, mt_5489).
Proof.
  assert (H : MT19937.seed (E := Reference.no_entropy)
                (C := Reference.ref_mt19937_init)
                (SeedArray [2 ^ 63]) mt_5489 = (inl TypeError, mt_5489)).
  { rewrite MT19937_seed_array. reflexivity. }
  split; [exact H |]. rewrite H. discriminate.
Qed.

(** A seed in range reaches the C initialisation: re-seeding with 5489
    installs Knuth's table, whatever the handle held. *)
Lemma MT19937_seed_5489 :
  MT19937.seed (E := Reference.no_entropy) (C := Reference.ref_mt19937_init)
    (SeedInt 5489) (Reference.init_genrand 1)
  = (inr tt, mt_5489).
Proof. vm_compute. reflexivity. Qed.

(** ** ThreeFry32: conflicting seed and key (claim C8) *)

Section ThreeFry32_Seed_Conflict.
Context {E : Entropy}.

(** C8.  [ThreeFry32.seed] called with both [seed] and [key] given raises
    [ValueError], and the handle (counter, key, buffer and buffer position)
    is the one of before the call. *)
Theorem ThreeFry32_seed_and_key_conflict
  (seed : seed_t) (counter : option Z) (key : Z)
  (st : ThreeFry32.threefry32_state) :
  seed <> SeedNone ->
  ThreeFry32.seed seed counter (Some key) st = (inl ValueError, st).
Proof.
  intros Hseed. unfold ThreeFry32.seed.
  destruct seed; [congruence | reflexivity ..].
Qed.

End ThreeFry32_Seed_Conflict.

(** C8, a concrete run: [seed(5, counter=None, key=7)]. *)
Lemma ThreeFry32_seed_and_key_conflict_witness :
  ThreeFry32.seed (E := Reference.no_entropy) (SeedInt 5) None (Some 7)
    threefry_mid_block
  = (inl ValueError, threefry_mid_block).
Proof.
  apply (ThreeFry32_seed_and_key_conflict (E := Reference.no_entropy)).
  discriminate.
Defined.

(** ** MT19937: the legacy tuple form of the state setter (claim C10) *)

(** A legacy tuple of length 3 or 5 tagged ['MT19937'] is restored as the
    tagged record built from its elements 1 and 2. *)
Lemma MT19937_set_state_legacy_tuple
  (k p : pyval) (rest : list pyval) (st : MT19937.mt19937_state) :
  rest = [] \/ List.length rest = 2%nat ->
  MT19937.set_state (PyTuple (PyStr "MT19937" :: k :: p :: rest)) st
  = MT19937.set_state
      (PyDict [("brng"%string, PyStr "MT19937");
               ("state"%string, PyDict [("key"%string, k); ("pos"%string, p)])])
      st.
Proof.
  intros [-> | Hlen]; [reflexivity |].
  destruct rest as [| a [| b [| c rest]]]; try discriminate. reflexivity.
Qed.

(** A non-empty tuple that is not such a legacy state raises [ValueError]
    and leaves the handle alone. *)
Lemma MT19937_set_state_other_tuple
  (v : pyval) (items : list pyval) (st : MT19937.mt19937_state) :
  eq_str v "MT19937" = false
  \/ (List.length (v :: items) <> 3%nat /\ List.length (v :: items) <> 5%nat) ->
  MT19937.set_state (PyTuple (v :: items)) st = (inl ValueError, st).
Proof.
  intros H. unfold MT19937.set_state, MT19937.legacy_tuple.
  rewrite bind_assoc. cbn [getitem nth_error lift bind].
  destruct H as [Hv | [H3 H5]].
  - rewrite Hv. reflexivity.
  - apply Nat.eqb_neq in H3, H5. rewrite H3, H5, orb_true_r. reflexivity.
Qed.

(** C10, the code at the failing input: the empty tuple is a tuple that is
    not a legacy state, and the setter raises [IndexError] (from
    [value[0]]), not [ValueError]. *)
Theorem MT19937_set_state_empty_tuple (st : MT19937.mt19937_state) :
  MT19937.set_state (PyTuple []) st = (inl IndexError, st).
Proof. reflexivity. Qed.

(** ** State snapshots: get, set and what the setters check
       (claims C2, C9 and the restore part of C6) *)

Lemma bind_inr_inv {St A B} (m : M St A) (k : A -> M St B)
  (st st' : St) (b : B) :
  bind m k st = (inr b, st') ->
  exists a st1, m st = (inr a, st1) /\ k a st1 = (inr b, st').
Proof.
  unfold bind. destruct (m st) as [[e | a] st1]; intros H.
  - discriminate.
  - exists a, st1. split; [reflexivity | exact H].
Qed.

(** Runs a setter on a snapshot whose words are known to be in range. *)
Ltac run_setter :=
  unfold for_range; cbn [seq for_each Nat.add];
  unfold bind, lift, modify, ret;
  repeat first
    [ rewrite to_c_int_in_range by (assumption || lia)
    | progress cbn -[to_c_int Z.pow Z.opp] ].

Lemma nth_error_map_PyInt (l : list Z) (n : nat) (x : Z) :
  nth_error l n = Some x -> nth_error (map PyInt l) n = Some (PyInt x).
Proof. intros H. rewrite nth_error_map, H. reflexivity. Qed.

(** The copy loop of the MT19937 setter after [n] iterations. *)
Lemma MT19937_copy_loop (src dst : list Z) (p : Z) (n : nat) :
  List.length src = List.length dst ->
  (n <= List.length src)%nat ->
  Forall (fun w => 0 <= w < 2 ^ 32) src ->
  for_each (seq 0 n)
    (fun i =>
       k <- lift (getitem (PyList (map PyInt src)) i) ;;
       w <- lift (to_uint32 k) ;;
       modify (MT19937.set_key i w))
    {| MT19937.key := dst; MT19937.pos := p |}
  = (inr tt,
     {| MT19937.key := firstn n src ++ skipn n dst; MT19937.pos := p |}).
Proof.
  intros Hlen Hn Hrange. induction n as [| n IH].
  - reflexivity.
  - rewrite seq_S, for_each_app. unfold bind at 1.
    rewrite IH by lia. cbn [Nat.add for_each].
    destruct (nth_error src n) as [x |] eqn:Hx.
    2: { apply nth_error_None in Hx. lia. }
    assert (Hxr : 0 <= x < 2 ^ 32).
    { rewrite Forall_forall in Hrange. apply Hrange.
      eapply nth_error_In; eassumption. }
    unfold bind, lift, getitem, to_uint32.
    rewrite (@nth_error_map_PyInt _ _ _ Hx), (@to_c_int_in_range _ _ _ Hxr).
    unfold modify, ret, MT19937.set_key. cbn [MT19937.key MT19937.pos].
    rewrite (@upd_copy_prefix _ _ _ _ _ Hlen Hx). reflexivity.
Qed.

(** The setter on a record of the right shape and tag: the key loop, then
    the position. *)
Lemma MT19937_set_state_record (k p : pyval) (st : MT19937.mt19937_state) :
  MT19937.set_state
    (PyDict [("brng"%string, PyStr "MT19937");
             ("state"%string, PyDict [("key"%string, k); ("pos"%string, p)])])
    st
  = (for_range 624 (fun i =>
       x <- lift (getitem k i) ;;
       w <- lift (to_uint32 x) ;;
       modify (MT19937.set_key i w)) ;;
     p <- lift (to_int p) ;;
     modify (MT19937.set_pos p)) st.
Proof. reflexivity. Qed.

Lemma MT19937_set_get (h h' : MT19937.mt19937_state) :
  MT19937.wf h -> List.length (MT19937.key h') = 624%nat ->
  MT19937.set_state (MT19937.state h) h' = (inr tt, h).
Proof.
  intros (Hlen & Hrange & Hpos) Hlen'.
  destruct h as [src p], h' as [dst p']. cbn [MT19937.key MT19937.pos] in *.
  unfold MT19937.state, MT19937.class_name.
  rewrite MT19937_set_state_record.
  cbn [MT19937.key MT19937.pos].
  unfold for_range. unfold bind at 1.
  rewrite (@MT19937_copy_loop src dst p' 624) by (assumption || lia).
  rewrite <- Hlen at 1. rewrite firstn_all.
  rewrite <- Hlen', skipn_all, app_nil_r.
  unfold to_int. rewrite (@to_c_int_in_range _ _ _ Hpos), bind_lift_inr.
  reflexivity.
Qed.

Lemma ThreeFry32_set_get (h h' : ThreeFry32.threefry32_state) :
  ThreeFry32.wf h ->
  ThreeFry32.set_state (ThreeFry32.state h) h' = (inr tt, h).
Proof.
  destruct h as [[c0 c1 c2 c3] [k0 k1 k2 k3] p [b0 b1 b2 b3]].
  unfold ThreeFry32.wf, all4. cbn [ThreeFry32.ctr ThreeFry32.key
    ThreeFry32.buffer ThreeFry32.buffer_pos w0 w1 w2 w3].
  intros ((Hc0 & Hc1 & Hc2 & Hc3) & (Hk0 & Hk1 & Hk2 & Hk3)
          & (Hb0 & Hb1 & Hb2 & Hb3) & Hp).
  unfold ThreeFry32.set_state, ThreeFry32.state, to_uint32, to_int.
  run_setter. reflexivity.
Qed.

Lemma Xoshiro256StarStar_set_get
  (h h' : Xoshiro256StarStar.xoshiro256starstar_state) :
  Xoshiro256StarStar.wf h ->
  Xoshiro256StarStar.set_state (Xoshiro256StarStar.state h) h' = (inr tt, h).
Proof.
  destruct h as [[s0 s1 s2 s3] hu u].
  unfold Xoshiro256StarStar.wf, all4. cbn [Xoshiro256StarStar.s
    Xoshiro256StarStar.has_uint32 Xoshiro256StarStar.uinteger w0 w1 w2 w3].
  intros ((Hs0 & Hs1 & Hs2 & Hs3) & Hhu & Hu).
  unfold Xoshiro256StarStar.set_state, Xoshiro256StarStar.state,
    to_uint32, to_uint64, to_int.
  run_setter. reflexivity.
Qed.

(** C2.  For each of the three containers, restoring the snapshot read
    from a handle [h] into a second handle [h'] of the same class succeeds
    and makes the state block of [h'] equal to that of [h], field by field:
    any draw function then returns the same sequence on both, and reading
    the state back returns the same snapshot. *)
Theorem state_snapshot_roundtrip :
  (forall h h', MT19937.wf h -> MT19937.wf h' ->
     MT19937.set_state (MT19937.state h) h' = (inr tt, h)
     /\ (forall (Out : Type) (next : _ -> Out * _) (n : nat),
           draws next n (snd (MT19937.set_state (MT19937.state h) h'))
           = draws next n h)
     /\ MT19937.state (snd (MT19937.set_state (MT19937.state h) h'))
        = MT19937.state h)
  /\ (forall h h', ThreeFry32.wf h -> ThreeFry32.wf h' ->
        ThreeFry32.set_state (ThreeFry32.state h) h' = (inr tt, h)
        /\ (forall (Out : Type) (next : _ -> Out * _) (n : nat),
              draws next n (snd (ThreeFry32.set_state (ThreeFry32.state h) h'))
              = draws next n h)
        /\ ThreeFry32.state (snd (ThreeFry32.set_state (ThreeFry32.state h) h'))
           = ThreeFry32.state h)
  /\ (forall h h', Xoshiro256StarStar.wf h -> Xoshiro256StarStar.wf h' ->
        Xoshiro256StarStar.set_state (Xoshiro256StarStar.state h) h'
        = (inr tt, h)
        /\ (forall (Out : Type) (next : _ -> Out * _) (n : nat),
              draws next n
                (snd (Xoshiro256StarStar.set_state
                        (Xoshiro256StarStar.state h) h'))
              = draws next n h)
        /\ Xoshiro256StarStar.state
             (snd (Xoshiro256StarStar.set_state
                     (Xoshiro256StarStar.state h) h'))
           = Xoshiro256StarStar.state h).
Proof.
  split; [| split]; intros h h' Hwf Hwf'.
  - assert (H := @MT19937_set_get h h' Hwf (proj1 Hwf')).
    rewrite H. repeat split.
  - assert (H := @ThreeFry32_set_get h h' Hwf).
    rewrite H. repeat split.
  - assert (H := @Xoshiro256StarStar_set_get h h' Hwf).
    rewrite H. repeat split.
Qed.

Lemma Forall_of_forallb {A} (P : A -> Prop) (f : A -> bool) (l : list A) :
  (forall x, f x = true -> P x) -> forallb f l = true -> Forall P l.
Proof.
  intros Hf H. apply Forall_forall. intros x Hx.
  apply Hf. rewrite forallb_forall in H. now apply H.
Qed.

Lemma is_u32_range (w : Z) : is_u32 w = true -> 0 <= w < 2 ^ 32.
Proof.
  unfold is_u32. rewrite andb_true_iff, Z.leb_le, Z.ltb_lt. tauto.
Qed.

(** The tables Knuth's initialisation builds are well-formed state
    blocks. *)
Lemma wf_init_genrand_5489 : MT19937.wf (Reference.init_genrand 5489).
Proof.
  repeat split.
  - apply Forall_of_forallb with (f := is_u32); [apply is_u32_range |].
    vm_compute. reflexivity.
  - discriminate.
Qed.

Lemma wf_init_genrand_1 : MT19937.wf (Reference.init_genrand 1).
Proof.
  repeat split.
  - apply Forall_of_forallb with (f := is_u32); [apply is_u32_range |].
    vm_compute. reflexivity.
  - discriminate.
Qed.

Lemma wf_threefry_mid_block : ThreeFry32.wf threefry_mid_block.
Proof. unfold ThreeFry32.wf, all4. cbn. lia. Qed.

Lemma wf_threefry_fresh : ThreeFry32.wf threefry_fresh.
Proof. unfold ThreeFry32.wf, all4. cbn. lia. Qed.

Lemma wf_xoshiro_half_served : Xoshiro256StarStar.wf xoshiro_half_served.
Proof. unfold Xoshiro256StarStar.wf, all4. cbn. lia. Qed.

Lemma wf_xoshiro_fresh : Xoshiro256StarStar.wf xoshiro_fresh.
Proof. unfold Xoshiro256StarStar.wf, all4. cbn. lia. Qed.

(** C2, concrete runs: one restore per container. *)
Lemma state_snapshot_roundtrip_witness :
  MT19937.set_state (MT19937.state mt_5489) (Reference.init_genrand 1)
  = (inr tt, mt_5489)
  /\ ThreeFry32.set_state (ThreeFry32.state threefry_mid_block) threefry_fresh
     = (inr tt, threefry_mid_block)
  /\ Xoshiro256StarStar.set_state
       (Xoshiro256StarStar.state xoshiro_half_served) xoshiro_fresh
     = (inr tt, xoshiro_half_served).
Proof.
  destruct state_snapshot_roundtrip as (Hmt & Htf & Hxo).
  split; [| split].
  - exact (proj1 (Hmt mt_5489 (Reference.init_genrand 1)
                      wf_init_genrand_5489 wf_init_genrand_1)).
  - exact (proj1 (Htf threefry_mid_block threefry_fresh
                      wf_threefry_mid_block wf_threefry_fresh)).
  - exact (proj1 (Hxo xoshiro_half_served xoshiro_fresh
                      wf_xoshiro_half_served wf_xoshiro_fresh)).
Defined.

(** *** What the setters check *)

Lemma word_range_dec (lo hi z : Z) : {lo <= z < hi} + {z < lo \/ hi <= z}.
Proof.
  destruct (Z_le_dec lo z), (Z_lt_dec z hi); (left; lia) || (right; lia).
Qed.

(** Decides the conversion of the word [w], the next one to be converted:
    either it is in range and the run goes on, or the run stops there. *)
Ltac convert_word w :=
  let Hin := fresh "Hin" in
  let Hout := fresh "Hout" in
  destruct (word_range_dec 0 (2 ^ 32) w) as [Hin | Hout];
  [ rewrite (@to_c_int_in_range _ _ _ Hin); cbn -[to_c_int Z.pow Z.opp]
  | rewrite (@to_c_int_out_of_range _ _ _ Hout); reflexivity ].

(** A ThreeFry32 snapshot with a counter, key or buffer word outside 32
    bits is refused with [OverflowError], raised by the conversion of the
    first such word. *)
Lemma ThreeFry32_set_state_wide_word
  (c k b : arr4) (p : Z) (st : ThreeFry32.threefry32_state) :
  ~ (all4 (fun w => 0 <= w < 2 ^ 32) c
     /\ all4 (fun w => 0 <= w < 2 ^ 32) k
     /\ all4 (fun w => 0 <= w < 2 ^ 32) b) ->
  fst (ThreeFry32.set_state
         (ThreeFry32.state
            {| ThreeFry32.ctr := c; ThreeFry32.key := k;
               ThreeFry32.buffer_pos := p; ThreeFry32.buffer := b |}) st)
  = inl OverflowError.
Proof.
  destruct c as [c0 c1 c2 c3], k as [k0 k1 k2 k3], b as [b0 b1 b2 b3].
  unfold all4. cbn [w0 w1 w2 w3]. intros Hbad.
  unfold ThreeFry32.set_state, ThreeFry32.state, to_uint32, to_int.
  unfold for_range. cbn [seq for_each Nat.add].
  unfold bind, lift, modify, ret. cbn -[to_c_int Z.pow Z.opp].
  convert_word c0. convert_word k0. convert_word c1. convert_word k1.
  convert_word c2. convert_word k2. convert_word c3. convert_word k3.
  convert_word b0. convert_word b1. convert_word b2. convert_word b3.
  exfalso. apply Hbad. repeat split; lia.
Qed.

(** C9 (amended).  The setters of ThreeFry32 and Xoshiro256StarStar refuse
    a value that is not a dict with [TypeError] and a dict whose ['brng']
    tag is not the class name with [ValueError], in both cases before any
    field is written.  The fields themselves are not validated: a word
    beyond its width is refused only by its C conversion
    ([OverflowError]), and [buffer_pos] is stored as given, whatever [int]
    it is. *)
Theorem set_state_checks :
  (forall value st,
     is_dict value = false ->
     ThreeFry32.set_state value st = (inl TypeError, st))
  /\ (forall value st,
        is_dict value = false ->
        Xoshiro256StarStar.set_state value st = (inl TypeError, st))
  /\ (forall value st,
        is_dict value = true ->
        eq_str (dict_get value "brng" (PyStr "")) "ThreeFry32" = false ->
        ThreeFry32.set_state value st = (inl ValueError, st))
  /\ (forall value st,
        is_dict value = true ->
        eq_str (dict_get value "brng" (PyStr "")) "Xoshiro256StarStar" = false ->
        Xoshiro256StarStar.set_state value st = (inl ValueError, st))
  /\ (forall c k b p st,
        ~ (all4 (fun w => 0 <= w < 2 ^ 32) c
           /\ all4 (fun w => 0 <= w < 2 ^ 32) k
           /\ all4 (fun w => 0 <= w < 2 ^ 32) b) ->
        fst (ThreeFry32.set_state
               (ThreeFry32.state
                  {| ThreeFry32.ctr := c; ThreeFry32.key := k;
                     ThreeFry32.buffer_pos := p; ThreeFry32.buffer := b |}) st)
        = inl OverflowError)
  /\ (forall h p st,
        ThreeFry32.wf h -> - 2 ^ 31 <= p < 2 ^ 31 ->
        ThreeFry32.set_state
          (ThreeFry32.state (ThreeFry32.set_buffer_pos p h)) st
        = (inr tt, ThreeFry32.set_buffer_pos p h)).
Proof.
  repeat apply conj.
  - intros value st H. unfold ThreeFry32.set_state. rewrite H. reflexivity.
  - intros value st H. unfold Xoshiro256StarStar.set_state. rewrite H.
    reflexivity.
  - intros value st Hd Htag. unfold ThreeFry32.set_state.
    rewrite Hd. cbn [negb]. unfold ThreeFry32.class_name. rewrite Htag.
    reflexivity.
  - intros value st Hd Htag. unfold Xoshiro256StarStar.set_state.
    rewrite Hd. cbn [negb]. unfold Xoshiro256StarStar.class_name.
    rewrite Htag. reflexivity.
  - intros c k b p st. apply ThreeFry32_set_state_wide_word.
  - intros h p st (Hc & Hk & Hb & _) Hp. apply ThreeFry32_set_get.
    unfold ThreeFry32.wf, ThreeFry32.set_buffer_pos.
    cbn [ThreeFry32.ctr ThreeFry32.key ThreeFry32.buffer
         ThreeFry32.buffer_pos]. tauto.
Qed.

(** C9, concrete runs: [None] and an MT19937 snapshot offered to a
    ThreeFry32 handle, a counter word of 2^32, and a buffer position of
    -1. *)
Lemma set_state_checks_witness :
  ThreeFry32.set_state PyNone threefry_mid_block
  = (inl TypeError, threefry_mid_block)
  /\ ThreeFry32.set_state (MT19937.state mt_5489) threefry_mid_block
     = (inl ValueError, threefry_mid_block)
  /\ fst (ThreeFry32.set_state
            (ThreeFry32.state
               {| ThreeFry32.ctr := Arr4 0 (2 ^ 32) 0 0;
                  ThreeFry32.key := Arr4 1 2 3 4;
                  ThreeFry32.buffer_pos := 4;
                  ThreeFry32.buffer := Arr4 0 0 0 0 |}) threefry_mid_block)
     = inl OverflowError
  /\ ThreeFry32.set_state
       (ThreeFry32.state (ThreeFry32.set_buffer_pos (-1) threefry_mid_block))
       threefry_fresh
     = (inr tt, ThreeFry32.set_buffer_pos (-1) threefry_mid_block).
Proof.
  destruct set_state_checks as (Hty & _ & Htag & _ & Hwide & Hpos).
  repeat apply conj.
  - apply Hty. reflexivity.
  - apply Htag; reflexivity.
  - apply Hwide. unfold all4. cbn [w0 w1 w2 w3]. lia.
  - apply Hpos; [exact wf_threefry_mid_block | lia].
Defined.

(** C9, the claim as stated fails: a snapshot whose [buffer_pos] is 7,
    outside 0..4, is not rejected; the setter stores it. *)
Lemma ThreeFry32_set_state_accepts_buffer_pos_7 :
  ThreeFry32.set_state
    (PyDict [("brng"%string, PyStr "ThreeFry32");
             ("state"%string,
               PyDict [("counter"%string, PyList [PyInt 0; PyInt 0; PyInt 0; PyInt 0]);
                       ("key"%string, PyList [PyInt 1; PyInt 2; PyInt 3; PyInt 4])]);
             ("buffer"%string, PyList [PyInt 0; PyInt 0; PyInt 0; PyInt 0]);
             ("buffer_pos"%string, PyInt 7)])
    threefry_mid_block
  = (inr tt,
     {| ThreeFry32.ctr := Arr4 0 0 0 0;
        ThreeFry32.key := Arr4 1 2 3 4;
        ThreeFry32.buffer_pos := 7;
        ThreeFry32.buffer := Arr4 0 0 0 0 |}).
Proof. reflexivity. Qed.

(** The conversions run field by field, each after the writes before it:
    a snapshot whose last key word is 2^32 is refused once its counter and
    its first three key words have replaced those of the handle. *)
Lemma ThreeFry32_set_state_partial_write :
  ThreeFry32.set_state
    (ThreeFry32.state
       {| ThreeFry32.ctr := Arr4 0 0 0 0;
          ThreeFry32.key := Arr4 5 6 7 (2 ^ 32);
          ThreeFry32.buffer_pos := 4;
          ThreeFry32.buffer := Arr4 0 0 0 0 |})
    threefry_mid_block
  = (inl OverflowError,
     {| ThreeFry32.ctr := Arr4 0 0 0 0;
        ThreeFry32.key := Arr4 5 6 7 4;
        ThreeFry32.buffer_pos := 2;
        ThreeFry32.buffer := Arr4 11 12 13 14 |}).
Proof. reflexivity. Qed.

(** ** Cache invalidation (claim C6) *)

Section Cache.
Context {E : Entropy}.

Lemma ThreeFry32_reset_state_variables (st : ThreeFry32.threefry32_state) :
  ThreeFry32._reset_state_variables st
  = (inr tt,
     {| ThreeFry32.ctr := ThreeFry32.ctr st;
        ThreeFry32.key := ThreeFry32.key st;
        ThreeFry32.buffer_pos := 4;
        ThreeFry32.buffer := Arr4 0 0 0 0 |}).
Proof. reflexivity. Qed.

Lemma ThreeFry32_seed_resets (seed : seed_t) (counter key : option Z)
  (st st' : ThreeFry32.threefry32_state) :
  ThreeFry32.seed seed counter key st = (inr tt, st') ->
  ThreeFry32.cache_empty st'.
Proof.
  unfold ThreeFry32.seed.
  destruct (negb (ThreeFry32.is_none seed) && _); [discriminate |].
  intros H.
  apply bind_inr_inv in H. destruct H as (? & st1 & _ & H).
  apply bind_inr_inv in H. destruct H as (? & st2 & _ & H).
  apply bind_inr_inv in H. destruct H as (? & st3 & _ & H).
  rewrite ThreeFry32_reset_state_variables in H.
  injection H as <-. split; reflexivity.
Qed.

Lemma ThreeFry32_advance_resets {C : ThreeFry32.threefry32_h} (delta : Z)
  (st st' : ThreeFry32.threefry32_state) :
  ThreeFry32.advance delta st = (inr tt, st') ->
  ThreeFry32.cache_empty st'.
Proof.
  unfold ThreeFry32.advance. intros H.
  apply bind_inr_inv in H. destruct H as (? & st1 & _ & H).
  apply bind_inr_inv in H. destruct H as (? & st2 & _ & H).
  rewrite ThreeFry32_reset_state_variables in H.
  injection H as <-. split; reflexivity.
Qed.

Lemma Xoshiro256StarStar_seed_resets (seed : seed_t)
  (st st' : Xoshiro256StarStar.xoshiro256starstar_state) :
  Xoshiro256StarStar.seed seed st = (inr tt, st') ->
  Xoshiro256StarStar.cache_empty st'.
Proof.
  unfold Xoshiro256StarStar.seed. intros H.
  do 13 (apply bind_inr_inv in H; destruct H as (? & ? & _ & H)).
  unfold Xoshiro256StarStar._reset_state_variables in H.
  rewrite bind_modify in H. injection H as <-. split; reflexivity.
Qed.

Lemma fold_left_iter {A} (f : A -> A) (l : list nat) (x : A) :
  fold_left (fun acc _ => f acc) l x = Nat.iter (List.length l) f x.
Proof.
  revert x. induction l as [| i l IH]; intro x; simpl.
  - reflexivity.
  - rewrite IH. symmetry. apply Nat.iter_succ_r.
Qed.

(** [jump] never raises: it applies the C jump [iter] times (none for
    [iter <= 0]) and clears the half-word cache. *)
Lemma Xoshiro256StarStar_jump_eq {C : Xoshiro256StarStar.xoshiro256starstar_h}
  (iter : Z) (st : Xoshiro256StarStar.xoshiro256starstar_state) :
  Xoshiro256StarStar.jump iter st
  = (inr tt,
     {| Xoshiro256StarStar.s :=
          Xoshiro256StarStar.s
            (Nat.iter (Z.to_nat iter)
                      Xoshiro256StarStar.xoshiro256starstar_jump st);
        Xoshiro256StarStar.has_uint32 := 0;
        Xoshiro256StarStar.uinteger := 0 |}).
Proof.
  unfold Xoshiro256StarStar.jump, for_range, bind.
  rewrite for_each_modify, fold_left_iter, length_seq. reflexivity.
Qed.

(** C6 (amended).  A successful [seed], [advance] or [jump] of ThreeFry32
    leaves [buffer_pos = 4] and four zero buffer words, and [advance]
    succeeds for every [delta] in [0, 2^128); a successful [seed] of
    Xoshiro256StarStar, and every [jump], leaves [has_uint32 = 0] and
    [uinteger = 0].  Restoring a snapshot does not invalidate anything: the
    setter installs the buffer and position, or the flag and half word,
    that the snapshot carries. *)
Theorem cache_invalidation
  {C3 : ThreeFry32.threefry32_h} {CX : Xoshiro256StarStar.xoshiro256starstar_h} :
  (forall seed counter key st st',
     ThreeFry32.seed seed counter key st = (inr tt, st') ->
     ThreeFry32.cache_empty st')
  /\ (forall delta st st',
        ThreeFry32.advance delta st = (inr tt, st') ->
        ThreeFry32.cache_empty st')
  /\ (forall delta st,
        0 <= delta < 2 ^ 128 ->
        fst (ThreeFry32.advance delta st) = inr tt)
  /\ (forall iter st st',
        ThreeFry32.jump iter st = (inr tt, st') ->
        ThreeFry32.cache_empty st')
  /\ (forall seed st st',
        Xoshiro256StarStar.seed seed st = (inr tt, st') ->
        Xoshiro256StarStar.cache_empty st')
  /\ (forall iter st,
        fst (Xoshiro256StarStar.jump iter st) = inr tt
        /\ Xoshiro256StarStar.cache_empty
             (snd (Xoshiro256StarStar.jump iter st)))
  /\ (forall h h',
        ThreeFry32.wf h ->
        let st' := snd (ThreeFry32.set_state (ThreeFry32.state h) h') in
        ThreeFry32.buffer_pos st' = ThreeFry32.buffer_pos h
        /\ ThreeFry32.buffer st' = ThreeFry32.buffer h)
  /\ (forall h h',
        Xoshiro256StarStar.wf h ->
        let st' :=
          snd (Xoshiro256StarStar.set_state (Xoshiro256StarStar.state h) h') in
        Xoshiro256StarStar.has_uint32 st' = Xoshiro256StarStar.has_uint32 h
        /\ Xoshiro256StarStar.uinteger st' = Xoshiro256StarStar.uinteger h).
Proof.
  repeat apply conj.
  - intros seed counter key st st'. apply ThreeFry32_seed_resets.
  - intros delta st st'. apply ThreeFry32_advance_resets.
  - intros delta st Hd. unfold ThreeFry32.advance, int_to_array.
    destruct (Z.ltb_spec delta 0); [lia |].
    destruct (Z.leb_spec (2 ^ 128) delta); [lia |].
    reflexivity.
  - intros iter st st'. unfold ThreeFry32.jump.
    apply ThreeFry32_advance_resets.
  - intros seed st st'. apply Xoshiro256StarStar_seed_resets.
  - intros iter st. rewrite Xoshiro256StarStar_jump_eq. repeat split.
  - intros h h' Hwf. cbv zeta. rewrite (ThreeFry32_set_get h' Hwf).
    split; reflexivity.
  - intros h h' Hwf. cbv zeta.
    rewrite (Xoshiro256StarStar_set_get h' Hwf). split; reflexivity.
Qed.

End Cache.

(** C6, concrete runs: re-seeding, advancing and jumping a handle in the
    middle of a block, re-seeding and jumping a handle with a pending half
    word, and restoring a snapshot that carries one. *)
Lemma cache_invalidation_witness :
  ThreeFry32.cache_empty
    (snd (ThreeFry32.seed (E := Reference.no_entropy)
            (SeedInt 1) None None threefry_mid_block))
  /\ ThreeFry32.cache_empty
       (snd (ThreeFry32.advance (C := ThreeFry32.spec_threefry32)
               3 threefry_mid_block))
  /\ ThreeFry32.cache_empty
       (snd (ThreeFry32.jump (C := ThreeFry32.spec_threefry32)
               2 threefry_mid_block))
  /\ Xoshiro256StarStar.cache_empty
       (snd (Xoshiro256StarStar.seed (E := Reference.no_entropy)
               (SeedInt 1) xoshiro_half_served))
  /\ Xoshiro256StarStar.cache_empty
       (snd (Xoshiro256StarStar.jump (C := Reference.ref_xoshiro)
               1 xoshiro_half_served))
  /\ Xoshiro256StarStar.has_uint32
       (snd (Xoshiro256StarStar.set_state
               (Xoshiro256StarStar.state xoshiro_half_served) xoshiro_fresh))
     = 1.
Proof.
  destruct (cache_invalidation (E := Reference.no_entropy)
              (C3 := ThreeFry32.spec_threefry32) (CX := Reference.ref_xoshiro))
    as (Hseed & Hadv & _ & Hjump & Hxseed & Hxjump & _ & Hxset).
  refine (conj _ (conj _ (conj _ (conj _ (conj _ _))))).
  - apply (Hseed (SeedInt 1) None None threefry_mid_block).
    vm_compute. reflexivity.
  - apply (Hadv 3 threefry_mid_block). vm_compute. reflexivity.
  - apply (Hjump 2 threefry_mid_block). vm_compute. reflexivity.
  - apply (Hxseed (SeedInt 1) xoshiro_half_served). vm_compute. reflexivity.
  - apply Hxjump.
  - apply (Hxset xoshiro_half_served xoshiro_fresh wf_xoshiro_half_served).
Defined.

(** C6, the claim as stated fails: restoring a snapshot that carries a
    pending half word (has_uint32 = 1, uinteger = 0xABCD) into a fresh
    handle does not wipe it. *)
Lemma Xoshiro256StarStar_restore_keeps_half_word :
  Xoshiro256StarStar.set_state
    (PyDict [("brng"%string, PyStr "Xoshiro256StarStar");
             ("s"%string, PyList [PyInt 1; PyInt 2; PyInt 3; PyInt 4]);
             ("has_uint32"%string, PyInt 1);
             ("uinteger"%string, PyInt 0xABCD)])
    xoshiro_fresh
  = (inr tt,
     {| Xoshiro256StarStar.s := Arr4 1 2 3 4;
        Xoshiro256StarStar.has_uint32 := 1;
        Xoshiro256StarStar.uinteger := 0xABCD |}).
Proof. reflexivity. Qed.

(** ** Jump algebra (claim C3) *)

(** *** The wire form of a 128-bit integer *)

Lemma int_to_array_128 (v : Z) (name : string) :
  0 <= v < 2 ^ 128 ->
  int_to_array v name 128 32 = inr (list4 (words4 v)).
Proof.
  intros Hv. unfold int_to_array.
  destruct (Z.ltb_spec v 0); [lia |].
  destruct (Z.leb_spec (2 ^ 128) v); [lia |].
  reflexivity.
Qed.

Lemma int_to_array_128_out (v : Z) (name : string) :
  v < 0 \/ 2 ^ 128 <= v ->
  int_to_array v name 128 32 = inl ValueError.
Proof.
  intros Hv. unfold int_to_array.
  destruct (Z.ltb_spec v 0); [reflexivity |].
  destruct (Z.leb_spec (2 ^ 128) v); [reflexivity | lia].
Qed.

(** The word array of [x] stands for [x]: the two directions of the wire
    form are inverse on [0, 2^128). *)
Lemma array_to_int_words4 (x : Z) :
  0 <= x < 2 ^ 128 -> array_to_int 32 (list4 (words4 x)) = x.
Proof.
  intros Hx. unfold words4, list4. cbn [w0 w1 w2 w3 array_to_int].
  rewrite !Z.land_ones by lia. rewrite !Z.shiftr_div_pow2 by lia.
  change (32 * 0) with 0. change (32 * 1) with 32.
  change (32 * 2) with (32 + 32). change (32 * 3) with (32 + 32 + 32).
  rewrite !Z.pow_add_r by lia. change (2 ^ 0) with 1. rewrite Z.div_1_r.
  rewrite <- !Z.div_div by lia.
  set (q1 := x / 2 ^ 32). set (q2 := q1 / 2 ^ 32). set (q3 := q2 / 2 ^ 32).
  assert (H0 : x = 2 ^ 32 * q1 + x mod 2 ^ 32) by (apply Z.div_mod; lia).
  assert (H1 : q1 = 2 ^ 32 * q2 + q1 mod 2 ^ 32) by (apply Z.div_mod; lia).
  assert (H2 : q2 = 2 ^ 32 * q3 + q2 mod 2 ^ 32) by (apply Z.div_mod; lia).
  assert (H3 : q3 mod 2 ^ 32 = q3).
  { apply Z.mod_small. subst q3 q2 q1.
    split.
    - repeat apply Z.div_pos; lia.
    - repeat (apply Z.div_lt_upper_bound; [lia |]).
      change (2 ^ 32 * (2 ^ 32 * (2 ^ 32 * 2 ^ 32))) with (2 ^ 128). lia. }
  rewrite H3. lia.
Qed.

Section ThreeFry32_Jump.

Local Abbreviation advance :=
  (ThreeFry32.advance (C := ThreeFry32.spec_threefry32)).

(** [advance] in closed form: the counter moves by [delta] modulo 2^128
    and the buffer is emptied. *)
Lemma ThreeFry32_advance_eq (delta : Z) (st : ThreeFry32.threefry32_state) :
  0 <= delta < 2 ^ 128 ->
  advance delta st
  = (inr tt,
     {| ThreeFry32.ctr :=
          words4 ((array_to_int 32 (list4 (ThreeFry32.ctr st)) + delta)
                  mod 2 ^ 128);
        ThreeFry32.key := ThreeFry32.key st;
        ThreeFry32.buffer_pos := 4;
        ThreeFry32.buffer := Arr4 0 0 0 0 |}).
Proof.
  intros Hd. unfold ThreeFry32.advance.
  rewrite (@int_to_array_128 delta "step" Hd), bind_lift_inr, bind_modify.
  rewrite ThreeFry32_reset_state_variables.
  cbn [ThreeFry32.threefry32_advance ThreeFry32.spec_threefry32].
  unfold ThreeFry32.threefry32_advance_spec.
  cbn [ThreeFry32.ctr ThreeFry32.key]. rewrite (array_to_int_words4 Hd).
  reflexivity.
Qed.

(** [n >= 1] advances by [d] in a row move the counter by [n * d]. *)
Lemma ThreeFry32_advance_repeat (d : Z) (n : nat)
  (st : ThreeFry32.threefry32_state) :
  0 <= d < 2 ^ 128 ->
  repeat_m (S n) (advance d) st
  = (inr tt,
     {| ThreeFry32.ctr :=
          words4 ((array_to_int 32 (list4 (ThreeFry32.ctr st))
                   + Z.of_nat (S n) * d) mod 2 ^ 128);
        ThreeFry32.key := ThreeFry32.key st;
        ThreeFry32.buffer_pos := 4;
        ThreeFry32.buffer := Arr4 0 0 0 0 |}).
Proof.
  intros Hd. induction n as [| n IH].
  - replace (Z.of_nat 1 * d) with d by lia.
    cbn [repeat_m]. unfold bind. rewrite (ThreeFry32_advance_eq st Hd).
    reflexivity.
  - replace (Z.of_nat (S (S n)) * d) with (Z.of_nat (S n) * d + d) by lia.
    rewrite repeat_m_succ_r. unfold bind at 1. rewrite IH.
    rewrite (ThreeFry32_advance_eq _ Hd).
    cbn [ThreeFry32.ctr ThreeFry32.key].
    rewrite array_to_int_words4 by (apply Z.mod_pos_bound; lia).
    rewrite Zplus_mod_idemp_l, Z.add_assoc. reflexivity.
Qed.

End ThreeFry32_Jump.

Section Xoshiro_Jump.
Context {C : Xoshiro256StarStar.xoshiro256starstar_h}.

Lemma iter_jump_acts_on_s (f : arr4 -> arr4) (n : nat)
  (st : Xoshiro256StarStar.xoshiro256starstar_state) :
  (forall st,
     Xoshiro256StarStar.xoshiro256starstar_jump st
     = {| Xoshiro256StarStar.s := f (Xoshiro256StarStar.s st);
          Xoshiro256StarStar.has_uint32 := Xoshiro256StarStar.has_uint32 st;
          Xoshiro256StarStar.uinteger := Xoshiro256StarStar.uinteger st |}) ->
  Xoshiro256StarStar.s
    (Nat.iter n Xoshiro256StarStar.xoshiro256starstar_jump st)
  = Nat.iter n f (Xoshiro256StarStar.s st).
Proof.
  intros Hf. induction n as [| n IH]; [reflexivity |].
  cbn [Nat.iter nat_rect]. rewrite Hf. cbn [Xoshiro256StarStar.s].
  f_equal. exact IH.
Qed.

(** [n >= 1] calls of [jump(1)] in a row. *)
Lemma Xoshiro256StarStar_jump_repeat (f : arr4 -> arr4) (n : nat)
  (st : Xoshiro256StarStar.xoshiro256starstar_state) :
  (forall st,
     Xoshiro256StarStar.xoshiro256starstar_jump st
     = {| Xoshiro256StarStar.s := f (Xoshiro256StarStar.s st);
          Xoshiro256StarStar.has_uint32 := Xoshiro256StarStar.has_uint32 st;
          Xoshiro256StarStar.uinteger := Xoshiro256StarStar.uinteger st |}) ->
  repeat_m (S n) (Xoshiro256StarStar.jump 1) st
  = (inr tt,
     {| Xoshiro256StarStar.s := Nat.iter (S n) f (Xoshiro256StarStar.s st);
        Xoshiro256StarStar.has_uint32 := 0;
        Xoshiro256StarStar.uinteger := 0 |}).
Proof.
  intros Hf. induction n as [| n IH].
  - cbn [repeat_m]. unfold bind. rewrite Xoshiro256StarStar_jump_eq.
    change (Z.to_nat 1) with 1%nat.
    rewrite iter_jump_acts_on_s with (f := f) by exact Hf. reflexivity.
  - rewrite repeat_m_succ_r. unfold bind at 1. rewrite IH.
    rewrite Xoshiro256StarStar_jump_eq.
    change (Z.to_nat 1) with 1%nat.
    rewrite iter_jump_acts_on_s with (f := f) by exact Hf. reflexivity.
Qed.

End Xoshiro_Jump.

Section Jump_Algebra.
Context {J : MT19937.mt19937_jumper}
        {CX : Xoshiro256StarStar.xoshiro256starstar_h}.

(** C3 (amended).  [MT19937.jump] takes no count: a call without argument
    applies the C jump once, and a call with an argument is a [TypeError]
    that leaves the handle alone.  For Xoshiro256StarStar, whose C jump
    acts on the four state words only, [jump(k)] with [k >= 1] is
    [jump(1)] run [k] times.  For ThreeFry32, with the counter addition of
    the spec, [jump(k)] is [advance(k * 2^64)], and for [1 <= k < 2^64] it
    is [advance(2^64)] run [k] times. *)
Theorem jump_algebra :
  (forall st, MT19937.jump_call [] st = (inr tt, MT19937.mt19937_jump st))
  /\ (forall v args st,
        MT19937.jump_call (v :: args) st = (inl TypeError, st))
  /\ (Xoshiro256StarStar.jump_acts_on_s CX ->
      forall k st,
        1 <= k ->
        Xoshiro256StarStar.jump k st
        = repeat_m (Z.to_nat k) (Xoshiro256StarStar.jump 1) st)
  /\ (forall k st,
        ThreeFry32.jump (C := ThreeFry32.spec_threefry32) k st
        = ThreeFry32.advance (C := ThreeFry32.spec_threefry32) (k * 2 ^ 64) st)
  /\ (forall k st,
        1 <= k < 2 ^ 64 ->
        ThreeFry32.jump (C := ThreeFry32.spec_threefry32) k st
        = repeat_m (Z.to_nat k)
            (ThreeFry32.advance (C := ThreeFry32.spec_threefry32) (2 ^ 64)) st).
Proof.
  repeat apply conj.
  - reflexivity.
  - reflexivity.
  - intros [f Hf] k st Hk.
    destruct (Z.to_nat k) as [| n] eqn:Hn; [lia |].
    rewrite Xoshiro256StarStar_jump_repeat with (f := f) by exact Hf.
    rewrite Xoshiro256StarStar_jump_eq, Hn.
    rewrite iter_jump_acts_on_s with (f := f) by exact Hf. reflexivity.
  - reflexivity.
  - intros k st Hk. unfold ThreeFry32.jump.
    destruct (Z.to_nat k) as [| n] eqn:Hn; [lia |].
    rewrite ThreeFry32_advance_repeat by lia.
    rewrite ThreeFry32_advance_eq by nia.
    rewrite <- Hn, Z2Nat.id by lia. reflexivity.
Qed.

End Jump_Algebra.

(** The reference jump acts on the four state words only. *)
Lemma ref_xoshiro_jump_acts_on_s :
  Xoshiro256StarStar.jump_acts_on_s Reference.ref_xoshiro.
Proof.
  exists (fun a =>
            let '(s0, s1, s2, s3) :=
              Reference.jump_words (w0 a, w1 a, w2 a, w3 a) in
            Arr4 s0 s1 s2 s3).
  intros st. cbn [Xoshiro256StarStar.xoshiro256starstar_jump
                  Reference.ref_xoshiro].
  unfold Reference.ref_xoshiro_jump.
  destruct (Reference.jump_words _) as [[[s0 s1] s2] s3]. reflexivity.
Qed.

(** C3, concrete runs: three jumps of a xoshiro256** handle with a pending
    half word, and three jumps of a ThreeFry32 handle in the middle of a
    block. *)
Lemma jump_algebra_witness :
  Xoshiro256StarStar.jump (C := Reference.ref_xoshiro) 3 xoshiro_half_served
  = repeat_m 3 (Xoshiro256StarStar.jump (C := Reference.ref_xoshiro) 1)
      xoshiro_half_served
  /\ ThreeFry32.jump (C := ThreeFry32.spec_threefry32) 3 threefry_mid_block
     = repeat_m 3
         (ThreeFry32.advance (C := ThreeFry32.spec_threefry32) (2 ^ 64))
         threefry_mid_block.
Proof.
  destruct (jump_algebra (J := {| MT19937.mt19937_jump := fun st => st |})
              (CX := Reference.ref_xoshiro))
    as (_ & _ & Hxo & _ & Htf).
  split.
  - apply (Hxo ref_xoshiro_jump_acts_on_s 3 xoshiro_half_served). lia.
  - apply (Htf 3 threefry_mid_block). lia.
Defined.

(** C3, the claim as stated fails.  [MT19937.jump] accepts no count at
    all; and for the two containers that do, [jump(0)] is not zero
    applications of anything: it still empties the cache (the pending half
    word of xoshiro256**, the two buffered words of ThreeFry32). *)
Lemma jump_zero_is_not_identity :
  (forall (J : MT19937.mt19937_jumper) (st : MT19937.mt19937_state),
     MT19937.jump_call [PyInt 2] st = (inl TypeError, st))
  /\ Xoshiro256StarStar.jump (C := Reference.ref_xoshiro) 0 xoshiro_half_served
     = (inr tt,
        {| Xoshiro256StarStar.s := Arr4 1 2 3 4;
           Xoshiro256StarStar.has_uint32 := 0;
           Xoshiro256StarStar.uinteger := 0 |})
  /\ repeat_m 0 (Xoshiro256StarStar.jump (C := Reference.ref_xoshiro) 1)
       xoshiro_half_served
     = (inr tt, xoshiro_half_served)
  /\ ThreeFry32.jump (C := ThreeFry32.spec_threefry32) 0 threefry_mid_block
     = (inr tt,
        {| ThreeFry32.ctr := Arr4 9 0 0 0;
           ThreeFry32.key := Arr4 1 2 3 4;
           ThreeFry32.buffer_pos := 4;
           ThreeFry32.buffer := Arr4 0 0 0 0 |})
  /\ repeat_m 0 (ThreeFry32.advance (C := ThreeFry32.spec_threefry32) (2 ^ 64))
       threefry_mid_block
     = (inr tt, threefry_mid_block).
Proof. repeat apply conj; reflexivity. Qed.

(** ** The legacy samplers *)

Module LegacyFacts.

Import Legacy.
Local Open Scope float_scope.
Local Open Scope nat_scope.

Section Stream.
Context {B : brng_t} {L : libm}.

Lemma after_draws_add (n m : nat) (b : brng_state) :
  after_draws (n + m) b = after_draws m (after_draws n b).
Proof.
  revert b. induction n as [| n IH]; intro b; [reflexivity |].
  cbn [Nat.add after_draws]. apply IH.
Qed.

Lemma draw_shift (k i : nat) (b : brng_state) :
  draw i (after_draws k b) = draw (k + i) b.
Proof. unfold draw. now rewrite after_draws_add. Qed.

(** [legacy_double] serves the next draw of the stream and touches nothing
    but the handle. *)
Lemma legacy_double_eq (aug : aug_brng_t) :
  legacy_double aug
  = (draw 0 (basicrng aug),
     set_basicrng (after_draws 1 (basicrng aug)) aug).
Proof.
  unfold legacy_double, draw. cbn [after_draws].
  destruct (next_double (basicrng aug)); reflexivity.
Qed.

Lemma set_basicrng_twice (b b' : brng_state) (aug : aug_brng_t) :
  set_basicrng b' (set_basicrng b aug) = set_basicrng b' aug.
Proof. reflexivity. Qed.

Lemma legacy_standard_exponential_eq (aug : aug_brng_t) :
  legacy_standard_exponential aug
  = ((- log (1.0 - draw 0 (basicrng aug)))%float,
     set_basicrng (after_draws 1 (basicrng aug)) aug).
Proof.
  unfold legacy_standard_exponential. rewrite legacy_double_eq. reflexivity.
Qed.

(** *** [legacy_gauss] (claim C1) *)

Lemma gauss_polar_step (fuel : nat) (aug : aug_brng_t) :
  gauss_polar (S fuel) aug
  = let b := basicrng aug in
    let a2 := set_basicrng (after_draws 2 b) aug in
    if polar_rejected (polar_r2 b 0) then gauss_polar fuel a2
    else Some ((polar_x1 b 0, polar_x2 b 0, polar_r2 b 0), a2).
Proof.
  cbn [gauss_polar]. rewrite !legacy_double_eq.
  cbn [basicrng set_basicrng]. rewrite draw_shift. reflexivity.
Qed.

Lemma polar_shift (b : brng_state) (i : nat) :
  polar_x1 (after_draws 2 b) i = polar_x1 b (S i)
  /\ polar_x2 (after_draws 2 b) i = polar_x2 b (S i)
  /\ polar_r2 (after_draws 2 b) i = polar_r2 b (S i).
Proof.
  unfold polar_r2, polar_x1, polar_x2. rewrite !draw_shift.
  replace (2 + 2 * i) with (2 * S i) by lia.
  replace (2 + (2 * i + 1)) with (2 * S i + 1) by lia.
  repeat split.
Qed.

(** The loop returns the first pair of the stream that is not rejected,
    having consumed two uniforms per pair. *)
Lemma gauss_polar_first_accepted (n fuel : nat) (aug : aug_brng_t) :
  (forall i, i < n -> polar_rejected (polar_r2 (basicrng aug) i) = true) ->
  polar_rejected (polar_r2 (basicrng aug) n) = false ->
  n < fuel ->
  gauss_polar fuel aug
  = Some ((polar_x1 (basicrng aug) n, polar_x2 (basicrng aug) n,
           polar_r2 (basicrng aug) n),
          set_basicrng (after_draws (2 * S n) (basicrng aug)) aug).
Proof.
  revert fuel aug. induction n as [| n IH]; intros fuel aug Hrej Hacc Hfuel.
  - destruct fuel as [| fuel]; [lia |].
    rewrite gauss_polar_step. cbv zeta. rewrite Hacc. reflexivity.
  - destruct fuel as [| fuel]; [lia |].
    rewrite gauss_polar_step. cbv zeta. rewrite (Hrej 0) by lia.
    destruct (polar_shift (basicrng aug) n) as (Hx1 & Hx2 & Hr2).
    rewrite IH; cbn [basicrng set_basicrng].
    + rewrite Hx1, Hx2, Hr2, set_basicrng_twice, <- after_draws_add.
      replace (2 + 2 * S n) with (2 * S (S n)) by lia. reflexivity.
    + intros i Hi.
      destruct (polar_shift (basicrng aug) i) as (_ & _ & ->).
      apply Hrej. lia.
    + rewrite Hr2. exact Hacc.
    + lia.
Qed.

(** C1.  With an empty cache, [legacy_gauss] walks the stream of uniforms
    two at a time, forming [x1 = 2u - 1] and [x2 = 2u - 1], and skips every
    pair with [r2 >= 1] or [r2 == 0]; at the first other pair it returns
    [f * x2] and caches [f * x1], [has_gauss] set, where
    [f = sqrt(-2 ln(r2) / r2)].  With a full cache it returns the cached
    value, leaves the handle where it is and empties the cache; so the
    call that follows an accepting call returns [f * x1] without a single
    draw. *)
Theorem legacy_gauss_polar_and_cache :
  (forall fuel aug,
     has_gauss aug = true ->
     legacy_gauss fuel aug
     = Some (gauss aug,
             {| basicrng := basicrng aug; has_gauss := false;
                gauss := 0%float |}))
  /\ (forall fuel aug n,
        has_gauss aug = false ->
        (forall i, i < n ->
           polar_rejected (polar_r2 (basicrng aug) i) = true) ->
        polar_rejected (polar_r2 (basicrng aug) n) = false ->
        n < fuel ->
        let b := basicrng aug in
        let r2 := polar_r2 b n in
        let f := sqrt (-2.0 * log r2 / r2) in
        let cached :=
          {| basicrng := after_draws (2 * S n) b; has_gauss := true;
             gauss := (f * polar_x1 b n)%float |} in
        legacy_gauss fuel aug = Some ((f * polar_x2 b n)%float, cached)
        /\ forall fuel',
             legacy_gauss fuel' cached
             = Some ((f * polar_x1 b n)%float,
                     {| basicrng := after_draws (2 * S n) b;
                        has_gauss := false; gauss := 0%float |})).
Proof.
  split.
  - intros fuel aug Hc. unfold legacy_gauss. rewrite Hc. reflexivity.
  - intros fuel aug n Hc Hrej Hacc Hfuel. cbv zeta. split.
    + unfold legacy_gauss. rewrite Hc.
      rewrite (gauss_polar_first_accepted aug Hrej Hacc Hfuel).
      reflexivity.
    + intros fuel'. reflexivity.
Qed.

End Stream.

(** C1, a concrete run: on the uniforms 0.875, 0.875, 0.25, 0.25 the first
    pair (x1 = x2 = 0.75, r2 = 1.125) is rejected and the second
    (x1 = x2 = -0.5, r2 = 0.5) accepted; the second call returns the cached
    deviate and the tape stays empty. *)
Lemma legacy_gauss_polar_and_cache_witness :
  let f := sqrt (-2.0 * LegacyReference.series_log 0.5 / 0.5) in
  let cached := LegacyReference.on_tape [] true (f * -0.5)%float in
  legacy_gauss (L := LegacyReference.series_libm) 2
    (LegacyReference.on_tape [0.875; 0.875; 0.25; 0.25]%float false 0%float)
  = Some ((f * -0.5)%float, cached)
  /\ legacy_gauss (L := LegacyReference.series_libm) 0 cached
     = Some ((f * -0.5)%float, LegacyReference.on_tape [] false 0%float).
Proof.
  cbv zeta.
  destruct (legacy_gauss_polar_and_cache (B := LegacyReference.tape_brng)
              (L := LegacyReference.series_libm)) as (_ & Hpolar).
  specialize (Hpolar 2
    (LegacyReference.on_tape [0.875; 0.875; 0.25; 0.25]%float false 0%float)
    1).
  cbv zeta in Hpolar.
  destruct Hpolar as (Hfirst & Hsecond).
  - reflexivity.
  - intros i Hi. assert (i = 0) as -> by lia. vm_compute. reflexivity.
  - vm_compute. reflexivity.
  - lia.
  - split; [exact Hfirst | exact (Hsecond 0)].
Defined.

(** On the constant stream 0.25, 0.25, ... the first pair is accepted at
    once (r2 = 0.5); its companion deviate is cached and served by the
    second call. *)
Lemma legacy_gauss_constant_stream :
  let f := sqrt (-2.0 * LegacyReference.series_log 0.5 / 0.5) in
  legacy_gauss (L := LegacyReference.series_libm) 1
    (LegacyReference.on_tape [] false 0%float)
  = Some ((f * -0.5)%float, LegacyReference.on_tape [] true (f * -0.5)%float)
  /\ legacy_gauss (L := LegacyReference.series_libm) 1
       (LegacyReference.on_tape [] true (f * -0.5)%float)
     = Some ((f * -0.5)%float, LegacyReference.on_tape [] false 0%float).
Proof. split; vm_compute; reflexivity. Qed.

(** *** Comparisons and NaN in binary64 *)

Lemma SFcompare_antisym (x y : spec_float) (c : comparison) :
  SFcompare x y = Some c -> SFcompare y x = Some (CompOpp c).
Proof.
  destruct x as [sx | sx | | sx mx ex], y as [sy | sy | | sy my ey];
    cbn [SFcompare]; try discriminate;
    intros H; injection H as <-;
    try (destruct sx; reflexivity); try (destruct sy; reflexivity);
    try (destruct sx, sy; reflexivity).
  pose proof (Pos.compare_cont_antisym mx my Eq) as Hm. cbn [CompOpp] in Hm.
  destruct sx, sy; try reflexivity;
    rewrite (Z.compare_antisym ex ey);
    destruct (ex ?= ey)%Z; cbn [CompOpp]; try reflexivity;
    rewrite <- Hm; reflexivity.
Qed.

Lemma float_ltb_eqb (x y : float) :
  (x <? y)%float = true -> (x =? y)%float = false.
Proof.
  rewrite ltb_spec, eqb_spec. unfold SFltb, SFeqb.
  destruct (SFcompare (Prim2SF x) (Prim2SF y)) as [[| |] |]; congruence.
Qed.

Lemma float_ltb_flip (x y : float) :
  (x <? y)%float = true ->
  (y <? x)%float = false /\ (y =? x)%float = false.
Proof.
  rewrite !ltb_spec, eqb_spec. unfold SFltb, SFeqb.
  destruct (SFcompare (Prim2SF x) (Prim2SF y)) as [[| |] |] eqn:Hc;
    try discriminate.
  intros _. rewrite (SFcompare_antisym _ _ Hc). split; reflexivity.
Qed.

(** A shape above one fails the three tests that come first. *)
Lemma float_above_one (x : float) :
  (1 <? x)%float = true ->
  (x =? 1)%float = false /\ (x =? 0)%float = false /\ (x <? 1)%float = false.
Proof.
  intros H. destruct (float_ltb_flip H) as (Hlt & Heq).
  repeat split; try assumption.
  rewrite ltb_spec in H. rewrite eqb_spec.
  change (Prim2SF 1) with (S754_finite false 4503599627370496 (-52)) in H.
  change (Prim2SF 0) with (S754_zero false).
  destruct (Prim2SF x) as [s | s | | s m e]; try discriminate H;
    unfold SFeqb; cbn [SFcompare]; destruct s; reflexivity.
Qed.

Lemma is_nan_inv (x : float) : is_nan x = true -> x = nan.
Proof.
  unfold is_nan. rewrite eqb_spec. intros H.
  apply Prim2SF_inj. change (Prim2SF nan) with S754_nan.
  destruct (Prim2SF x) as [s | s | | s m e]; try reflexivity;
    exfalso; revert H; unfold SFeqb; cbn [SFcompare].
  - discriminate.
  - destruct s; discriminate.
  - rewrite Z.compare_refl, Pos.compare_cont_refl.
    destruct s; discriminate.
Qed.

Lemma add_nan_r (x : float) : (x + nan)%float = nan.
Proof.
  apply Prim2SF_inj. rewrite add_spec.
  change (Prim2SF nan) with S754_nan.
  destruct (Prim2SF x) as [s | s | | s m e]; reflexivity.
Qed.

(** *** [legacy_standard_gamma] (claim C4) *)

Section Gamma.
Context {B : brng_t} {L : libm}.

Lemma gamma_small_step (n : nat) (aug : aug_brng_t) (shape : float) :
  gamma_small (S n) aug shape
  = let b := basicrng aug in
    let a2 := set_basicrng (after_draws 2 b) aug in
    match gamma_small_trial shape (small_U b 0) (small_V b 0) with
    | Some X => Some (X, a2)
    | None => gamma_small n a2 shape
    end.
Proof.
  cbn [gamma_small].
  rewrite legacy_double_eq, legacy_standard_exponential_eq.
  cbn [basicrng set_basicrng]. rewrite draw_shift.
  rewrite set_basicrng_twice, <- after_draws_add.
  cbv zeta. unfold gamma_small_trial, small_U, small_V.
  cbn [Nat.add Nat.mul].
  destruct (draw 0 (basicrng aug) <=? 1.0 - shape)%float.
  - destruct (pow _ _ <=? _)%float; reflexivity.
  - destruct (pow _ _ <=? _)%float; reflexivity.
Qed.

Lemma small_shift (b : brng_state) (i : nat) :
  small_U (after_draws 2 b) i = small_U b (S i)
  /\ small_V (after_draws 2 b) i = small_V b (S i).
Proof.
  unfold small_U, small_V. rewrite !draw_shift.
  replace (2 + 2 * i) with (2 * S i) by lia.
  replace (2 + (2 * i + 1)) with (2 * S i + 1) by lia.
  split; reflexivity.
Qed.

(** The [shape < 1] loop returns the value of the first accepted trial,
    having consumed one uniform and one exponential (itself one uniform)
    per trial, in this order. *)
Lemma gamma_small_first_accepted (n fuel : nat) (aug : aug_brng_t)
  (shape X : float) :
  (forall i, i < n ->
     gamma_small_trial shape (small_U (basicrng aug) i)
                       (small_V (basicrng aug) i) = None) ->
  gamma_small_trial shape (small_U (basicrng aug) n)
                    (small_V (basicrng aug) n) = Some X ->
  n < fuel ->
  gamma_small fuel aug shape
  = Some (X, set_basicrng (after_draws (2 * S n) (basicrng aug)) aug).
Proof.
  revert fuel aug. induction n as [| n IH]; intros fuel aug Hrej Hacc Hfuel.
  - destruct fuel as [| fuel]; [lia |].
    rewrite gamma_small_step. cbv zeta. rewrite Hacc. reflexivity.
  - destruct fuel as [| fuel]; [lia |].
    rewrite gamma_small_step. cbv zeta. rewrite (Hrej 0) by lia.
    rewrite IH; cbn [basicrng set_basicrng].
    + rewrite set_basicrng_twice, <- after_draws_add.
      replace (2 + 2 * S n) with (2 * S (S n)) by lia. reflexivity.
    + intros i Hi. destruct (small_shift (basicrng aug) i) as (-> & ->).
      apply Hrej. lia.
    + destruct (small_shift (basicrng aug) n) as (-> & ->). exact Hacc.
    + lia.
Qed.

Lemma gamma_large_step (fuel n : nat) (aug : aug_brng_t) (b c : float) :
  gamma_large fuel (S n) aug b c
  = match gamma_large_trial fuel aug b c with
    | None => None
    | Some (Some x, a2) => Some (x, a2)
    | Some (None, a2) => gamma_large fuel n a2 b c
    end.
Proof.
  cbn [gamma_large]. unfold gamma_large_trial.
  destruct (gamma_gauss fuel fuel aug c) as [[[X V] a1] |]; [| reflexivity].
  destruct (legacy_double a1) as [U a2].
  destruct (U <? _)%float; [reflexivity |].
  destruct (log U <? _)%float; reflexivity.
Qed.

(** The outer loop of the last branch returns the value of the first
    accepted outer trial. *)
Lemma gamma_large_first_accepted (n k fuel : nat) (aug a a' : aug_brng_t)
  (b c x : float) :
  gamma_large_rejected fuel n aug b c = Some a ->
  gamma_large_trial fuel a b c = Some (Some x, a') ->
  n < k ->
  gamma_large fuel k aug b c = Some (x, a').
Proof.
  revert k aug. induction n as [| n IH]; intros k aug Hrej Hacc Hk.
  - destruct k as [| k]; [lia |]. cbn [gamma_large_rejected] in Hrej.
    injection Hrej as ->. rewrite gamma_large_step, Hacc. reflexivity.
  - destruct k as [| k]; [lia |]. cbn [gamma_large_rejected] in Hrej.
    rewrite gamma_large_step.
    destruct (gamma_large_trial fuel aug b c) as [[[y |] a2] |];
      try discriminate.
    apply IH; [exact Hrej | exact Hacc | lia].
Qed.

(** An outer trial draws its gauss values through [legacy_gauss] and then
    exactly one uniform. *)
Lemma gamma_large_trial_draws (fuel : nat) (aug a2 : aug_brng_t)
  (b c : float) (r : option float) :
  gamma_large_trial fuel aug b c = Some (r, a2) ->
  exists X V a1,
    gamma_gauss fuel fuel aug c = Some ((X, V), a1)
    /\ a2 = set_basicrng (after_draws 1 (basicrng a1)) a1.
Proof.
  unfold gamma_large_trial.
  destruct (gamma_gauss fuel fuel aug c) as [[[X V] a1] |]; [| discriminate].
  rewrite legacy_double_eq. intros H. exists X, V, a1. split; [reflexivity |].
  destruct (_ <? _)%float; [| destruct (_ <? _)%float];
    injection H as _ <-; reflexivity.
Qed.

(** The gauss values, one call at a time. *)
Lemma gauss_call_S (fuel k : nat) (aug a1 : aug_brng_t) (X : float) :
  legacy_gauss fuel aug = Some (X, a1) ->
  gauss_call fuel (S k) aug = gauss_call fuel k a1.
Proof.
  intros H. unfold gauss_call. cbn [after_gauss]. rewrite H. reflexivity.
Qed.

Lemma forallb_seq_shift (f g : nat -> bool) (s k : nat) :
  (forall i, f (S i) = g i) ->
  forallb f (seq (S s) k) = forallb g (seq s k).
Proof.
  intros Hfg. revert s. induction k as [| k IH]; intro s; [reflexivity |].
  cbn [seq forallb]. rewrite Hfg, IH. reflexivity.
Qed.

Lemma gauss_all_retried_S (fuel k : nat) (c X : float)
  (aug a1 : aug_brng_t) :
  legacy_gauss fuel aug = Some (X, a1) ->
  gauss_all_retried fuel c (S k) aug
  = gauss_retried c X && gauss_all_retried fuel c k a1.
Proof.
  intros H. unfold gauss_all_retried. cbn [seq forallb].
  change (gauss_call fuel 0 aug) with (legacy_gauss fuel aug). rewrite H.
  f_equal. apply forallb_seq_shift. intros i.
  rewrite gauss_call_S with (X := X) (a1 := a1) by exact H. reflexivity.
Qed.

(** The inner loop keeps the first gauss value with [V > 0], or with a NaN
    [V]: every value before it has been drawn through [legacy_gauss] and
    thrown away. *)
Lemma gamma_gauss_at (k n fuel : nat) (aug a1 : aug_brng_t) (c X : float) :
  gauss_all_retried fuel c k aug = true ->
  gauss_call fuel k aug = Some (X, a1) ->
  gauss_retried c X = false ->
  k < n ->
  gamma_gauss fuel n aug c = Some ((X, (1.0 + c * X)%float), a1).
Proof.
  revert n aug. induction k as [| k IH]; intros n aug Hall Hk Hkeep Hn.
  - destruct n as [| n]; [lia |]. cbn [gamma_gauss].
    change (gauss_call fuel 0 aug) with (legacy_gauss fuel aug) in Hk.
    rewrite Hk. cbv zeta. unfold gauss_retried in Hkeep. rewrite Hkeep.
    reflexivity.
  - destruct n as [| n]; [lia |]. cbn [gamma_gauss].
    destruct (legacy_gauss fuel aug) as [[X0 a0] |] eqn:H0.
    + rewrite gauss_all_retried_S with (X := X0) (a1 := a0) in Hall
        by exact H0.
      apply andb_true_iff in Hall. destruct Hall as (Hretry & Hall).
      rewrite gauss_call_S with (X := X0) (a1 := a0) in Hk by exact H0.
      cbv zeta. unfold gauss_retried in Hretry. rewrite Hretry.
      apply IH; [exact Hall | exact Hk | exact Hkeep | lia].
    + unfold gauss_all_retried in Hall. cbn [seq forallb] in Hall.
      change (gauss_call fuel 0 aug) with (legacy_gauss fuel aug) in Hall.
      rewrite H0 in Hall. discriminate Hall.
Qed.

Lemma gamma_large_trial_at_eq (fuel k : nat) (aug a2 : aug_brng_t)
  (b c : float) (r : option float) :
  gamma_large_trial_at fuel k aug b c = Some (r, a2) ->
  k < fuel ->
  gamma_large_trial fuel aug b c = Some (r, a2).
Proof.
  unfold gamma_large_trial_at. intros H Hk.
  destruct (gauss_all_retried fuel c k aug) eqn:Hall; [| discriminate H].
  destruct (gauss_call fuel k aug) as [[X a1] |] eqn:Hcall; [| discriminate H].
  destruct (gauss_retried c X) eqn:Hkeep; [discriminate H |].
  cbv zeta in H. injection H as <- <-.
  unfold gamma_large_trial.
  rewrite gamma_gauss_at with (k := k) (X := X) (a1 := a1) by assumption.
  rewrite legacy_double_eq. unfold gamma_large_accepts.
  destruct (_ <? _)%float; [reflexivity |].
  destruct (_ <? _)%float; reflexivity.
Qed.

Lemma gamma_large_rejected_at_eq (fuel : nat) (ks : list nat)
  (aug a : aug_brng_t) (b c : float) :
  gamma_large_rejected_at fuel ks aug b c = Some a ->
  Forall (fun k => k < fuel) ks ->
  gamma_large_rejected fuel (List.length ks) aug b c = Some a.
Proof.
  revert aug. induction ks as [| k ks IH]; intros aug H Hks.
  - exact H.
  - cbn [gamma_large_rejected_at] in H.
    cbn [List.length gamma_large_rejected].
    apply Forall_cons_iff in Hks. destruct Hks as (Hk & Hks).
    destruct (gamma_large_trial_at fuel k aug b c) as [[[y |] a2] |] eqn:Ht;
      try discriminate H.
    rewrite gamma_large_trial_at_eq with (k := k) (r := @None float) (a2 := a2)
      by assumption.
    apply IH; assumption.
Qed.

(** C4.  [legacy_standard_gamma] takes its branches in this order:
    [shape == 1] returns one standard exponential, [-log(1 - u)] of the
    next uniform; otherwise [shape == 0] returns 0.0 and draws nothing;
    otherwise [shape < 1] runs trials of one uniform [U] followed by one
    standard exponential [V] until one of the two acceptance tests,
    selected by [U <= 1 - shape], holds; and a shape above one runs
    outer trials with [b = shape - 1/3] and [c = 1 / sqrt(9 b)].  An outer
    trial calls [legacy_gauss] until a value [X] has [V = 1 + c X] not
    [<= 0], draws exactly one uniform [U], and returns [b V^3] when the
    squeeze test or the logarithm test accepts; the first trial that
    accepts ends the run.  The gauss values go through the cache of
    [legacy_gauss]: the call that follows a call on an empty cache returns
    the cached companion and draws nothing, within a trial and across
    rejected trials alike. *)
Theorem legacy_standard_gamma_branches :
  (forall fuel aug shape,
     (shape =? 1)%float = true ->
     legacy_standard_gamma fuel aug shape
     = Some ((- log (1.0 - draw 0 (basicrng aug)))%float,
             set_basicrng (after_draws 1 (basicrng aug)) aug))
  /\ (forall fuel aug shape,
        (shape =? 1)%float = false -> (shape =? 0)%float = true ->
        legacy_standard_gamma fuel aug shape = Some (0%float, aug))
  /\ (forall fuel aug shape n X,
        (shape =? 0)%float = false -> (shape <? 1)%float = true ->
        (forall i, i < n ->
           gamma_small_trial shape (small_U (basicrng aug) i)
                             (small_V (basicrng aug) i) = None) ->
        gamma_small_trial shape (small_U (basicrng aug) n)
                          (small_V (basicrng aug) n) = Some X ->
        n < fuel ->
        legacy_standard_gamma fuel aug shape
        = Some (X, set_basicrng (after_draws (2 * S n) (basicrng aug)) aug))
  /\ (forall fuel aug shape ks k a x a',
        (1 <? shape)%float = true ->
        let b := (shape - 1.0 / 3.0)%float in
        let c := (1.0 / sqrt (9.0 * b))%float in
        gamma_large_rejected_at fuel ks aug b c = Some a ->
        gamma_large_trial_at fuel k a b c = Some (Some x, a') ->
        Forall (fun j => j < fuel) (k :: ks) ->
        List.length ks < fuel ->
        legacy_standard_gamma fuel aug shape = Some (x, a'))
  /\ (forall fuel aug X a1,
        has_gauss aug = false ->
        legacy_gauss fuel aug = Some (X, a1) ->
        gauss_call fuel 1 aug
        = Some (gauss a1,
                {| basicrng := basicrng a1; has_gauss := false;
                   gauss := 0%float |})).
Proof.
  refine (conj _ (conj _ (conj _ (conj _ _)))).
  - intros fuel aug shape H1. unfold legacy_standard_gamma. rewrite H1.
    rewrite legacy_standard_exponential_eq. reflexivity.
  - intros fuel aug shape H1 H0. unfold legacy_standard_gamma.
    rewrite H1, H0. reflexivity.
  - intros fuel aug shape n X H0 Hlt Hrej Hacc Hfuel.
    unfold legacy_standard_gamma.
    rewrite (float_ltb_eqb Hlt), H0, Hlt.
    apply gamma_small_first_accepted; assumption.
  - intros fuel aug shape ks k a x a' Hgt. cbv zeta.
    intros Hrej Hacc Hks Hfuel.
    apply Forall_cons_iff in Hks. destruct Hks as (Hk & Hks).
    unfold legacy_standard_gamma.
    destruct (float_above_one Hgt) as (-> & -> & ->).
    eapply gamma_large_first_accepted.
    + apply gamma_large_rejected_at_eq; eassumption.
    + eapply gamma_large_trial_at_eq; eassumption.
    + exact Hfuel.
  - intros fuel aug X a1 Hc Hg.
    rewrite gauss_call_S with (X := X) (a1 := a1) by exact Hg.
    change (gauss_call fuel 0 a1) with (legacy_gauss fuel a1).
    unfold legacy_gauss in Hg. rewrite Hc in Hg.
    destruct (gauss_polar fuel aug) as [[[[x1 x2] r2] a] |];
      [| discriminate Hg].
    injection Hg as _ <-. reflexivity.
Qed.

End Gamma.

(** C4, concrete runs, one per branch.  With shape 0.5 the first trial
    (U = 0.5, u = 0.125) is rejected and the second (U = 0.25, u = 0.25)
    accepted.  With shape 2.5 the first outer trial draws a polar pair and
    the uniform 1 - 2^-10 and is rejected; the second takes its gauss value
    from the cache and is accepted on the uniform 0.25.  With shape 1.0625
    the gauss value of the polar pair (0.5, 0.5 - 2^-9) has [V <= 0] and is
    thrown away; the inner loop goes round, finds the cached 0.0, and the
    trial returns [b]. *)
Lemma legacy_standard_gamma_branches_witness :
  let run := legacy_standard_gamma (B := LegacyReference.tape_brng)
               (L := LegacyReference.series_libm) 2 in
  let tape l := LegacyReference.on_tape l false 0%float in
  let g :=
    (sqrt (-2.0 * LegacyReference.series_log 0.5 / 0.5) * -0.5)%float in
  let b := (2.5 - 1.0 / 3.0)%float in
  let V := (1.0 + 1.0 / sqrt (9.0 * b) * g)%float in
  let b' := (1.0625 - 1.0 / 3.0)%float in
  let V' := (1.0 + 1.0 / sqrt (9.0 * b') * 0)%float in
  run (tape [0.25]%float) 1%float
  = Some ((- LegacyReference.series_log (1.0 - 0.25))%float, tape [])
  /\ run (tape [0.25]%float) 0%float = Some (0%float, tape [0.25]%float)
  /\ run (tape [0.5; 0.125; 0.25; 0.25]%float) 0.5%float
     = Some (pow (libm := LegacyReference.series_libm) 0.25 (1.0 / 0.5),
             tape [])
  /\ run (tape [0.25; 0.25; 0.9990234375; 0.25]%float) 2.5%float
     = Some ((b * (V * V * V))%float, tape [])
  /\ run (tape [0.5; 0.498046875; 0.25]%float) 1.0625%float
     = Some ((b' * (V' * V' * V'))%float, tape []).
Proof.
  cbv zeta.
  destruct (legacy_standard_gamma_branches (B := LegacyReference.tape_brng)
              (L := LegacyReference.series_libm))
    as (Hone & Hzero & Hsmall & Hlarge & _).
  refine (conj _ (conj _ (conj _ (conj _ _)))).
  - rewrite Hone by reflexivity. reflexivity.
  - rewrite Hzero by reflexivity. reflexivity.
  - rewrite (Hsmall 2
               (LegacyReference.on_tape [0.5; 0.125; 0.25; 0.25]%float
                                        false 0%float)
               0.5%float 1
               (pow (libm := LegacyReference.series_libm) 0.25 (1.0 / 0.5))).
    + reflexivity.
    + reflexivity.
    + reflexivity.
    + intros i Hi. assert (i = 0) as -> by lia. vm_compute. reflexivity.
    + vm_compute. reflexivity.
    + lia.
  - set (g := (sqrt (-2.0 * LegacyReference.series_log 0.5 / 0.5) * -0.5)%float).
    set (b := (2.5 - 1.0 / 3.0)%float).
    set (V := (1.0 + 1.0 / sqrt (9.0 * b) * g)%float).
    apply (Hlarge 2
             (LegacyReference.on_tape [0.25; 0.25; 0.9990234375; 0.25]%float
                                      false 0%float)
             2.5%float [0] 0
             (LegacyReference.on_tape [0.25]%float true g)
             (b * (V * V * V))%float
             (LegacyReference.on_tape [] false 0%float)).
    + reflexivity.
    + vm_compute. reflexivity.
    + vm_compute. reflexivity.
    + repeat constructor.
    + cbn [List.length]. lia.
  - set (b' := (1.0625 - 1.0 / 3.0)%float).
    set (V' := (1.0 + 1.0 / sqrt (9.0 * b') * 0)%float).
    apply (Hlarge 2
             (LegacyReference.on_tape [0.5; 0.498046875; 0.25]%float
                                      false 0%float)
             1.0625%float [] 1
             (LegacyReference.on_tape [0.5; 0.498046875; 0.25]%float
                                      false 0%float)
             (b' * (V' * V' * V'))%float
             (LegacyReference.on_tape [] false 0%float)).
    + reflexivity.
    + reflexivity.
    + vm_compute. reflexivity.
    + repeat constructor.
    + cbn [List.length]. lia.
Defined.

(** *** [legacy_noncentral_chisquare] (claim C5) *)

Section NoncentralChisquare.
Context {B : brng_t} {L : libm}.

Lemma sampler_eta {A} (r : sampler (B := B) A) :
  match r with
  | None => None
  | Some (x, a) => Some (x, a)
  end = r.
Proof. destruct r as [[x a] |]; reflexivity. Qed.

(** C5.  Outside NaN, [legacy_noncentral_chisquare] selects its branch on
    [nonc == 0] first (a central chi-square), then on [1 < df] (a
    chi-square of [df - 1] followed by one gauss value), and otherwise
    draws the Poisson mixture (one Poisson value [i], then a chi-square of
    [df + 2 * i], the product being computed on [long]: it is [2 * i]
    for every count within [-2^62, 2^62), and wraps beyond).  A
    NaN [nonc] fails the [nonc == 0] test, so the draws of the second or
    the third branch are performed as for any other [nonc], and the value
    paired with the state they leave is NaN: in the third branch by the
    guard placed after the chi-square sampling. *)
Theorem legacy_noncentral_chisquare_branches :
  (forall fuel aug df nonc,
     (nonc =? 0)%float = true ->
     legacy_noncentral_chisquare fuel aug df nonc
     = legacy_chisquare fuel aug df)
  /\ (forall fuel aug df nonc,
        (nonc =? 0)%float = false -> (1 <? df)%float = true ->
        legacy_noncentral_chisquare fuel aug df nonc
        = match legacy_chisquare fuel aug (df - 1.0) with
          | None => None
          | Some (Chi2, a1) =>
              match legacy_gauss fuel a1 with
              | None => None
              | Some (g, a2) =>
                  Some ((Chi2 + (g + sqrt nonc) * (g + sqrt nonc))%float, a2)
              end
          end)
  /\ (forall fuel aug df nonc,
        (nonc =? 0)%float = false -> (1 <? df)%float = false ->
        is_nan nonc = false ->
        legacy_noncentral_chisquare fuel aug df nonc
        = let (i, b) := random_poisson (basicrng aug) (nonc / 2.0) in
          legacy_chisquare fuel (set_basicrng b aug)
                           (df + long_to_double (wrap_long (2 * i))))
  /\ (forall nonc, is_nan nonc = true -> (nonc =? 0)%float = false)
  /\ (forall fuel aug df nonc,
        is_nan nonc = true -> (1 <? df)%float = true ->
        legacy_noncentral_chisquare fuel aug df nonc
        = match legacy_chisquare fuel aug (df - 1.0) with
          | None => None
          | Some (_, a1) =>
              match legacy_gauss fuel a1 with
              | None => None
              | Some (_, a2) => Some (nan, a2)
              end
          end)
  /\ (forall fuel aug df nonc,
        is_nan nonc = true -> (1 <? df)%float = false ->
        legacy_noncentral_chisquare fuel aug df nonc
        = let (i, b) := random_poisson (basicrng aug) (nonc / 2.0) in
          match legacy_chisquare
                  fuel (set_basicrng b aug)
                  (df + long_to_double (wrap_long (2 * i))) with
          | None => None
          | Some (_, a2) => Some (nan, a2)
          end)
  /\ (forall i, (- 2 ^ 62 <= i < 2 ^ 62)%Z -> wrap_long (2 * i) = (2 * i)%Z)
  /\ wrap_long (2 * 2 ^ 62) = (- 2 ^ 63)%Z.
Proof.
  refine (conj _ (conj _ (conj _ (conj _ (conj _ (conj _ (conj _ _))))))).
  - intros fuel aug df nonc H0. unfold legacy_noncentral_chisquare.
    rewrite H0. reflexivity.
  - intros fuel aug df nonc H0 Hdf. unfold legacy_noncentral_chisquare.
    rewrite H0, Hdf. reflexivity.
  - intros fuel aug df nonc H0 Hdf Hnan. unfold legacy_noncentral_chisquare.
    rewrite H0, Hdf, Hnan.
    destruct (random_poisson (basicrng aug) (nonc / 2.0)) as [i b].
    apply sampler_eta.
  - intros nonc Hnan. rewrite (is_nan_inv _ Hnan). reflexivity.
  - intros fuel aug df nonc Hnan Hdf. rewrite (is_nan_inv _ Hnan).
    unfold legacy_noncentral_chisquare.
    change (nan =? 0)%float with false. rewrite Hdf.
    destruct (legacy_chisquare fuel aug (df - 1.0)) as [[Chi2 a1] |];
      [| reflexivity].
    destruct (legacy_gauss fuel a1) as [[g a2] |]; [| reflexivity].
    change (sqrt nan) with nan. rewrite (add_nan_r g).
    change (nan * nan)%float with nan. rewrite (add_nan_r Chi2).
    reflexivity.
  - intros fuel aug df nonc Hnan Hdf. rewrite (is_nan_inv _ Hnan).
    unfold legacy_noncentral_chisquare.
    change (nan =? 0)%float with false. rewrite Hdf.
    change (is_nan nan) with true.
    destruct (random_poisson (basicrng aug) (nan / 2.0)) as [i b].
    reflexivity.
  - intros i Hi. unfold wrap_long.
    rewrite Z.mod_small by lia. lia.
  - reflexivity.
Qed.

End NoncentralChisquare.

(** C5, concrete runs on the uniforms 0.25, 0.25, 1 - 2^-10, 0.25, 0.25,
    0.25 with a NaN [nonc]: [df = 6] draws a chi-square of 5 and a gauss
    value (the cached one), [df = 1] draws a Poisson value and a
    chi-square of 1; both return NaN with the tape consumed. *)
Lemma legacy_noncentral_chisquare_branches_witness :
  let run := legacy_noncentral_chisquare (B := LegacyReference.tape_brng)
               (L := LegacyReference.series_libm) 3 in
  let tape :=
    LegacyReference.on_tape
      [0.25; 0.25; 0.9990234375; 0.25; 0.25; 0.25]%float false 0%float in
  let g :=
    (sqrt (-2.0 * LegacyReference.series_log 0.5 / 0.5) * -0.5)%float in
  run tape 6%float nan = Some (nan, LegacyReference.on_tape [] true g)
  /\ run tape 1%float nan
     = Some (nan, LegacyReference.on_tape [0.25; 0.25; 0.25]%float false 0%float)
  /\ run tape 5%float 0%float
     = legacy_chisquare (L := LegacyReference.series_libm) 3 tape 5%float.
Proof.
  cbv zeta.
  destruct (legacy_noncentral_chisquare_branches
              (B := LegacyReference.tape_brng)
              (L := LegacyReference.series_libm))
    as (Hcentral & _ & _ & _ & Hnan_df & Hnan_poisson & _).
  refine (conj _ (conj _ _)).
  - rewrite Hnan_df by reflexivity. vm_compute. reflexivity.
  - rewrite Hnan_poisson by reflexivity. vm_compute. reflexivity.
  - apply Hcentral. reflexivity.
Defined.

End LegacyFacts.

(* ================================================================== *)
(** * Part III: further properties of the containers *)
(* ================================================================== *)

(** ** The MT19937 state setter *)

(** X1.  The MT19937 setter refuses a value that is neither a tuple nor a
    dict with [TypeError], and a dict whose ['brng'] entry is missing or is
    not ['MT19937'] with [ValueError]; the handle is untouched in both
    cases. *)
Theorem MT19937_set_state_guards
  (value : pyval) (st : MT19937.mt19937_state) :
  (is_tuple value = false -> is_dict value = false ->
   MT19937.set_state value st = (inl TypeError, st))
  /\ (is_dict value = true ->
      eq_str (dict_get value "brng" (PyStr "")) "MT19937" = false ->
      MT19937.set_state value st = (inl ValueError, st)).
Proof.
  split.
  - intros Ht Hd. destruct value; try discriminate; reflexivity.
  - intros Hd Htag. destruct value; try discriminate.
    unfold MT19937.set_state, MT19937.legacy_tuple.
    rewrite bind_ret_l. unfold MT19937.set_state_dict.
    cbn [is_dict negb]. unfold MT19937.class_name. rewrite Htag.
    reflexivity.
Qed.

(** X1, concrete runs: an integer, a dict without tag and a ThreeFry32
    snapshot offered to an MT19937 handle. *)
Lemma MT19937_set_state_guards_witness :
  MT19937.set_state (PyInt 7) mt_5489 = (inl TypeError, mt_5489)
  /\ MT19937.set_state (PyDict []) mt_5489 = (inl ValueError, mt_5489)
  /\ MT19937.set_state (ThreeFry32.state threefry_mid_block) mt_5489
     = (inl ValueError, mt_5489).
Proof.
  refine (conj _ (conj _ _)).
  - apply (proj1 (MT19937_set_state_guards (PyInt 7) mt_5489)); reflexivity.
  - apply (proj2 (MT19937_set_state_guards (PyDict []) mt_5489));
      reflexivity.
  - apply (proj2 (MT19937_set_state_guards
                    (ThreeFry32.state threefry_mid_block) mt_5489));
      reflexivity.
Defined.

(** X2.  The legacy tuple of a handle, [('MT19937', key, pos)] with or
    without the two trailing elements of the NumPy format, restores that
    handle: the trailing elements are ignored. *)
Theorem MT19937_legacy_tuple_roundtrip
  (h h' : MT19937.mt19937_state) (rest : list pyval) :
  MT19937.wf h -> MT19937.wf h' ->
  rest = [] \/ List.length rest = 2%nat ->
  MT19937.set_state
    (PyTuple (PyStr "MT19937" :: PyList (map PyInt (MT19937.key h))
              :: PyInt (MT19937.pos h) :: rest)) h'
  = (inr tt, h).
Proof.
  intros Hwf Hwf' Hrest.
  rewrite (@MT19937_set_state_legacy_tuple _ _ rest h' Hrest).
  apply (@MT19937_set_get h h' Hwf (proj1 Hwf')).
Qed.

(** X2, a concrete run: the five-element tuple of the handle seeded with
    5489, with [has_gauss = 0] and [cached_gaussian = None] at the end. *)
Lemma MT19937_legacy_tuple_roundtrip_witness :
  MT19937.set_state
    (PyTuple (PyStr "MT19937" :: PyList (map PyInt (MT19937.key mt_5489))
              :: PyInt (MT19937.pos mt_5489) :: [PyInt 0; PyNone]))
    (Reference.init_genrand 1)
  = (inr tt, mt_5489).
Proof.
  apply (@MT19937_legacy_tuple_roundtrip mt_5489 (Reference.init_genrand 1)
           [PyInt 0; PyNone] wf_init_genrand_5489 wf_init_genrand_1).
  right. reflexivity.
Defined.

(** ** Snapshots across classes, and snapshots with a field missing *)

(** X3.  A snapshot read from a handle of one class is refused by the
    setter of each of the two other classes with [ValueError], and the
    receiving handle is untouched. *)
Theorem snapshot_of_another_class_refused
  (m : MT19937.mt19937_state) (t : ThreeFry32.threefry32_state)
  (x : Xoshiro256StarStar.xoshiro256starstar_state) :
  MT19937.set_state (ThreeFry32.state t) m = (inl ValueError, m)
  /\ MT19937.set_state (Xoshiro256StarStar.state x) m = (inl ValueError, m)
  /\ ThreeFry32.set_state (MT19937.state m) t = (inl ValueError, t)
  /\ ThreeFry32.set_state (Xoshiro256StarStar.state x) t = (inl ValueError, t)
  /\ Xoshiro256StarStar.set_state (MT19937.state m) x = (inl ValueError, x)
  /\ Xoshiro256StarStar.set_state (ThreeFry32.state t) x = (inl ValueError, x).
Proof. repeat apply conj; reflexivity. Qed.

(** X4.  A dict that carries the right tag but lacks the entry the setter
    reads first (['state'] for MT19937 and ThreeFry32, ['s'] for
    Xoshiro256StarStar) raises [KeyError], and nothing has been written. *)
Theorem set_state_missing_field (d : list (string * pyval)) :
  (forall st,
     assoc "brng" d = Some (PyStr "MT19937") -> assoc "state" d = None ->
     MT19937.set_state (PyDict d) st = (inl KeyError, st))
  /\ (forall st,
        assoc "brng" d = Some (PyStr "ThreeFry32") -> assoc "state" d = None ->
        ThreeFry32.set_state (PyDict d) st = (inl KeyError, st))
  /\ (forall st,
        assoc "brng" d = Some (PyStr "Xoshiro256StarStar") ->
        assoc "s" d = None ->
        Xoshiro256StarStar.set_state (PyDict d) st = (inl KeyError, st)).
Proof.
  refine (conj _ (conj _ _)); intros st Htag Hmiss.
  - unfold MT19937.set_state, MT19937.legacy_tuple.
    rewrite bind_ret_l. unfold MT19937.set_state_dict.
    cbn [is_dict negb dict_get]. rewrite Htag. cbn [eq_str].
    change (String.eqb "MT19937" MT19937.class_name) with true.
    cbn [negb]. unfold getitem_str. rewrite Hmiss. reflexivity.
  - unfold ThreeFry32.set_state.
    cbn [is_dict negb dict_get]. rewrite Htag. cbn [eq_str].
    change (String.eqb "ThreeFry32" ThreeFry32.class_name) with true.
    cbn [negb]. unfold for_range. cbn [seq for_each].
    unfold getitem_str. rewrite Hmiss. reflexivity.
  - unfold Xoshiro256StarStar.set_state.
    cbn [is_dict negb dict_get]. rewrite Htag. cbn [eq_str].
    change (String.eqb "Xoshiro256StarStar" Xoshiro256StarStar.class_name)
      with true.
    cbn [negb for_each]. unfold getitem_str. rewrite Hmiss. reflexivity.
Qed.

(** X4, concrete runs: dicts that hold nothing but the tag. *)
Lemma set_state_missing_field_witness :
  MT19937.set_state (PyDict [("brng"%string, PyStr "MT19937")]) mt_5489
  = (inl KeyError, mt_5489)
  /\ ThreeFry32.set_state (PyDict [("brng"%string, PyStr "ThreeFry32")])
       threefry_mid_block
     = (inl KeyError, threefry_mid_block)
  /\ Xoshiro256StarStar.set_state
       (PyDict [("brng"%string, PyStr "Xoshiro256StarStar")])
       xoshiro_half_served
     = (inl KeyError, xoshiro_half_served).
Proof.
  refine (conj _ (conj _ _)).
  - apply (proj1 (set_state_missing_field
                    [("brng"%string, PyStr "MT19937")])); reflexivity.
  - apply (proj1 (proj2 (set_state_missing_field
                           [("brng"%string, PyStr "ThreeFry32")])));
      reflexivity.
  - apply (proj2 (proj2 (set_state_missing_field
                           [("brng"%string, PyStr "Xoshiro256StarStar")])));
      reflexivity.
Defined.

(** ** A key array that is too short *)

Lemma upd_copy_step {A} (src dst : list A) (n : nat) (x : A) :
  nth_error src n = Some x -> (n < List.length dst)%nat ->
  upd n x (firstn n src ++ skipn n dst) = firstn (S n) src ++ skipn (S n) dst.
Proof.
  revert src dst. induction n as [| n IH]; intros src dst Hx Hn.
  - destruct src as [| a src]; [discriminate |].
    destruct dst as [| d dst]; [cbn in Hn; lia |].
    cbn in Hx. injection Hx as ->. reflexivity.
  - destruct src as [| a src]; [discriminate |].
    destruct dst as [| d dst]; [cbn in Hn; lia |].
    cbn in Hx, Hn. cbn [firstn skipn app upd]. f_equal.
    apply IH; [assumption | lia].
Qed.

(** The copy loop of the MT19937 setter over the first [n] cells, for a
    source that may be shorter than the destination. *)
Lemma MT19937_copy_prefix (src dst : list Z) (p : Z) (n : nat) :
  (n <= List.length src)%nat -> (n <= List.length dst)%nat ->
  Forall (fun w => 0 <= w < 2 ^ 32) src ->
  for_each (seq 0 n)
    (fun i =>
       k <- lift (getitem (PyList (map PyInt src)) i) ;;
       w <- lift (to_uint32 k) ;;
       modify (MT19937.set_key i w))
    {| MT19937.key := dst; MT19937.pos := p |}
  = (inr tt,
     {| MT19937.key := firstn n src ++ skipn n dst; MT19937.pos := p |}).
Proof.
  intros Hs Hd Hrange. induction n as [| n IH].
  - reflexivity.
  - rewrite seq_S, for_each_app. unfold bind at 1.
    rewrite IH by lia. cbn [Nat.add for_each].
    destruct (nth_error src n) as [x |] eqn:Hx.
    2: { apply nth_error_None in Hx. lia. }
    assert (Hxr : 0 <= x < 2 ^ 32).
    { rewrite Forall_forall in Hrange. apply Hrange.
      eapply nth_error_In; eassumption. }
    unfold bind, lift, getitem, to_uint32.
    rewrite (@nth_error_map_PyInt _ _ _ Hx), (@to_c_int_in_range _ _ _ Hxr).
    unfold modify, ret, MT19937.set_key. cbn [MT19937.key MT19937.pos].
    rewrite (@upd_copy_step _ src dst n x Hx) by lia. reflexivity.
Qed.

(** X5.  A snapshot whose key holds fewer than 624 words (all of 32 bits)
    raises [IndexError] when the copy loop runs off its end; by then the
    words it does hold have replaced the first words of the handle's key,
    and the position is still the old one. *)
Theorem MT19937_set_state_short_key
  (src : list Z) (p : pyval) (st : MT19937.mt19937_state) :
  (List.length src < 624)%nat ->
  Forall (fun w => 0 <= w < 2 ^ 32) src ->
  List.length (MT19937.key st) = 624%nat ->
  MT19937.set_state
    (PyDict [("brng"%string, PyStr "MT19937");
             ("state"%string,
               PyDict [("key"%string, PyList (map PyInt src));
                       ("pos"%string, p)])]) st
  = (inl IndexError,
     {| MT19937.key := src ++ skipn (List.length src) (MT19937.key st);
        MT19937.pos := MT19937.pos st |}).
Proof.
  intros Hshort Hrange Hlen. destruct st as [dst p0].
  cbn [MT19937.key MT19937.pos] in *.
  rewrite MT19937_set_state_record. unfold for_range.
  set (m := List.length src) in *.
  replace 624%nat with (m + S (623 - m))%nat by lia.
  rewrite seq_app. unfold bind at 1. rewrite for_each_app.
  unfold bind at 1.
  rewrite (@MT19937_copy_prefix src dst p0 m) by (assumption || lia).
  cbn [Nat.add seq for_each].
  unfold bind, lift, getitem.
  assert (Hnone : nth_error (map PyInt src) m = None).
  { apply nth_error_None. rewrite length_map. subst m. lia. }
  rewrite Hnone. subst m. rewrite firstn_all. reflexivity.
Qed.

(** X5, a concrete run: a key of three words. *)
Lemma MT19937_set_state_short_key_witness :
  MT19937.set_state
    (PyDict [("brng"%string, PyStr "MT19937");
             ("state"%string,
               PyDict [("key"%string, PyList (map PyInt [7; 8; 9]));
                       ("pos"%string, PyInt 0)])]) mt_5489
  = (inl IndexError,
     {| MT19937.key := [7; 8; 9] ++ skipn 3 (MT19937.key mt_5489);
        MT19937.pos := 624 |}).
Proof.
  apply (@MT19937_set_state_short_key [7; 8; 9] (PyInt 0) mt_5489).
  - cbn. lia.
  - repeat constructor; lia.
  - reflexivity.
Defined.

(** ** Seeding *)

Import Wire.

Lemma words4_docstring (v : Z) : words4 v = docstring_words v.
Proof.
  unfold words4, docstring_words.
  rewrite !Z.land_ones by lia. rewrite !Z.shiftr_div_pow2 by lia.
  reflexivity.
Qed.

Lemma docstring_words_range (v : Z) :
  all4 (fun w => 0 <= w < 2 ^ 32) (docstring_words v).
Proof.
  unfold all4, docstring_words. cbn [w0 w1 w2 w3].
  repeat split; apply Z.mod_pos_bound; lia.
Qed.

Lemma view_uint32_two (a b : Z) :
  view_uint32 [a; b] = [low32 a; high32 a; low32 b; high32 b].
Proof.
  unfold view_uint32, low32, high32. cbn [flat_map app].
  rewrite !Z.land_ones by lia. rewrite !Z.shiftr_div_pow2 by lia.
  reflexivity.
Qed.

Lemma halves_range (w : Z) :
  0 <= w < 2 ^ 64 -> 0 <= low32 w < 2 ^ 32 /\ 0 <= high32 w < 2 ^ 32.
Proof.
  intros Hw. unfold low32, high32. split.
  - apply Z.mod_pos_bound. lia.
  - split.
    + apply Z.div_pos; lia.
    + apply Z.div_lt_upper_bound; lia.
Qed.

(** Two 32-bit words glued by [lo | hi << 32] make [lo + 2^32 * hi]. *)
Lemma lor_shiftl_join (lo hi : Z) :
  0 <= lo < 2 ^ 32 -> 0 <= hi ->
  Z.lor lo (Z.shiftl hi 32) = join64 lo hi.
Proof.
  intros Hlo Hhi. unfold join64.
  rewrite Z.shiftl_mul_pow2 by lia.
  replace (lo + 2 ^ 32 * hi) with (lo + hi * 2 ^ 32) by lia.
  rewrite <- (Z.add_lor_land lo (hi * 2 ^ 32)).
  replace (Z.land lo (hi * 2 ^ 32)) with 0; [lia |].
  symmetry. apply Z.bits_inj'. intros n Hn.
  rewrite Z.land_spec, Z.bits_0.
  destruct (Z_lt_dec n 32) as [Hlt | Hge].
  - rewrite (Z.mul_pow2_bits_low hi 32 n Hlt). apply andb_false_r.
  - rewrite <- (Z.mod_small lo (2 ^ 32)) by lia.
    rewrite Z.mod_pow2_bits_high by lia. reflexivity.
Qed.

Lemma join64_range (lo hi : Z) :
  0 <= lo < 2 ^ 32 -> 0 <= hi < 2 ^ 32 -> 0 <= join64 lo hi < 2 ^ 64.
Proof. unfold join64. lia. Qed.

(** Runs a seeding method once the collaborators' results are known. *)
Ltac run_seed :=
  unfold for_range; cbn [seq for_each Nat.add];
  unfold bind, lift, modify, ret, try_except;
  repeat first
    [ rewrite to_c_int_in_range by (assumption || lia)
    | progress cbn -[to_c_int Z.pow Z.opp Z.mul Z.div Z.modulo Z.add] ].

Section Seeding.
Context {E : Entropy}.

(** X6.  When the entropy source raises [RuntimeError] both on the first
    request and on the ['fallback'] request, [seed(None)] of each of the
    three containers raises [RuntimeError] and leaves the handle as it
    was. *)
Theorem seed_without_entropy {C : MT19937.mt19937_init} :
  (random_entropy 1 false = inl RuntimeError ->
   random_entropy 1 true = inl RuntimeError ->
   forall st, MT19937.seed SeedNone st = (inl RuntimeError, st))
  /\ (random_entropy 4 false = inl RuntimeError ->
      random_entropy 4 true = inl RuntimeError ->
      forall counter st,
        ThreeFry32.seed SeedNone counter None st = (inl RuntimeError, st))
  /\ (random_entropy 8 false = inl RuntimeError ->
      random_entropy 8 true = inl RuntimeError ->
      forall st,
        Xoshiro256StarStar.seed SeedNone st = (inl RuntimeError, st)).
Proof.
  refine (conj _ (conj _ _)); intros H1 H2.
  - intros st. unfold MT19937.seed, try_except, bind, lift.
    rewrite H1. cbn [exn_eqb]. rewrite H2. reflexivity.
  - intros counter st. unfold ThreeFry32.seed.
    cbn [ThreeFry32.is_none negb andb].
    unfold try_except, bind, lift.
    rewrite H1. cbn [exn_eqb]. rewrite H2. reflexivity.
  - intros st. unfold Xoshiro256StarStar.seed, try_except, bind, lift.
    rewrite H1. cbn [exn_eqb]. rewrite H2. reflexivity.
Qed.

(** X7.  [MT19937.seed(None)] hands the first word of the entropy request
    to [mt19937_seed]; the ['fallback'] request is made when, and only
    when, the first one raises [RuntimeError]. *)
Theorem MT19937_seed_from_entropy {C : MT19937.mt19937_init}
  (w : Z) (rest : list Z) (st : MT19937.mt19937_state) :
  (random_entropy 1 false = inr (w :: rest) ->
   MT19937.seed SeedNone st = (inr tt, MT19937.mt19937_seed st w))
  /\ (random_entropy 1 false = inl RuntimeError ->
      random_entropy 1 true = inr (w :: rest) ->
      MT19937.seed SeedNone st = (inr tt, MT19937.mt19937_seed st w)).
Proof.
  split.
  - intros H1. unfold MT19937.seed, try_except, bind, lift.
    rewrite H1. reflexivity.
  - intros H1 H2. unfold MT19937.seed, try_except, bind, lift.
    rewrite H1. cbn [exn_eqb]. rewrite H2. reflexivity.
Qed.

Lemma map_mod_u32 (l : list Z) :
  Forall (fun x => 0 <= x < 2 ^ 32) l -> map (fun x => x mod 2 ^ 32) l = l.
Proof.
  induction 1 as [| x l Hx _ IH]; [reflexivity |].
  cbn [map]. rewrite IH, Z.mod_small by assumption. reflexivity.
Qed.

Lemma existsb_seed_in_range (l : list Z) :
  Forall (fun x => 0 <= x < 2 ^ 32) l ->
  existsb MT19937.seed_out_of_range l = false.
Proof.
  induction 1 as [| x l Hx _ IH]; [reflexivity |].
  cbn [existsb]. rewrite IH, orb_false_r.
  destruct (MT19937.seed_out_of_range x) eqn:Hout; [| reflexivity].
  apply seed_out_of_range_iff in Hout. lia.
Qed.

(** X8.  Seeds in range.  A Python integer in [0, 2^32 - 1] reaches
    [mt19937_seed] with that value, and so does an array of one element in
    that range, whatever its shape and its dtype: the squeeze makes it a
    scalar.  A non-empty sequence with all elements in that range reaches
    [mt19937_init_by_array] with exactly these words and their number,
    also when it holds one element: a list of one element is not seeded as
    the scalar is.  An array of another size whose dtype is not uint64
    reaches [mt19937_init_by_array] with its elements and the length of
    the first axis the squeeze leaves. *)
Theorem MT19937_seed_in_range {C : MT19937.mt19937_init}
  (st : MT19937.mt19937_state) :
  (forall z, 0 <= z <= 2 ^ 32 - 1 ->
     MT19937.seed (SeedInt z) st = (inr tt, MT19937.mt19937_seed st z))
  /\ (forall a x, nd_wf a -> nd_size a = 1%nat -> nd_data a = [x] ->
        0 <= x <= 2 ^ 32 - 1 ->
        MT19937.seed (SeedNdarray a) st
        = (inr tt, MT19937.mt19937_seed st x))
  /\ (forall l, l <> [] -> Forall (fun x => 0 <= x < 2 ^ 32) l ->
        MT19937.seed (SeedArray l) st
        = (inr tt,
           MT19937.mt19937_init_by_array st l (Z.of_nat (List.length l))))
  /\ (forall a, nd_size a <> 1%nat -> nd_dtype a <> uint64 ->
        Forall (fun x => 0 <= x < 2 ^ 32) (nd_data a) ->
        MT19937.seed (SeedNdarray a) st
        = (inr tt,
           MT19937.mt19937_init_by_array st (nd_data a)
             (PyArray_DIM0 (nd_squeeze a)))).
Proof.
  refine (conj _ (conj _ (conj _ _))).
  - intros z Hz. rewrite MT19937_seed_scalar.
    destruct (MT19937.seed_out_of_range z) eqn:Hout; [| reflexivity].
    apply seed_out_of_range_iff in Hout. lia.
  - intros a x Hwf Hsize Hx Hrange.
    rewrite (MT19937_seed_ndarray_scalar (x := x) (rest := []) a st
               (nd_squeeze_one_element a Hsize) Hx).
    destruct (MT19937.seed_out_of_range x) eqn:Hout; [| reflexivity].
    apply seed_out_of_range_iff in Hout. lia.
  - intros l Hne Hall. rewrite MT19937_seed_array.
    rewrite (@asarray_int64_safe_array l Hne).
    2: { eapply Forall_impl; [| exact Hall]. cbv beta. intros a Ha. lia. }
    cbn [nd_data]. rewrite (existsb_seed_in_range Hall). cbv zeta.
    rewrite (map_mod_u32 Hall). reflexivity.
  - intros a Hsize Hdt Hall.
    rewrite (MT19937_seed_ndarray_array a st (nd_squeeze_keeps_axis a Hsize)).
    rewrite (existsb_seed_in_range Hall), (map_mod_u32 Hall).
    destruct (nd_dtype a); try reflexivity. congruence.
Qed.

End Seeding.

(** X6, a concrete run: three handles seeded from [None] on a system
    without entropy. *)
Lemma seed_without_entropy_witness :
  MT19937.seed (E := Reference.no_entropy) (C := Reference.ref_mt19937_init)
    SeedNone mt_5489 = (inl RuntimeError, mt_5489)
  /\ ThreeFry32.seed (E := Reference.no_entropy) SeedNone None None
       threefry_mid_block = (inl RuntimeError, threefry_mid_block)
  /\ Xoshiro256StarStar.seed (E := Reference.no_entropy) SeedNone
       xoshiro_half_served = (inl RuntimeError, xoshiro_half_served).
Proof.
  destruct (seed_without_entropy (E := Reference.no_entropy)
              (C := Reference.ref_mt19937_init)) as (Hmt & Htf & Hxo).
  refine (conj _ (conj _ _)).
  - apply Hmt; reflexivity.
  - apply Htf; reflexivity.
  - apply Hxo; reflexivity.
Defined.

(** X7, concrete runs: the word 5489 served by the source, and served by
    the fallback when the source is down. *)
Lemma MT19937_seed_from_entropy_witness :
  MT19937.seed (E := Reference.tape_entropy [5489])
    (C := Reference.ref_mt19937_init) SeedNone (Reference.init_genrand 1)
  = (inr tt, mt_5489)
  /\ MT19937.seed (E := Reference2.fallback_entropy [5489])
       (C := Reference.ref_mt19937_init) SeedNone (Reference.init_genrand 1)
     = (inr tt, mt_5489).
Proof.
  split.
  - apply (proj1 (MT19937_seed_from_entropy
                    (E := Reference.tape_entropy [5489])
                    (C := Reference.ref_mt19937_init)
                    5489 [] (Reference.init_genrand 1))).
    reflexivity.
  - apply (proj2 (MT19937_seed_from_entropy
                    (E := Reference2.fallback_entropy [5489])
                    (C := Reference.ref_mt19937_init)
                    5489 [] (Reference.init_genrand 1)));
      reflexivity.
Defined.

(** X8, concrete runs: the scalar 5 and the uint64 array [[5]] of shape
    (1,) go through Knuth's initialisation, the list [[5]] and the int32
    array [[5; 6]] of shape (1, 2) through [init_by_array]. *)
Lemma MT19937_seed_in_range_witness :
  let seed :=
    MT19937.seed (E := Reference.no_entropy)
                 (C := Reference.ref_mt19937_init) in
  let nd d s l := SeedNdarray {| nd_dtype := d; nd_shape := s; nd_data := l |} in
  seed (SeedInt 5) mt_5489 = (inr tt, Reference.init_genrand 5)
  /\ seed (nd uint64 [1]%nat [5]) mt_5489 = (inr tt, Reference.init_genrand 5)
  /\ seed (SeedArray [5]) mt_5489 = (inr tt, Reference.init_by_array [5])
  /\ seed (nd int32 [1; 2]%nat [5; 6]) mt_5489
     = (inr tt, Reference.init_by_array [5; 6]).
Proof.
  cbv zeta.
  destruct (MT19937_seed_in_range (E := Reference.no_entropy)
              (C := Reference.ref_mt19937_init) mt_5489)
    as (Hs & Hone & Hl & Hnd).
  refine (conj _ (conj _ (conj _ _))).
  - rewrite (Hs 5) by lia. vm_compute. reflexivity.
  - rewrite (Hone {| nd_dtype := uint64; nd_shape := [1%nat];
                     nd_data := [5] |} 5).
    + vm_compute. reflexivity.
    + split; [reflexivity |]. repeat constructor; cbn; discriminate.
    + reflexivity.
    + reflexivity.
    + lia.
  - rewrite (Hl [5]) by (discriminate || (repeat constructor; lia)).
    vm_compute. reflexivity.
  - rewrite (Hnd {| nd_dtype := int32; nd_shape := [1%nat; 2%nat];
                    nd_data := [5; 6] |}).
    + vm_compute. reflexivity.
    + discriminate.
    + discriminate.
    + repeat constructor; cbn; lia.
Defined.

Section Seeding_Counter_Based.
Context {E : Entropy}.

Lemma words4_range (v : Z) : all4 (fun w => 0 <= w < 2 ^ 32) (words4 v).
Proof. rewrite words4_docstring. apply docstring_words_range. Qed.

(** Writing the four words of an array into a C array, in order. *)
Lemma ThreeFry32_write_key (a : arr4) (st : ThreeFry32.threefry32_state) :
  all4 (fun w => 0 <= w < 2 ^ 32) a ->
  for_range 4 (fun i =>
    w <- lift (array_get (list4 a) i) ;;
    w <- lift (to_uint32 (PyInt w)) ;;
    modify (ThreeFry32.set_key i w)) st
  = (inr tt,
     {| ThreeFry32.ctr := ThreeFry32.ctr st; ThreeFry32.key := a;
        ThreeFry32.buffer_pos := ThreeFry32.buffer_pos st;
        ThreeFry32.buffer := ThreeFry32.buffer st |}).
Proof.
  destruct a as [a0 a1 a2 a3]. unfold all4. cbn [w0 w1 w2 w3].
  intros (H0 & H1 & H2 & H3). unfold to_uint32. run_seed. reflexivity.
Qed.

Lemma ThreeFry32_write_ctr (a : arr4) (st : ThreeFry32.threefry32_state) :
  all4 (fun w => 0 <= w < 2 ^ 32) a ->
  for_range 4 (fun i =>
    w <- lift (array_get (list4 a) i) ;;
    w <- lift (to_uint32 (PyInt w)) ;;
    modify (ThreeFry32.set_ctr i w)) st
  = (inr tt,
     {| ThreeFry32.ctr := a; ThreeFry32.key := ThreeFry32.key st;
        ThreeFry32.buffer_pos := ThreeFry32.buffer_pos st;
        ThreeFry32.buffer := ThreeFry32.buffer st |}).
Proof.
  destruct a as [a0 a1 a2 a3]. unfold all4. cbn [w0 w1 w2 w3].
  intros (H0 & H1 & H2 & H3). unfold to_uint32. run_seed. reflexivity.
Qed.

(** The tail of [seed]: the counter, then the reset. *)
Lemma ThreeFry32_seed_counter (c : Z) (st : ThreeFry32.threefry32_state) :
  0 <= c < 2 ^ 128 ->
  (counter <- lift (int_to_array c "counter" 128 32) ;;
   for_range 4 (fun i =>
     w <- lift (array_get counter i) ;;
     w <- lift (to_uint32 (PyInt w)) ;;
     modify (ThreeFry32.set_ctr i w)) ;;
   ThreeFry32._reset_state_variables) st
  = (inr tt,
     {| ThreeFry32.ctr := docstring_words c;
        ThreeFry32.key := ThreeFry32.key st;
        ThreeFry32.buffer_pos := 4;
        ThreeFry32.buffer := Arr4 0 0 0 0 |}).
Proof.
  intros Hc. rewrite (@int_to_array_128 c "counter" Hc), bind_lift_inr.
  unfold bind at 1.
  rewrite (@ThreeFry32_write_ctr (words4 c) st (words4_range c)).
  rewrite ThreeFry32_reset_state_variables, words4_docstring. reflexivity.
Qed.

(** X9.  [ThreeFry32.seed(key=k, counter=c)] with both integers in
    [0, 2^128) installs the arrays the docstring describes,
    [array[i] = (value // 2**(32*i)) % 2**32], for the key and for the
    counter (zero when [counter] is [None]), and empties the buffer. *)
Theorem ThreeFry32_seed_key_counter
  (k : Z) (counter : option Z) (st : ThreeFry32.threefry32_state) :
  0 <= k < 2 ^ 128 ->
  0 <= match counter with None => 0 | Some c => c end < 2 ^ 128 ->
  ThreeFry32.seed SeedNone counter (Some k) st
  = (inr tt,
     {| ThreeFry32.ctr :=
          docstring_words (match counter with None => 0 | Some c => c end);
        ThreeFry32.key := docstring_words k;
        ThreeFry32.buffer_pos := 4;
        ThreeFry32.buffer := Arr4 0 0 0 0 |}).
Proof.
  intros Hk Hc. unfold ThreeFry32.seed.
  cbn [ThreeFry32.is_none negb andb].
  unfold bind at 1. rewrite (@int_to_array_128 k "key" Hk), bind_lift_inr.
  rewrite (@ThreeFry32_write_key (words4 k) st (words4_range k)).
  rewrite (ThreeFry32_seed_counter _ Hc), words4_docstring. reflexivity.
Qed.

(** X10.  [ThreeFry32.seed] validates the key before it writes anything,
    but the counter only after the key has been written: with a key in
    range and a counter out of range the call raises [ValueError] and the
    handle keeps its counter and buffer but carries the new key. *)
Theorem ThreeFry32_seed_bad_counter
  (k c : Z) (st : ThreeFry32.threefry32_state) :
  (k < 0 \/ 2 ^ 128 <= k ->
   forall counter,
     ThreeFry32.seed SeedNone counter (Some k) st = (inl ValueError, st))
  /\ (0 <= k < 2 ^ 128 -> c < 0 \/ 2 ^ 128 <= c ->
      ThreeFry32.seed SeedNone (Some c) (Some k) st
      = (inl ValueError,
         {| ThreeFry32.ctr := ThreeFry32.ctr st;
            ThreeFry32.key := docstring_words k;
            ThreeFry32.buffer_pos := ThreeFry32.buffer_pos st;
            ThreeFry32.buffer := ThreeFry32.buffer st |})).
Proof.
  split.
  - intros Hk counter. unfold ThreeFry32.seed.
    cbn [ThreeFry32.is_none negb andb].
    unfold bind at 1 2. rewrite (@int_to_array_128_out k "key" Hk).
    reflexivity.
  - intros Hk Hc. unfold ThreeFry32.seed.
    cbn [ThreeFry32.is_none negb andb].
    unfold bind at 1. rewrite (@int_to_array_128 k "key" Hk), bind_lift_inr.
    rewrite (@ThreeFry32_write_key (words4 k) st (words4_range k)).
    rewrite (@int_to_array_128_out c "counter" Hc), bind_lift_inl.
    rewrite words4_docstring. reflexivity.
Qed.

(** X11.  [ThreeFry32.seed(seed)] with a seed: an exception of
    [seed_by_array(seed, 2)] leaves the handle as it was; otherwise its two
    64-bit words become the four key words, the low half of each word
    first, the counter becomes the documented array of [counter] (zero by
    default) and the buffer is emptied. *)
Theorem ThreeFry32_seed_by_array
  (seed : seed_t) (counter : option Z) (st : ThreeFry32.threefry32_state) :
  seed <> SeedNone ->
  (forall e, seed_by_array seed 2 = inl e ->
     ThreeFry32.seed seed counter None st = (inl e, st))
  /\ (forall a b,
        seed_by_array seed 2 = inr [a; b] ->
        0 <= a < 2 ^ 64 -> 0 <= b < 2 ^ 64 ->
        0 <= match counter with None => 0 | Some c => c end < 2 ^ 128 ->
        ThreeFry32.seed seed counter None st
        = (inr tt,
           {| ThreeFry32.ctr :=
                docstring_words
                  (match counter with None => 0 | Some c => c end);
              ThreeFry32.key :=
                Arr4 (low32 a) (high32 a) (low32 b) (high32 b);
              ThreeFry32.buffer_pos := 4;
              ThreeFry32.buffer := Arr4 0 0 0 0 |})).
Proof.
  intros Hseed. split.
  - intros e He. unfold ThreeFry32.seed. rewrite andb_false_r.
    destruct seed; [congruence | ..];
      unfold bind at 1 2 3; unfold lift at 1; rewrite He; reflexivity.
  - intros a b Hab Ha Hb Hc. unfold ThreeFry32.seed. rewrite andb_false_r.
    destruct (halves_range Ha) as (Hal & Hah).
    destruct (halves_range Hb) as (Hbl & Hbh).
    assert (Hkey :
      (state <- lift (seed_by_array seed 2) ;; ret (view_uint32 state)) st
      = (inr (list4 (Arr4 (low32 a) (high32 a) (low32 b) (high32 b))), st)).
    { unfold bind, lift. rewrite Hab, view_uint32_two. reflexivity. }
    destruct seed; [congruence | ..];
      unfold bind at 1 2; rewrite Hkey;
      rewrite ThreeFry32_write_key by (unfold all4; cbn [w0 w1 w2 w3]; tauto);
      rewrite (ThreeFry32_seed_counter _ Hc); reflexivity.
Qed.

(** Writing the four words of [seed_by_array] or of the entropy source
    into [s]. *)
Lemma Xoshiro256StarStar_write_s (a b c d : Z)
  (st : Xoshiro256StarStar.xoshiro256starstar_state) :
  0 <= a < 2 ^ 64 -> 0 <= b < 2 ^ 64 -> 0 <= c < 2 ^ 64 -> 0 <= d < 2 ^ 64 ->
  (w <- lift (array_get [a; b; c; d] 0) ;; w <- lift (to_uint64 (PyInt w)) ;;
   modify (Xoshiro256StarStar.set_s 0 w) ;;
   w <- lift (array_get [a; b; c; d] 1) ;; w <- lift (to_uint64 (PyInt w)) ;;
   modify (Xoshiro256StarStar.set_s 1 w) ;;
   w <- lift (array_get [a; b; c; d] 2) ;; w <- lift (to_uint64 (PyInt w)) ;;
   modify (Xoshiro256StarStar.set_s 2 w) ;;
   w <- lift (array_get [a; b; c; d] 3) ;; w <- lift (to_uint64 (PyInt w)) ;;
   modify (Xoshiro256StarStar.set_s 3 w) ;;
   Xoshiro256StarStar._reset_state_variables) st
  = (inr tt,
     {| Xoshiro256StarStar.s := Arr4 a b c d;
        Xoshiro256StarStar.has_uint32 := 0;
        Xoshiro256StarStar.uinteger := 0 |}).
Proof.
  intros Ha Hb Hc Hd.
  unfold to_uint64, Xoshiro256StarStar._reset_state_variables.
  run_seed. reflexivity.
Qed.

(** X12.  [Xoshiro256StarStar.seed(seed)] with a seed: an exception of
    [seed_by_array(seed, 4)] leaves the handle as it was; otherwise its
    four 64-bit words become [s[0..3]] and the half-word cache is
    cleared. *)
Theorem Xoshiro256StarStar_seed_by_array
  (seed : seed_t) (st : Xoshiro256StarStar.xoshiro256starstar_state) :
  seed <> SeedNone ->
  (forall e, seed_by_array seed 4 = inl e ->
     Xoshiro256StarStar.seed seed st = (inl e, st))
  /\ (forall a b c d,
        seed_by_array seed 4 = inr [a; b; c; d] ->
        0 <= a < 2 ^ 64 -> 0 <= b < 2 ^ 64 ->
        0 <= c < 2 ^ 64 -> 0 <= d < 2 ^ 64 ->
        Xoshiro256StarStar.seed seed st
        = (inr tt,
           {| Xoshiro256StarStar.s := Arr4 a b c d;
              Xoshiro256StarStar.has_uint32 := 0;
              Xoshiro256StarStar.uinteger := 0 |})).
Proof.
  intros Hseed. split.
  - intros e He. unfold Xoshiro256StarStar.seed.
    destruct seed; [congruence | ..];
      unfold bind at 1; unfold lift at 1; rewrite He; reflexivity.
  - intros a b c d Habcd Ha Hb Hc Hd. unfold Xoshiro256StarStar.seed.
    destruct seed; [congruence | ..];
      unfold bind at 1; unfold lift at 1; rewrite Habcd;
      apply Xoshiro256StarStar_write_s; assumption.
Qed.

(** X13.  [Xoshiro256StarStar.seed(None)] pairs the eight 32-bit words of
    the entropy request into the four words of [s], the low half of each
    first ([s[i] = e[2i] + 2^32 e[2i+1]]), and clears the half-word cache;
    the eight words come from the ['fallback'] request when the first
    request raises [RuntimeError]. *)
Theorem Xoshiro256StarStar_seed_from_entropy
  (e0 e1 e2 e3 e4 e5 e6 e7 : Z)
  (st : Xoshiro256StarStar.xoshiro256starstar_state) :
  Forall (fun w => 0 <= w < 2 ^ 32) [e0; e1; e2; e3; e4; e5; e6; e7] ->
  random_entropy 8 false = inr [e0; e1; e2; e3; e4; e5; e6; e7]
  \/ (random_entropy 8 false = inl RuntimeError
      /\ random_entropy 8 true = inr [e0; e1; e2; e3; e4; e5; e6; e7]) ->
  Xoshiro256StarStar.seed SeedNone st
  = (inr tt,
     {| Xoshiro256StarStar.s :=
          Arr4 (join64 e0 e1) (join64 e2 e3) (join64 e4 e5) (join64 e6 e7);
        Xoshiro256StarStar.has_uint32 := 0;
        Xoshiro256StarStar.uinteger := 0 |}).
Proof.
  intros Hall Hent.
  repeat match goal with
         | H : Forall _ (_ :: _) |- _ => inversion H; subst; clear H
         end.
  assert (Hstate :
    (state <- try_except (lift (random_entropy 8 false)) RuntimeError
                         (lift (random_entropy 8 true)) ;;
     lift (view_uint64 state)) st
    = (inr [join64 e0 e1; join64 e2 e3; join64 e4 e5; join64 e6 e7], st)).
  { unfold bind, try_except, lift.
    destruct Hent as [-> | [-> ->]]; cbn [exn_eqb view_uint64];
      rewrite !lor_shiftl_join by lia; reflexivity. }
  unfold Xoshiro256StarStar.seed. unfold bind at 1. rewrite Hstate.
  apply Xoshiro256StarStar_write_s; apply join64_range; assumption.
Qed.

End Seeding_Counter_Based.

(** X9, a concrete run: the key of the class docstring,
    [2**65 + 2**33 + 2**17 + 2**9], with the default counter. *)
Lemma ThreeFry32_seed_key_counter_witness :
  ThreeFry32.seed (E := Reference.no_entropy) SeedNone None
    (Some (2 ^ 65 + 2 ^ 33 + 2 ^ 17 + 2 ^ 9)) threefry_mid_block
  = (inr tt,
     {| ThreeFry32.ctr := Arr4 0 0 0 0;
        ThreeFry32.key := Arr4 131584 2 2 0;
        ThreeFry32.buffer_pos := 4;
        ThreeFry32.buffer := Arr4 0 0 0 0 |}).
Proof.
  rewrite (@ThreeFry32_seed_key_counter Reference.no_entropy
             (2 ^ 65 + 2 ^ 33 + 2 ^ 17 + 2 ^ 9) None threefry_mid_block)
    by lia.
  reflexivity.
Defined.

(** X10, concrete runs: the key -1, and the key 5 with the counter
    2^128. *)
Lemma ThreeFry32_seed_bad_counter_witness :
  ThreeFry32.seed (E := Reference.no_entropy) SeedNone None (Some (-1))
    threefry_mid_block
  = (inl ValueError, threefry_mid_block)
  /\ ThreeFry32.seed (E := Reference.no_entropy) SeedNone (Some (2 ^ 128))
       (Some 5) threefry_mid_block
     = (inl ValueError,
        {| ThreeFry32.ctr := Arr4 9 0 0 0;
           ThreeFry32.key := Arr4 5 0 0 0;
           ThreeFry32.buffer_pos := 2;
           ThreeFry32.buffer := Arr4 11 12 13 14 |}).
Proof.
  split.
  - apply (proj1 (@ThreeFry32_seed_bad_counter Reference.no_entropy
                    (-1) 0 threefry_mid_block)). lia.
  - rewrite (proj2 (@ThreeFry32_seed_bad_counter Reference.no_entropy
                      5 (2 ^ 128) threefry_mid_block)) by lia.
    reflexivity.
Defined.

(** X11, concrete runs: the seed 2^64, which [seed_by_array] refuses, and
    the seed 1, whose two SplitMix64 words are split into four key
    words. *)
Lemma ThreeFry32_seed_by_array_witness :
  ThreeFry32.seed (E := Reference.no_entropy) (SeedInt (2 ^ 64)) None None
    threefry_mid_block
  = (inl ValueError, threefry_mid_block)
  /\ ThreeFry32.seed (E := Reference.no_entropy) (SeedInt 1) None None
       threefry_mid_block
     = (inr tt,
        {| ThreeFry32.ctr := Arr4 0 0 0 0;
           ThreeFry32.key :=
             Arr4 (low32 10451216379200822465) (high32 10451216379200822465)
                  (low32 13757245211066428519) (high32 13757245211066428519);
           ThreeFry32.buffer_pos := 4;
           ThreeFry32.buffer := Arr4 0 0 0 0 |}).
Proof.
  split.
  - apply (@ThreeFry32_seed_by_array Reference.no_entropy
             (SeedInt (2 ^ 64)) None threefry_mid_block);
      [discriminate | reflexivity].
  - rewrite (proj2 (@ThreeFry32_seed_by_array Reference.no_entropy
                      (SeedInt 1) None threefry_mid_block
                      ltac:(discriminate))
               10451216379200822465 13757245211066428519)
      by (reflexivity || lia).
    reflexivity.
Defined.

(** X12, concrete runs: the seed -1, which [seed_by_array] refuses, and
    the seed 1. *)
Lemma Xoshiro256StarStar_seed_by_array_witness :
  Xoshiro256StarStar.seed (E := Reference.no_entropy) (SeedInt (-1))
    xoshiro_half_served
  = (inl ValueError, xoshiro_half_served)
  /\ Xoshiro256StarStar.seed (E := Reference.no_entropy) (SeedInt 1)
       xoshiro_half_served
     = (inr tt,
        {| Xoshiro256StarStar.s :=
             Arr4 10451216379200822465 13757245211066428519
                  17911839290282890590 8196980753821780235;
           Xoshiro256StarStar.has_uint32 := 0;
           Xoshiro256StarStar.uinteger := 0 |}).
Proof.
  split.
  - apply (@Xoshiro256StarStar_seed_by_array Reference.no_entropy
             (SeedInt (-1)) xoshiro_half_served);
      [discriminate | reflexivity].
  - apply (@Xoshiro256StarStar_seed_by_array Reference.no_entropy
             (SeedInt 1) xoshiro_half_served);
      [discriminate | reflexivity | lia | lia | lia | lia].
Defined.

(** X13, concrete runs: the words 1 .. 8 served by the source, and by the
    fallback. *)
Lemma Xoshiro256StarStar_seed_from_entropy_witness :
  Xoshiro256StarStar.seed (E := Reference.tape_entropy [1; 2; 3; 4; 5; 6; 7; 8])
    SeedNone xoshiro_half_served
  = (inr tt,
     {| Xoshiro256StarStar.s :=
          Arr4 (join64 1 2) (join64 3 4) (join64 5 6) (join64 7 8);
        Xoshiro256StarStar.has_uint32 := 0;
        Xoshiro256StarStar.uinteger := 0 |})
  /\ Xoshiro256StarStar.seed
       (E := Reference2.fallback_entropy [1; 2; 3; 4; 5; 6; 7; 8])
       SeedNone xoshiro_half_served
     = (inr tt,
        {| Xoshiro256StarStar.s :=
             Arr4 (join64 1 2) (join64 3 4) (join64 5 6) (join64 7 8);
           Xoshiro256StarStar.has_uint32 := 0;
           Xoshiro256StarStar.uinteger := 0 |}).
Proof.
  split.
  - apply (@Xoshiro256StarStar_seed_from_entropy
             (Reference.tape_entropy [1; 2; 3; 4; 5; 6; 7; 8])
             1 2 3 4 5 6 7 8 xoshiro_half_served).
    + repeat constructor; lia.
    + left. reflexivity.
  - apply (@Xoshiro256StarStar_seed_from_entropy
             (Reference2.fallback_entropy [1; 2; 3; 4; 5; 6; 7; 8])
             1 2 3 4 5 6 7 8 xoshiro_half_served).
    + repeat constructor; lia.
    + right. split; reflexivity.
Defined.

(** ** Jumps of xoshiro256** *)

Section Xoshiro_Jump_More.
Context {C : Xoshiro256StarStar.xoshiro256starstar_h}.

(** X14.  [Xoshiro256StarStar.jump(iter)] with [iter <= 0] does not raise
    and does not call the C jump: the four state words stay as they are,
    and the half-word cache is cleared all the same. *)
Theorem Xoshiro256StarStar_jump_nonpositive
  (iter : Z) (st : Xoshiro256StarStar.xoshiro256starstar_state) :
  iter <= 0 ->
  Xoshiro256StarStar.jump iter st
  = (inr tt,
     {| Xoshiro256StarStar.s := Xoshiro256StarStar.s st;
        Xoshiro256StarStar.has_uint32 := 0;
        Xoshiro256StarStar.uinteger := 0 |}).
Proof.
  intros Hiter. rewrite Xoshiro256StarStar_jump_eq.
  replace (Z.to_nat iter) with 0%nat by lia. reflexivity.
Qed.

(** X15.  Jumps add up: when the C jump acts on the four state words
    only, [jump(a)] followed by [jump(b)] leaves the handle as [jump(a+b)]
    does, for all [a, b >= 0]. *)
Theorem Xoshiro256StarStar_jump_add
  (a b : Z) (st : Xoshiro256StarStar.xoshiro256starstar_state) :
  Xoshiro256StarStar.jump_acts_on_s C ->
  0 <= a -> 0 <= b ->
  (Xoshiro256StarStar.jump a ;; Xoshiro256StarStar.jump b) st
  = Xoshiro256StarStar.jump (a + b) st.
Proof.
  intros [f Hf] Ha Hb. unfold bind.
  rewrite !Xoshiro256StarStar_jump_eq.
  rewrite !iter_jump_acts_on_s with (f := f) by exact Hf.
  cbn [Xoshiro256StarStar.s].
  rewrite Z2Nat.inj_add by lia.
  rewrite (Nat.add_comm (Z.to_nat a)), Nat.iter_add. reflexivity.
Qed.

End Xoshiro_Jump_More.

(** X14, a concrete run: [jump(-3)] on a handle with a pending half
    word. *)
Lemma Xoshiro256StarStar_jump_nonpositive_witness :
  Xoshiro256StarStar.jump (C := Reference.ref_xoshiro) (-3)
    xoshiro_half_served
  = (inr tt,
     {| Xoshiro256StarStar.s := Arr4 1 2 3 4;
        Xoshiro256StarStar.has_uint32 := 0;
        Xoshiro256StarStar.uinteger := 0 |}).
Proof.
  apply (@Xoshiro256StarStar_jump_nonpositive Reference.ref_xoshiro (-3)
           xoshiro_half_served).
  lia.
Defined.

(** X15, a concrete run: two jumps then three, against five. *)
Lemma Xoshiro256StarStar_jump_add_witness :
  (Xoshiro256StarStar.jump (C := Reference.ref_xoshiro) 2 ;;
   Xoshiro256StarStar.jump (C := Reference.ref_xoshiro) 3)
    xoshiro_half_served
  = Xoshiro256StarStar.jump (C := Reference.ref_xoshiro) 5
      xoshiro_half_served.
Proof.
  apply (@Xoshiro256StarStar_jump_add Reference.ref_xoshiro 2 3
           xoshiro_half_served ref_xoshiro_jump_acts_on_s); lia.
Defined.

(* ================================================================== *)
(** * Part IV: further properties of the legacy samplers *)
(* ================================================================== *)

Module LegacyMoreFacts.

Import Legacy LegacyDistributions.
Local Open Scope float_scope.
Local Open Scope nat_scope.
Local Unset Implicit Arguments.
#[local] Set Warnings "-inexact-float".

(** *** More of binary64 *)

Lemma float_leb_cases (x y : float) :
  (x <=? y)%float = true -> (x <? y)%float = true \/ (x =? y)%float = true.
Proof.
  rewrite leb_spec, ltb_spec, eqb_spec. unfold SFleb, SFltb, SFeqb.
  destruct (SFcompare (Prim2SF x) (Prim2SF y)) as [[| |] |];
    intros H; try discriminate; auto.
Qed.

Lemma mul_nan_l (x : float) : (nan * x)%float = nan.
Proof.
  apply Prim2SF_inj. rewrite mul_spec.
  change (Prim2SF nan) with S754_nan. reflexivity.
Qed.

Lemma mul_nan_r (x : float) : (x * nan)%float = nan.
Proof.
  apply Prim2SF_inj. rewrite mul_spec.
  change (Prim2SF nan) with S754_nan.
  destruct (Prim2SF x) as [s | s | | s m e]; reflexivity.
Qed.

Lemma div_nan_l (x : float) : (nan / x)%float = nan.
Proof.
  apply Prim2SF_inj. rewrite div_spec.
  change (Prim2SF nan) with S754_nan. reflexivity.
Qed.

Section Frames.
Context {B : brng_t} {L : libm}.

(** *** The gauss cache and the gamma sampler *)

Lemma gamma_small_keeps_cache (n : nat) (aug a' : aug_brng_t)
  (shape x : float) :
  gamma_small n aug shape = Some (x, a') ->
  has_gauss a' = has_gauss aug /\ gauss a' = gauss aug.
Proof.
  revert aug. induction n as [| n IH]; intros aug H; [discriminate |].
  rewrite LegacyFacts.gamma_small_step in H. cbv zeta in H.
  destruct (gamma_small_trial shape _ _) as [X |].
  - injection H as _ <-. split; reflexivity.
  - apply IH in H. exact H.
Qed.

(** X16.  For a shape of at most one, [legacy_standard_gamma] never
    touches the cached gauss value: whatever it returns, [has_gauss] and
    [gauss] are those of before the call. *)
Theorem legacy_standard_gamma_keeps_cache
  (fuel : nat) (aug a' : aug_brng_t) (shape x : float) :
  (shape <=? 1)%float = true ->
  legacy_standard_gamma fuel aug shape = Some (x, a') ->
  has_gauss a' = has_gauss aug /\ gauss a' = gauss aug.
Proof.
  intros Hle. unfold legacy_standard_gamma.
  destruct (shape =? 1)%float eqn:H1.
  - rewrite LegacyFacts.legacy_standard_exponential_eq.
    intros H. injection H as _ <-. split; reflexivity.
  - destruct (shape =? 0)%float.
    + intros H. injection H as _ <-. split; reflexivity.
    + destruct (float_leb_cases _ _ Hle) as [Hlt | Heq]; [| congruence].
      rewrite Hlt. apply gamma_small_keeps_cache.
Qed.

(** *** NaN parameters of the gamma family *)

Lemma gamma_large_value (fuel n : nat) (aug a' : aug_brng_t)
  (b c x : float) :
  gamma_large fuel n aug b c = Some (x, a') -> exists V, x = (b * V)%float.
Proof.
  revert aug. induction n as [| n IH]; intros aug H; [discriminate |].
  cbn [gamma_large] in H.
  destruct (gamma_gauss fuel fuel aug c) as [[[X V] a1] |]; [| discriminate].
  destruct (legacy_double a1) as [U a2].
  destruct (_ <? _)%float.
  - injection H as <- _. eexists. reflexivity.
  - destruct (_ <? _)%float.
    + injection H as <- _. eexists. reflexivity.
    + apply IH in H. exact H.
Qed.

Lemma ltb_nan_r (x : float) : (x <? nan)%float = false.
Proof.
  rewrite ltb_spec. change (Prim2SF nan) with S754_nan.
  destruct (Prim2SF x) as [s | s | | s m e]; reflexivity.
Qed.

Lemma leb_nan_l (x : float) : (nan <=? x)%float = false.
Proof.
  rewrite leb_spec. change (Prim2SF nan) with S754_nan. reflexivity.
Qed.

(** With NaN coefficients an outer trial keeps the very first gauss value
    and only the squeeze test can accept. *)
Lemma gamma_large_trial_nan (fuel : nat) (aug : aug_brng_t) :
  gamma_large_trial_at fuel 0 aug nan nan
  = match legacy_gauss fuel aug with
    | None => None
    | Some (X, a1) =>
        Some (if (draw 0 (basicrng a1)
                  <? 1.0 - 0.0331 * (X * X) * (X * X))%float
              then Some nan else None,
              set_basicrng (after_draws 1 (basicrng a1)) a1)
    end.
Proof.
  unfold gamma_large_trial_at, gauss_all_retried. cbn [seq forallb].
  change (gauss_call fuel 0 aug) with (legacy_gauss fuel aug).
  destruct (legacy_gauss fuel aug) as [[X a1] |]; [| reflexivity].
  unfold gauss_retried, gamma_large_accepts.
  rewrite !mul_nan_l, !LegacyFacts.add_nan_r, leb_nan_l, ltb_nan_r.
  rewrite orb_false_r. reflexivity.
Qed.

(** X17.  A NaN shape fails the three first tests of
    [legacy_standard_gamma] and runs the last branch with [b] and [c] both
    NaN.  There an outer trial makes one call of [legacy_gauss], never a
    second (a NaN [V] is not [<= 0]), and draws one uniform; the logarithm
    test compares with NaN and fails, so a trial is accepted by the
    squeeze test alone, and the run returns NaN on the state left by the
    first trial the squeeze accepts.  Every value [legacy_standard_gamma]
    and [legacy_chisquare] return on a NaN parameter is NaN. *)
Theorem legacy_gamma_nan_parameter (p : float) :
  is_nan p = true ->
  ((p =? 1)%float = false /\ (p =? 0)%float = false
   /\ (p <? 1)%float = false)
  /\ (forall fuel aug,
        gamma_large_trial_at fuel 0 aug nan nan
        = match legacy_gauss fuel aug with
          | None => None
          | Some (X, a1) =>
              Some (if (draw 0 (basicrng a1)
                        <? 1.0 - 0.0331 * (X * X) * (X * X))%float
                    then Some nan else None,
                    set_basicrng (after_draws 1 (basicrng a1)) a1)
          end)
  /\ (forall fuel aug n a x a',
        gamma_large_rejected_at fuel (repeat 0 n) aug nan nan = Some a ->
        gamma_large_trial_at fuel 0 a nan nan = Some (Some x, a') ->
        n < fuel ->
        legacy_standard_gamma fuel aug p = Some (nan, a'))
  /\ (forall fuel aug x a',
        legacy_standard_gamma fuel aug p = Some (x, a') -> x = nan)
  /\ (forall fuel aug x a',
        legacy_chisquare fuel aug p = Some (x, a') -> x = nan).
Proof.
  intros Hnan. rewrite (LegacyFacts.is_nan_inv _ Hnan).
  assert (Hgamma : forall fuel aug a' x,
            legacy_standard_gamma fuel aug nan = Some (x, a') -> x = nan).
  { clear. intros fuel aug a' x. unfold legacy_standard_gamma.
    change (nan =? 1)%float with false. change (nan =? 0)%float with false.
    change (nan <? 1)%float with false. cbv zeta.
    change (nan - 1.0 / 3.0)%float with nan. intros H.
    apply gamma_large_value in H. destruct H as [V ->]. apply mul_nan_l. }
  refine (conj _ (conj _ (conj _ (conj _ _)))).
  - repeat split.
  - apply gamma_large_trial_nan.
  - intros fuel aug n a x a' Hrej Hacc Hfuel.
    assert (Hx : x = nan).
    { rewrite gamma_large_trial_nan in Hacc.
      destruct (legacy_gauss fuel a) as [[X a1] |]; [| discriminate Hacc].
      destruct (_ <? _)%float; [| discriminate Hacc].
      injection Hacc as <- _. reflexivity. }
    subst x. unfold legacy_standard_gamma.
    change (nan =? 1)%float with false. change (nan =? 0)%float with false.
    change (nan <? 1)%float with false. cbv zeta.
    change (nan - 1.0 / 3.0)%float with nan.
    change (1.0 / sqrt (9.0 * nan))%float with nan.
    apply (@LegacyFacts.gamma_large_first_accepted _ _ n fuel fuel aug a a'
             nan nan nan).
    + rewrite <- (repeat_length 0 n) at 1.
      apply LegacyFacts.gamma_large_rejected_at_eq; [exact Hrej |].
      apply Forall_forall. intros k Hk. apply repeat_spec in Hk. lia.
    + apply (@LegacyFacts.gamma_large_trial_at_eq _ _ fuel 0 a a' nan nan
               (Some nan)); [exact Hacc | lia].
    + exact Hfuel.
  - intros fuel aug x a'. apply Hgamma.
  - intros fuel aug x a'. unfold legacy_chisquare.
    change (nan / 2.0)%float with nan.
    destruct (legacy_standard_gamma fuel aug nan) as [[g a] |] eqn:Hg;
      [| discriminate].
    intros H. injection H as <- _.
    rewrite (Hgamma _ _ _ _ Hg). reflexivity.
Qed.

(** *** The parity of the gauss cache *)

Lemma legacy_gauss_flips (fuel : nat) (aug a' : aug_brng_t) (g : float) :
  legacy_gauss fuel aug = Some (g, a') ->
  has_gauss a' = negb (has_gauss aug).
Proof.
  unfold legacy_gauss. destruct (has_gauss aug).
  - intros H. injection H as _ <-. reflexivity.
  - destruct (gauss_polar fuel aug) as [[[[x1 x2] r2] a] |]; [| discriminate].
    intros H. injection H as _ <-. reflexivity.
Qed.

End Frames.

Section Parity.
Context {B : brng_t} {L : libm} {X : libm_exp}.

(** X18.  The samplers built on one gauss value, [legacy_normal],
    [legacy_lognormal] and [legacy_wald], flip [has_gauss] on every call
    that returns, as [legacy_gauss] does; [legacy_standard_cauchy], built
    on two, gives it back as it found it, whichever operand of its
    division is evaluated first. *)
Theorem gauss_cache_parity (fuel : nat) (aug a' : aug_brng_t) (v : float) :
  (legacy_gauss fuel aug = Some (v, a') ->
   has_gauss a' = negb (has_gauss aug))
  /\ (forall loc scale,
        legacy_normal fuel aug loc scale = Some (v, a') ->
        has_gauss a' = negb (has_gauss aug))
  /\ (forall mean sigma,
        legacy_lognormal fuel aug mean sigma = Some (v, a') ->
        has_gauss a' = negb (has_gauss aug))
  /\ (forall mean scale,
        legacy_wald fuel aug mean scale = Some (v, a') ->
        has_gauss a' = negb (has_gauss aug))
  /\ (forall left_first,
        legacy_standard_cauchy left_first fuel aug = Some (v, a') ->
        has_gauss a' = has_gauss aug).
Proof.
  refine (conj _ (conj _ (conj _ (conj _ _)))).
  - apply legacy_gauss_flips.
  - intros loc scale. unfold legacy_normal.
    destruct (legacy_gauss fuel aug) as [[g a] |] eqn:Hg; [| discriminate].
    intros H. injection H as _ <-. exact (legacy_gauss_flips _ _ _ _ Hg).
  - intros mean sigma. unfold legacy_lognormal, legacy_normal.
    destruct (legacy_gauss fuel aug) as [[g a] |] eqn:Hg; [| discriminate].
    intros H. injection H as _ <-. exact (legacy_gauss_flips _ _ _ _ Hg).
  - intros mean scale. unfold legacy_wald. cbv zeta.
    destruct (legacy_gauss fuel aug) as [[g a] |] eqn:Hg; [| discriminate].
    rewrite LegacyFacts.legacy_double_eq.
    destruct (_ <=? _)%float; intros H; injection H as _ <-;
      exact (legacy_gauss_flips _ _ _ _ Hg).
  - intros left_first. unfold legacy_standard_cauchy.
    destruct (legacy_gauss fuel aug) as [[g1 a1] |] eqn:Hg1; [| discriminate].
    destruct (legacy_gauss fuel a1) as [[g2 a2] |] eqn:Hg2; [| discriminate].
    intros H. injection H as _ <-.
    rewrite (legacy_gauss_flips _ _ _ _ Hg2), (legacy_gauss_flips _ _ _ _ Hg1).
    apply negb_involutive.
Qed.

(** X19.  With an empty cache, [legacy_standard_cauchy] makes its second
    gauss call on the cache the first one filled: it draws no more than
    the first call did, leaves the cache empty, and returns the quotient
    of the two deviates of one accepted pair, [g / cached] when the left
    operand is evaluated first and [cached / g] when the right one is. *)
Theorem legacy_standard_cauchy_one_pair
  (left_first : bool) (fuel : nat) (aug a1 : aug_brng_t) (g : float) :
  has_gauss aug = false ->
  legacy_gauss fuel aug = Some (g, a1) ->
  legacy_standard_cauchy left_first fuel aug
  = Some ((if left_first then g / gauss a1 else gauss a1 / g)%float,
          {| basicrng := basicrng a1; has_gauss := false;
             gauss := 0%float |}).
Proof.
  intros Hempty Hg. unfold legacy_standard_cauchy. rewrite Hg.
  pose proof (legacy_gauss_flips _ _ _ _ Hg) as Hfull.
  rewrite Hempty in Hfull. cbn [negb] in Hfull.
  unfold legacy_gauss at 1. rewrite Hfull. reflexivity.
Qed.

End Parity.

Section Beta.
Context {B : brng_t} {L : libm} {X : libm_exp}.

(** *** Johnk's loop in [legacy_beta] *)

Lemma beta_johnk_step (n : nat) (aug : aug_brng_t) (a b : float) :
  beta_johnk (S n) aug a b
  = let s := basicrng aug in
    let a2 := set_basicrng (after_draws 2 s) aug in
    match johnk_trial a b (draw 0 s) (draw 1 s) with
    | Some x => Some (x, a2)
    | None => beta_johnk n a2 a b
    end.
Proof.
  cbn [beta_johnk]. rewrite !LegacyFacts.legacy_double_eq.
  cbn [basicrng set_basicrng]. rewrite LegacyFacts.draw_shift.
  rewrite LegacyFacts.set_basicrng_twice, <- LegacyFacts.after_draws_add.
  cbv zeta. unfold johnk_trial. cbn [Nat.add].
  destruct (_ <=? 1.0)%float; [| reflexivity].
  destruct (0.0 <? _)%float; reflexivity.
Qed.

Lemma draw_pair_shift (s : brng_state) (i : nat) :
  draw (2 * i) (after_draws 2 s) = draw (2 * S i) s
  /\ draw (2 * i + 1) (after_draws 2 s) = draw (2 * S i + 1) s.
Proof.
  rewrite !LegacyFacts.draw_shift.
  replace (2 + 2 * i) with (2 * S i) by lia.
  replace (2 + (2 * i + 1)) with (2 * S i + 1) by lia.
  split; reflexivity.
Qed.

Lemma beta_johnk_first_accepted (n fuel : nat) (aug : aug_brng_t)
  (a b x : float) :
  (forall i, i < n ->
     johnk_trial a b (draw (2 * i) (basicrng aug))
                     (draw (2 * i + 1) (basicrng aug)) = None) ->
  johnk_trial a b (draw (2 * n) (basicrng aug))
                  (draw (2 * n + 1) (basicrng aug)) = Some x ->
  n < fuel ->
  beta_johnk fuel aug a b
  = Some (x, set_basicrng (after_draws (2 * S n) (basicrng aug)) aug).
Proof.
  revert fuel aug. induction n as [| n IH]; intros fuel aug Hrej Hacc Hfuel.
  - destruct fuel as [| fuel]; [lia |].
    rewrite beta_johnk_step. cbv zeta.
    change (2 * 0) with 0 in Hacc. change (0 + 1) with 1 in Hacc.
    rewrite Hacc. reflexivity.
  - destruct fuel as [| fuel]; [lia |].
    rewrite beta_johnk_step. cbv zeta.
    pose proof (Hrej 0 ltac:(lia)) as H0.
    change (2 * 0) with 0 in H0. change (0 + 1) with 1 in H0.
    rewrite H0. rewrite IH; cbn [basicrng set_basicrng].
    + rewrite LegacyFacts.set_basicrng_twice, <- LegacyFacts.after_draws_add.
      replace (2 + 2 * S n) with (2 * S (S n)) by lia. reflexivity.
    + intros i Hi. destruct (draw_pair_shift (basicrng aug) i) as (-> & ->).
      apply Hrej. lia.
    + destruct (draw_pair_shift (basicrng aug) n) as (-> & ->). exact Hacc.
    + lia.
Qed.

(** X20.  For [a <= 1] and [b <= 1], [legacy_beta] runs Johnk's trials on
    the uniforms of the stream two at a time, [U] then [V], skips every
    trial with [X + Y > 1] and returns the value of the first other one;
    it calls neither gamma nor gauss, so the gauss cache is left alone. *)
Theorem legacy_beta_johnk
  (n fuel : nat) (aug : aug_brng_t) (a b x : float) :
  (a <=? 1)%float = true -> (b <=? 1)%float = true ->
  (forall i, i < n ->
     johnk_trial a b (draw (2 * i) (basicrng aug))
                     (draw (2 * i + 1) (basicrng aug)) = None) ->
  johnk_trial a b (draw (2 * n) (basicrng aug))
                  (draw (2 * n + 1) (basicrng aug)) = Some x ->
  n < fuel ->
  legacy_beta fuel aug a b
  = Some (x, set_basicrng (after_draws (2 * S n) (basicrng aug)) aug).
Proof.
  intros Ha Hb Hrej Hacc Hfuel. unfold legacy_beta.
  rewrite Ha, Hb. cbn [andb].
  apply beta_johnk_first_accepted; assumption.
Qed.

(** *** NaN through [legacy_noncentral_f] *)

Lemma legacy_noncentral_chisquare_nan_value
  (fuel : nat) (aug a' : aug_brng_t) (df x : float) :
  legacy_noncentral_chisquare fuel aug df nan = Some (x, a') -> x = nan.
Proof.
  unfold legacy_noncentral_chisquare.
  change (nan =? 0)%float with false.
  destruct (1 <? df)%float.
  - destruct (legacy_chisquare fuel aug (df - 1.0)) as [[Chi2 a1] |];
      [| discriminate].
    destruct (legacy_gauss fuel a1) as [[g a2] |]; [| discriminate].
    cbv zeta. intros H. injection H as <- _.
    set (n := (g + _)%float).
    assert (Hn : n = nan) by apply (LegacyFacts.add_nan_r g).
    rewrite Hn, mul_nan_l. apply LegacyFacts.add_nan_r.
  - change (is_nan nan) with true.
    destruct (random_poisson (basicrng aug) (nan / 2.0)) as [i s].
    destruct (legacy_chisquare fuel _ _) as [[out a2] |]; [| discriminate].
    intros H. injection H as <- _. reflexivity.
Qed.

(** X21.  With a NaN [nonc], [legacy_noncentral_f] still draws its
    noncentral chi-square and then its chi-square of [dfden], in this
    order, and the value it returns on the state they leave is NaN. *)
Theorem legacy_noncentral_f_nan
  (fuel : nat) (aug a' : aug_brng_t) (dfnum dfden nonc x : float) :
  is_nan nonc = true ->
  legacy_noncentral_f fuel aug dfnum dfden nonc = Some (x, a') ->
  x = nan
  /\ exists y a1 c,
       legacy_noncentral_chisquare fuel aug dfnum nonc = Some (y, a1)
       /\ legacy_chisquare fuel a1 dfden = Some (c, a').
Proof.
  intros Hnan. rewrite (LegacyFacts.is_nan_inv _ Hnan).
  unfold legacy_noncentral_f.
  destruct (legacy_noncentral_chisquare fuel aug dfnum nan)
    as [[y a1] |] eqn:Hy; [| discriminate].
  destruct (legacy_chisquare fuel a1 dfden) as [[c a2] |] eqn:Hc;
    [| discriminate].
  cbv zeta. intros H. injection H as <- <-.
  rewrite (legacy_noncentral_chisquare_nan_value _ _ _ _ _ Hy).
  rewrite mul_nan_l, div_nan_l. split; [reflexivity |].
  exists nan, a1, c. split; [reflexivity | exact Hc].
Qed.

End Beta.

(** *** Concrete runs *)

(** X16, a concrete run: a gamma draw of shape 0.5 (one rejected trial,
    one accepted) made while a deviate is cached leaves the deviate in
    place. *)
Lemma legacy_standard_gamma_keeps_cache_witness :
  match legacy_standard_gamma (L := LegacyReference.series_libm) 2
          (LegacyReference.on_tape [0.5; 0.125; 0.25; 0.25]%float
                                   true 1.5%float) 0.5%float with
  | Some (_, a') => has_gauss a' = true /\ gauss a' = 1.5%float
  | None => False
  end.
Proof.
  destruct (legacy_standard_gamma (L := LegacyReference.series_libm) 2
              (LegacyReference.on_tape [0.5; 0.125; 0.25; 0.25]%float
                                       true 1.5%float) 0.5%float)
    as [[x a'] |] eqn:Hrun.
  - exact (legacy_standard_gamma_keeps_cache _ _ _ 0.5%float _ eq_refl Hrun).
  - vm_compute in Hrun. discriminate Hrun.
Defined.

(** X17, a concrete run: a NaN shape on the uniforms 0.25, 0.25,
    1 - 2^-10, 0.25.  The first trial draws a polar pair and is rejected by
    the squeeze; the second takes the cached gauss value and is accepted
    on the uniform 0.25. *)
Lemma legacy_gamma_nan_parameter_witness :
  legacy_standard_gamma (L := LegacyReference.series_libm) 2
    (LegacyReference.on_tape [0.25; 0.25; 0.9990234375; 0.25]%float
                             false 0%float)
    nan
  = Some (nan, LegacyReference.on_tape [] false 0%float).
Proof.
  destruct (legacy_gamma_nan_parameter (B := LegacyReference.tape_brng)
              (L := LegacyReference.series_libm) nan eq_refl)
    as (_ & _ & Hrun & _).
  apply (Hrun 2
           (LegacyReference.on_tape [0.25; 0.25; 0.9990234375; 0.25]%float
                                    false 0%float)
           1
           (LegacyReference.on_tape [0.25]%float true
              (sqrt (-2.0 * LegacyReference.series_log 0.5 / 0.5) * -0.5)%float)
           nan
           (LegacyReference.on_tape [] false 0%float)).
  - vm_compute. reflexivity.
  - vm_compute. reflexivity.
  - lia.
Defined.

(** X18, concrete runs: a normal draw fills the empty cache, a Cauchy draw
    leaves it empty. *)
Lemma gauss_cache_parity_witness :
  match legacy_normal (L := LegacyReference.series_libm) 1
          (LegacyReference.on_tape [0.25; 0.25]%float false 0%float)
          10%float 2%float with
  | Some (_, a') => has_gauss a' = true
  | None => False
  end
  /\ match legacy_standard_cauchy (L := LegacyReference.series_libm) true 1
             (LegacyReference.on_tape [0.25; 0.25]%float false 0%float) with
     | Some (_, a') => has_gauss a' = false
     | None => False
     end.
Proof.
  split.
  - destruct (legacy_normal (L := LegacyReference.series_libm) 1
                (LegacyReference.on_tape [0.25; 0.25]%float false 0%float)
                10%float 2%float) as [[v a'] |] eqn:Hrun.
    + exact (proj1 (proj2 (gauss_cache_parity (X := Reference2.series_libm_exp) _ _ _ _)) _ _ Hrun).
    + vm_compute in Hrun. discriminate Hrun.
  - destruct (legacy_standard_cauchy (L := LegacyReference.series_libm) true 1
                (LegacyReference.on_tape [0.25; 0.25]%float false 0%float))
      as [[v a'] |] eqn:Hrun.
    + exact (proj2 (proj2 (proj2 (proj2 (gauss_cache_parity (X := Reference2.series_libm_exp) _ _ _ _))))
               _ Hrun).
    + vm_compute in Hrun. discriminate Hrun.
Defined.

(** X19, concrete runs on the uniforms 0.25, 0.75 (x1 = -0.5, x2 = 0.5,
    r2 = 0.5): the quotient is [x2 / x1] scaled, or its inverse, by the
    order of evaluation. *)
Lemma legacy_standard_cauchy_one_pair_witness :
  let f := sqrt (-2.0 * LegacyReference.series_log 0.5 / 0.5) in
  legacy_standard_cauchy (L := LegacyReference.series_libm) true 1
    (LegacyReference.on_tape [0.25; 0.75]%float false 0%float)
  = Some ((f * 0.5 / (f * -0.5))%float,
          LegacyReference.on_tape [] false 0%float)
  /\ legacy_standard_cauchy (L := LegacyReference.series_libm) false 1
       (LegacyReference.on_tape [0.25; 0.75]%float false 0%float)
     = Some ((f * -0.5 / (f * 0.5))%float,
             LegacyReference.on_tape [] false 0%float).
Proof.
  cbv zeta.
  set (f := sqrt (-2.0 * LegacyReference.series_log 0.5 / 0.5)).
  assert (Hg : legacy_gauss (L := LegacyReference.series_libm) 1
                 (LegacyReference.on_tape [0.25; 0.75]%float false 0%float)
               = Some ((f * 0.5)%float,
                       LegacyReference.on_tape [] true (f * -0.5)%float)).
  { vm_compute. reflexivity. }
  split.
  - exact (legacy_standard_cauchy_one_pair true 1
             (LegacyReference.on_tape [0.25; 0.75]%float false 0%float)
             _ _ eq_refl Hg).
  - exact (legacy_standard_cauchy_one_pair false 1
             (LegacyReference.on_tape [0.25; 0.75]%float false 0%float)
             _ _ eq_refl Hg).
Defined.

(** X20, a concrete run with [a = b = 0.5]: the trial on 0.875, 0.875 has
    [X + Y > 1] and is skipped, the trial on 0.5, 0.5 is accepted. *)
Lemma legacy_beta_johnk_witness :
  let p := pow (libm := LegacyReference.series_libm) 0.5 (1.0 / 0.5) in
  legacy_beta (L := LegacyReference.series_libm)
    (X := Reference2.series_libm_exp) 2
    (LegacyReference.on_tape [0.875; 0.875; 0.5; 0.5]%float true 1.5%float)
    0.5%float 0.5%float
  = Some ((p / (p + p))%float, LegacyReference.on_tape [] true 1.5%float).
Proof.
  cbv zeta.
  apply (legacy_beta_johnk (L := LegacyReference.series_libm)
           (X := Reference2.series_libm_exp) 1 2
           (LegacyReference.on_tape [0.875; 0.875; 0.5; 0.5]%float
                                    true 1.5%float)).
  - reflexivity.
  - reflexivity.
  - intros i Hi. assert (i = 0) as -> by lia. vm_compute. reflexivity.
  - vm_compute. reflexivity.
  - lia.
Defined.

(** X21, a concrete run: [dfnum = 6], [dfden = 2] and a NaN [nonc]. *)
Lemma legacy_noncentral_f_nan_witness :
  match legacy_noncentral_f (L := LegacyReference.series_libm) 3
          (LegacyReference.on_tape
             [0.25; 0.25; 0.9990234375; 0.25; 0.25; 0.25]%float
             false 0%float)
          6%float 2%float nan with
  | Some (x, _) => x = nan
  | None => False
  end.
Proof.
  destruct (legacy_noncentral_f (L := LegacyReference.series_libm) 3
              (LegacyReference.on_tape
                 [0.25; 0.25; 0.9990234375; 0.25; 0.25; 0.25]%float
                 false 0%float)
              6%float 2%float nan) as [[x a'] |] eqn:Hrun.
  - exact (proj1 (legacy_noncentral_f_nan _ _ _ _ _ nan _ eq_refl Hrun)).
  - vm_compute in Hrun. discriminate Hrun.
Defined.

End LegacyMoreFacts.
